(** * Tab5GitHubStatus: status poller, snapshot hand-off, screensaver and matrix rain

    A shallow embedding of [Tab5GitHubStatus.ino] (the dual-core revision with
    the background fetch task).  Globals of the sketch become fields of one
    [State] record, the two execution contexts become two transition
    functions over it, and what the sketch receives from outside (HTTP
    replies, the clock, the random source, the touch panel) is taken as
    input. *)

From Stdlib Require Import ZArith Lia Bool Ascii String.
From stdpp Require Import base list strings.

Local Open Scope string_scope.

(** ** C strings

    A [char] buffer is modelled by the bytes it holds before its first NUL. *)
(** [strncpy (dst, src, n)] into a buffer whose byte [n] is NUL (zeroed
    beforehand or terminated right after): the first [n] bytes of [src]. *)
Fixpoint strncpy (n : nat) (src : string) : string :=
  match n, src with
  | S n', String c rest => String c (strncpy n' rest)
  | _, _ => ""
  end.

(** [strcmp (a, b) == 0]. *)
Definition strcmp_eq (a b : string) : bool := String.eqb a b.

(** [strncmp (a, b, n) == 0]: the comparison stops after [n] bytes. *)
Definition strncmp_eq (a b : string) (n : nat) : bool :=
  String.eqb (strncpy n a) (strncpy n b).

Definition digit (d : Z) : ascii :=
  Ascii.ascii_of_nat (48 + Z.to_nat d).

(** Decimal digits of a non-negative number, most significant first.  Ten
    digits are enough for a 32-bit [int]. *)
Fixpoint dec_digits (fuel : nat) (n : Z) (acc : string) : string :=
  match fuel with
  | O => acc
  | S fuel' =>
      let acc' := String (digit (n mod 10)) acc in
      if (n / 10 =? 0)%Z then acc' else dec_digits fuel' (n / 10) acc'
  end.

(** The conversion [%d] of [printf]. *)
Definition fmt_d (v : Z) : string :=
  if (v <? 0)%Z then String "-" (dec_digits 10 (- v) "")
  else dec_digits 10 v "".

(** Reading a decimal numeral back, digit by digit. *)
Fixpoint parse_digits (s : string) (acc : Z) : Z :=
  match s with
  | "" => acc
  | String c rest =>
      parse_digits rest (acc * 10 + (Z.of_nat (Ascii.nat_of_ascii c) - 48))
  end.

(** The conversions [%H], [%M], [%S] of [strftime]: two digits. *)
Definition fmt_02 (v : Z) : string :=
  String (digit ((v / 10) mod 10)) (String (digit (v mod 10)) "").


(** ** Layout constants *)

Definition MAX_COMPONENTS : nat := 10.
Definition HTTP_CODE_OK : Z := 200.

(** ** The fetch result shared between the two cores *)

Record ComponentResult := {
  name   : string;   (* char name[48]   *)
  status : string    (* char status[32] *)
}.

(** The global [allOperational] has the same name as the field of the struct;
    the field is [res_allOperational] here. *)
Record FetchResult := {
  valid              : bool;
  statusChanged      : bool;
  res_allOperational : bool;
  worstSeverity      : Z;     (* uint8_t *)
  hasIncidents       : bool;
  componentCount     : nat;
  components         : list ComponentResult;
  statusBarText      : string
}.

Definition set_valid (b : bool) (r : FetchResult) : FetchResult :=
  {| valid := b; statusChanged := statusChanged r;
     res_allOperational := res_allOperational r;
     worstSeverity := worstSeverity r; hasIncidents := hasIncidents r;
     componentCount := componentCount r; components := components r;
     statusBarText := statusBarText r |}.

Definition set_statusChanged (b : bool) (r : FetchResult) : FetchResult :=
  {| valid := valid r; statusChanged := b;
     res_allOperational := res_allOperational r;
     worstSeverity := worstSeverity r; hasIncidents := hasIncidents r;
     componentCount := componentCount r; components := components r;
     statusBarText := statusBarText r |}.

Definition set_allOperational (b : bool) (r : FetchResult) : FetchResult :=
  {| valid := valid r; statusChanged := statusChanged r;
     res_allOperational := b;
     worstSeverity := worstSeverity r; hasIncidents := hasIncidents r;
     componentCount := componentCount r; components := components r;
     statusBarText := statusBarText r |}.

Definition set_worstSeverity (v : Z) (r : FetchResult) : FetchResult :=
  {| valid := valid r; statusChanged := statusChanged r;
     res_allOperational := res_allOperational r;
     worstSeverity := v; hasIncidents := hasIncidents r;
     componentCount := componentCount r; components := components r;
     statusBarText := statusBarText r |}.

Definition set_hasIncidents (b : bool) (r : FetchResult) : FetchResult :=
  {| valid := valid r; statusChanged := statusChanged r;
     res_allOperational := res_allOperational r;
     worstSeverity := worstSeverity r; hasIncidents := b;
     componentCount := componentCount r; components := components r;
     statusBarText := statusBarText r |}.

Definition set_componentCount (n : nat) (r : FetchResult) : FetchResult :=
  {| valid := valid r; statusChanged := statusChanged r;
     res_allOperational := res_allOperational r;
     worstSeverity := worstSeverity r; hasIncidents := hasIncidents r;
     componentCount := n; components := components r;
     statusBarText := statusBarText r |}.

Definition set_components (cs : list ComponentResult) (r : FetchResult) : FetchResult :=
  {| valid := valid r; statusChanged := statusChanged r;
     res_allOperational := res_allOperational r;
     worstSeverity := worstSeverity r; hasIncidents := hasIncidents r;
     componentCount := componentCount r; components := cs;
     statusBarText := statusBarText r |}.

Definition set_statusBarText (s : string) (r : FetchResult) : FetchResult :=
  {| valid := valid r; statusChanged := statusChanged r;
     res_allOperational := res_allOperational r;
     worstSeverity := worstSeverity r; hasIncidents := hasIncidents r;
     componentCount := componentCount r; components := components r;
     statusBarText := s |}.

Definition zero_component : ComponentResult := {| name := ""; status := "" |}.

(** [prevStatus[i]] and [res.components[i]]; both arrays have
    [MAX_COMPONENTS] slots and the sketch never indexes past them. *)
Definition prev_at (prevStatus : list string) (i : nat) : string :=
  default "" (prevStatus !! i).

Definition component_at (r : FetchResult) (i : nat) : ComponentResult :=
  default zero_component (components r !! i).

(** ** What one poll cycle receives *)

(** One object of the [components] array of the feed; [name] and [status]
    are taken to be present, as the two [strncpy] of the loop need them. *)
Record FeedEntry := {
  json_name             : string;
  json_status           : string;
  only_show_if_degraded : bool
}.

(** The outcome of [http.GET ()] followed by [deserializeJson]: [body] is
    [None] when the payload does not parse. *)
Record HttpReply (A : Type) := {
  httpCode : Z;
  body     : option A
}.
Arguments httpCode {A} _.
Arguments body {A} _.

Record tm := { tm_hour : Z; tm_min : Z; tm_sec : Z }.

Record PollInput := {
  wifiConnected   : bool;                        (* WiFi.status () == WL_CONNECTED *)
  componentsReply : HttpReply (list FeedEntry);  (* GET API_URL *)
  localTime       : option tm;                   (* getLocalTime (&ti, 1000) *)
  incidentsReply  : HttpReply nat;               (* GET INCIDENTS_URL, incidents.size () *)
  publishLock     : bool                         (* xSemaphoreTake (fetchMutex, ...) *)
}.

(** ** fetchTaskFunc: building the result *)

(** [memset (&res, 0, sizeof (res))] followed by the five initialisations. *)
Definition fresh_result : FetchResult :=
  {| valid := false; statusChanged := false; res_allOperational := true;
     worstSeverity := 0; hasIncidents := false; componentCount := 0;
     components := replicate MAX_COMPONENTS zero_component;
     statusBarText := "" |}.

(** The severity ladder of the component loop. *)
Definition classify (st : string) (res : FetchResult) : FetchResult :=
  if strcmp_eq st "major_outage" then
    set_worstSeverity 2 (set_allOperational false res)
  else if strcmp_eq st "degraded_performance" || strcmp_eq st "partial_outage" then
    let res := set_allOperational false res in
    if (worstSeverity res <? 1)%Z then set_worstSeverity 1 res else res
  else if negb (strcmp_eq st "operational") then
    set_allOperational false res
  else res.

(** The two [strncpy] into the zeroed slot [res.components[idx]]. *)
Definition copy_component (comp : FeedEntry) : ComponentResult :=
  {| name := strncpy 47 (json_name comp);
     status := strncpy 31 (json_status comp) |}.

(** The body of the component loop for an entry that passed both filters. *)
Definition record_component (prevStatus : list string) (idx : nat)
    (comp : FeedEntry) (res : FetchResult) : FetchResult :=
  let res := set_components (<[idx := copy_component comp]> (components res)) res in
  let res :=
    if negb (strcmp_eq (prev_at prevStatus idx) (json_status comp))
    then set_statusChanged true res else res in
  classify (json_status comp) res.

(** The two [continue] filters. *)
Definition skipped (comp : FeedEntry) : bool :=
  only_show_if_degraded comp || strncmp_eq (json_name comp) "Visit" 5.

(** [for (JsonObject comp : components)], with its [break] and [continue]. *)
Fixpoint fetch_loop (prevStatus : list string) (feed : list FeedEntry)
    (idx : nat) (res : FetchResult) : nat * FetchResult :=
  match feed with
  | [] => (idx, res)
  | comp :: rest =>
      if (MAX_COMPONENTS <=? idx)%nat then (idx, res)
      else if skipped comp then fetch_loop prevStatus rest idx res
      else fetch_loop prevStatus rest (S idx)
             (record_component prevStatus idx comp res)
  end.

Definition strftime_updated (ti : tm) : string :=
  "Updated: " ++ fmt_02 (tm_hour ti) ++ ":" ++ fmt_02 (tm_min ti)
              ++ ":" ++ fmt_02 (tm_sec ti).

Definition snprintf_http_error (code : Z) : string :=
  strncpy 47 ("HTTP error: " ++ fmt_d code).

(** The block "Fetch components". *)
Definition fetch_components (prevStatus : list string)
    (reply : HttpReply (list FeedEntry)) (now : option tm)
    (res : FetchResult) : FetchResult :=
  if (httpCode reply =? HTTP_CODE_OK)%Z then
    match body reply with
    | Some feed =>
        let '(idx, res) := fetch_loop prevStatus feed 0 res in
        let res := set_valid true (set_componentCount idx res) in
        match now with
        | Some ti => set_statusBarText (strftime_updated ti) res
        | None => set_statusBarText (strncpy 48 "Updated") res
        end
    | None => set_statusBarText (strncpy 48 "JSON parse error") res
    end
  else set_statusBarText (snprintf_http_error (httpCode reply)) res.

(** The block "Fetch unresolved incidents". *)
Definition fetch_incidents (reply : HttpReply nat) (res : FetchResult) : FetchResult :=
  if (httpCode reply =? HTTP_CODE_OK)%Z then
    match body reply with
    | Some size => set_hasIncidents (0 <? size)%nat res
    | None => res
    end
  else res.

(** "Factor incidents into severity". *)
Definition factor_incidents (res : FetchResult) : FetchResult :=
  if hasIncidents res && (worstSeverity res <? 1)%Z
  then set_worstSeverity 1 res else res.

(** The local [res] of one cycle with the WiFi link up, as it stands just
    before it is copied into the shared struct. *)
Definition build_result (prevStatus : list string) (inp : PollInput) : FetchResult :=
  factor_incidents
    (fetch_incidents (incidentsReply inp)
       (fetch_components prevStatus (componentsReply inp) (localTime inp)
          fresh_result)).

(** ** The display and the widgets, as a log of the calls made on them *)

Inductive ThemeColor := SECONDARY | ACCENT | DANGER | TEXT_DISABLED.

(** The three [Call_] entries record that the function was entered; the
    others are calls on the display, the status bar, the banner and the
    widgets of one grid cell, but for [AccessOutsideTables], which records
    that the render loop reached a cell past the end of the cell tables:
    C gives no meaning to the execution from there on. *)
Inductive Event :=
| Call_matrixStartScreensaver
| Call_matrixStopScreensaver
| Call_matrixDrawFrame
| AccessOutsideTables
| FillScreen
| ClearScreen
| DrawAll
| DrawGridLines
| SetRightText (text : string)
| SetBanner (text : string) (bg : ThemeColor)
| SetWidget (i : nat) (label : string) (text : string) (color : ThemeColor)
            (icon : string)
| PushSprite (x : Z).

Definition is_stop (e : Event) : bool :=
  match e with Call_matrixStopScreensaver => true | _ => false end.

Definition is_frame (e : Event) : bool :=
  match e with Call_matrixDrawFrame => true | _ => false end.

Definition is_fault (e : Event) : bool :=
  match e with AccessOutsideTables => true | _ => false end.

Definition statusColor (s : string) : ThemeColor :=
  if strcmp_eq s "operational" then SECONDARY
  else if strcmp_eq s "degraded_performance" then ACCENT
  else if strcmp_eq s "partial_outage" then ACCENT
  else if strcmp_eq s "major_outage" then DANGER
  else TEXT_DISABLED.

Definition statusDisplayText (s : string) : string :=
  if strcmp_eq s "operational" then "Operational"
  else if strcmp_eq s "degraded_performance" then "Degraded Performance"
  else if strcmp_eq s "partial_outage" then "Partial Outage"
  else if strcmp_eq s "major_outage" then "Major Outage"
  else "Unknown".

Definition statusIconChar (s : string) : string :=
  if strcmp_eq s "operational" then ""
  else if strcmp_eq s "degraded_performance" then "!"
  else if strcmp_eq s "partial_outage" then "!"
  else if strcmp_eq s "major_outage" then "X"
  else "?".

(** ** Matrix rain data *)

Definition MATRIX_CHAR_W : Z := 22.
Definition MATRIX_CHAR_H : Z := 30.
Definition MATRIX_MAX_COLS : nat := 59.   (* 1280 / MATRIX_CHAR_W + 1 *)
Definition MATRIX_ROWS_MAX : nat := 26.   (* 720 / MATRIX_CHAR_H + 2 *)

(** The field [length] of the struct is [col_length] here. *)
Record MatrixColumn := {
  headY      : Z;     (* int16_t *)
  speed      : Z;     (* int16_t *)
  col_length : Z;     (* int16_t *)
  active     : bool;
  spawnDelay : Z      (* uint8_t *)
}.

Definition zero_column : MatrixColumn :=
  {| headY := 0; speed := 0; col_length := 0; active := false; spawnDelay := 0 |}.

(** Conversions to the fixed-width types of the sketch. *)
Definition to_int16 (v : Z) : Z := ((v + 32768) mod 65536 - 32768)%Z.
Definition to_uint8 (v : Z) : Z := (v mod 256)%Z.
Definition to_uint16 (v : Z) : Z := (v mod 65536)%Z.
Definition to_uint32 (v : Z) : Z := (v mod 4294967296)%Z.

(** ** What the sketch takes from its surroundings

    [millis_at k] is what the [k]-th call of [millis ()] returns and
    [entropy_at k] what the [k]-th call of the random source draws; the
    state keeps the two counters.  [matrixTrailColor] computes a brightness
    in floating point; the RGB565 value [color565] makes of it is
    [trail565 severity distFromHead length].  [MGLYPH_COUNT] comes from
    [matrix_glyphs.h]. *)
Record Env := {
  screenW      : Z;
  screenH      : Z;
  MGLYPH_COUNT : Z;
  trail565     : Z -> Z -> Z -> Z;
  millis_at    : nat -> Z;
  entropy_at   : nat -> Z
}.

(** ** Globals of the sketch *)

Record State := {
  lastTouchTime          : Z;     (* unsigned long *)
  lastFrameTime          : Z;     (* unsigned long *)
  screensaverActive      : bool;
  allOperational         : bool;
  hasUnresolvedIncidents : bool;
  cachedStatusText       : string;
  fetchResult            : FetchResult;
  newDataReady           : bool;
  matrixSeverity         : Z;     (* uint8_t *)
  prevStatus             : list string;
  matrixCols             : list MatrixColumn;
  colSprite              : bool;  (* colSprite != nullptr *)
  matrixGlyphIdx         : list (list Z);
  matrixColors           : list (list Z);
  clk                    : nat;   (* calls of millis () so far *)
  rnd                    : nat;   (* draws of the random source so far *)
  screen                 : list Event   (* calls on the display, oldest first *)
}.

Definition set_lastTouchTime (v : Z) (s : State) : State :=
  {| lastTouchTime := v; lastFrameTime := lastFrameTime s;
     screensaverActive := screensaverActive s; allOperational := allOperational s;
     hasUnresolvedIncidents := hasUnresolvedIncidents s;
     cachedStatusText := cachedStatusText s; fetchResult := fetchResult s;
     newDataReady := newDataReady s; matrixSeverity := matrixSeverity s;
     prevStatus := prevStatus s; matrixCols := matrixCols s;
     colSprite := colSprite s; matrixGlyphIdx := matrixGlyphIdx s;
     matrixColors := matrixColors s; clk := clk s; rnd := rnd s;
     screen := screen s |}.

Definition set_lastFrameTime (v : Z) (s : State) : State :=
  {| lastTouchTime := lastTouchTime s; lastFrameTime := v;
     screensaverActive := screensaverActive s; allOperational := allOperational s;
     hasUnresolvedIncidents := hasUnresolvedIncidents s;
     cachedStatusText := cachedStatusText s; fetchResult := fetchResult s;
     newDataReady := newDataReady s; matrixSeverity := matrixSeverity s;
     prevStatus := prevStatus s; matrixCols := matrixCols s;
     colSprite := colSprite s; matrixGlyphIdx := matrixGlyphIdx s;
     matrixColors := matrixColors s; clk := clk s; rnd := rnd s;
     screen := screen s |}.

Definition set_screensaverActive (v : bool) (s : State) : State :=
  {| lastTouchTime := lastTouchTime s; lastFrameTime := lastFrameTime s;
     screensaverActive := v; allOperational := allOperational s;
     hasUnresolvedIncidents := hasUnresolvedIncidents s;
     cachedStatusText := cachedStatusText s; fetchResult := fetchResult s;
     newDataReady := newDataReady s; matrixSeverity := matrixSeverity s;
     prevStatus := prevStatus s; matrixCols := matrixCols s;
     colSprite := colSprite s; matrixGlyphIdx := matrixGlyphIdx s;
     matrixColors := matrixColors s; clk := clk s; rnd := rnd s;
     screen := screen s |}.

(** The three assignments under "Update global state". *)
Definition set_health (allOp inc : bool) (sev : Z) (s : State) : State :=
  {| lastTouchTime := lastTouchTime s; lastFrameTime := lastFrameTime s;
     screensaverActive := screensaverActive s; allOperational := allOp;
     hasUnresolvedIncidents := inc;
     cachedStatusText := cachedStatusText s; fetchResult := fetchResult s;
     newDataReady := newDataReady s; matrixSeverity := sev;
     prevStatus := prevStatus s; matrixCols := matrixCols s;
     colSprite := colSprite s; matrixGlyphIdx := matrixGlyphIdx s;
     matrixColors := matrixColors s; clk := clk s; rnd := rnd s;
     screen := screen s |}.

Definition set_cachedStatusText (v : string) (s : State) : State :=
  {| lastTouchTime := lastTouchTime s; lastFrameTime := lastFrameTime s;
     screensaverActive := screensaverActive s; allOperational := allOperational s;
     hasUnresolvedIncidents := hasUnresolvedIncidents s;
     cachedStatusText := v; fetchResult := fetchResult s;
     newDataReady := newDataReady s; matrixSeverity := matrixSeverity s;
     prevStatus := prevStatus s; matrixCols := matrixCols s;
     colSprite := colSprite s; matrixGlyphIdx := matrixGlyphIdx s;
     matrixColors := matrixColors s; clk := clk s; rnd := rnd s;
     screen := screen s |}.

(** The shared struct and its flag, written together under the mutex. *)
Definition set_channel (r : FetchResult) (flag : bool) (s : State) : State :=
  {| lastTouchTime := lastTouchTime s; lastFrameTime := lastFrameTime s;
     screensaverActive := screensaverActive s; allOperational := allOperational s;
     hasUnresolvedIncidents := hasUnresolvedIncidents s;
     cachedStatusText := cachedStatusText s; fetchResult := r;
     newDataReady := flag; matrixSeverity := matrixSeverity s;
     prevStatus := prevStatus s; matrixCols := matrixCols s;
     colSprite := colSprite s; matrixGlyphIdx := matrixGlyphIdx s;
     matrixColors := matrixColors s; clk := clk s; rnd := rnd s;
     screen := screen s |}.

Definition set_prevStatus (v : list string) (s : State) : State :=
  {| lastTouchTime := lastTouchTime s; lastFrameTime := lastFrameTime s;
     screensaverActive := screensaverActive s; allOperational := allOperational s;
     hasUnresolvedIncidents := hasUnresolvedIncidents s;
     cachedStatusText := cachedStatusText s; fetchResult := fetchResult s;
     newDataReady := newDataReady s; matrixSeverity := matrixSeverity s;
     prevStatus := v; matrixCols := matrixCols s;
     colSprite := colSprite s; matrixGlyphIdx := matrixGlyphIdx s;
     matrixColors := matrixColors s; clk := clk s; rnd := rnd s;
     screen := screen s |}.

Definition set_colSprite (v : bool) (s : State) : State :=
  {| lastTouchTime := lastTouchTime s; lastFrameTime := lastFrameTime s;
     screensaverActive := screensaverActive s; allOperational := allOperational s;
     hasUnresolvedIncidents := hasUnresolvedIncidents s;
     cachedStatusText := cachedStatusText s; fetchResult := fetchResult s;
     newDataReady := newDataReady s; matrixSeverity := matrixSeverity s;
     prevStatus := prevStatus s; matrixCols := matrixCols s;
     colSprite := v; matrixGlyphIdx := matrixGlyphIdx s;
     matrixColors := matrixColors s; clk := clk s; rnd := rnd s;
     screen := screen s |}.

(** The three arrays of the animation, and the random draws used on them. *)
Definition set_matrix (cols : list MatrixColumn) (glyphs colors : list (list Z))
    (draws : nat) (s : State) : State :=
  {| lastTouchTime := lastTouchTime s; lastFrameTime := lastFrameTime s;
     screensaverActive := screensaverActive s; allOperational := allOperational s;
     hasUnresolvedIncidents := hasUnresolvedIncidents s;
     cachedStatusText := cachedStatusText s; fetchResult := fetchResult s;
     newDataReady := newDataReady s; matrixSeverity := matrixSeverity s;
     prevStatus := prevStatus s; matrixCols := cols;
     colSprite := colSprite s; matrixGlyphIdx := glyphs;
     matrixColors := colors; clk := clk s; rnd := draws;
     screen := screen s |}.

Definition set_clk (v : nat) (s : State) : State :=
  {| lastTouchTime := lastTouchTime s; lastFrameTime := lastFrameTime s;
     screensaverActive := screensaverActive s; allOperational := allOperational s;
     hasUnresolvedIncidents := hasUnresolvedIncidents s;
     cachedStatusText := cachedStatusText s; fetchResult := fetchResult s;
     newDataReady := newDataReady s; matrixSeverity := matrixSeverity s;
     prevStatus := prevStatus s; matrixCols := matrixCols s;
     colSprite := colSprite s; matrixGlyphIdx := matrixGlyphIdx s;
     matrixColors := matrixColors s; clk := v; rnd := rnd s;
     screen := screen s |}.

Definition emit (evs : list Event) (s : State) : State :=
  {| lastTouchTime := lastTouchTime s; lastFrameTime := lastFrameTime s;
     screensaverActive := screensaverActive s; allOperational := allOperational s;
     hasUnresolvedIncidents := hasUnresolvedIncidents s;
     cachedStatusText := cachedStatusText s; fetchResult := fetchResult s;
     newDataReady := newDataReady s; matrixSeverity := matrixSeverity s;
     prevStatus := prevStatus s; matrixCols := matrixCols s;
     colSprite := colSprite s; matrixGlyphIdx := matrixGlyphIdx s;
     matrixColors := matrixColors s; clk := clk s; rnd := rnd s;
     screen := screen s ++ evs |}.

(** [millis ()]: the next reading of the 32-bit tick counter. *)
Definition millis (env : Env) (s : State) : Z * State :=
  (to_uint32 (millis_at env (clk s)), set_clk (S (clk s)) s).

(** ** fetchTaskFunc: one cycle on the shared state *)

(** The copy under "Write result to shared struct under mutex". *)
Definition publish (res : FetchResult) (s : State) : State :=
  set_channel res true s.

(** The branch taken when the WiFi link is down: two fields of the shared
    struct are written in place. *)
Definition publish_wifi_error (s : State) : State :=
  set_channel
    (set_statusBarText (strncpy 48 "WiFi disconnected")
       (set_valid false (fetchResult s)))
    true s.

(** One turn of the [for (;;)] of the task, after its delay. *)
Definition fetchTask_cycle (inp : PollInput) (s : State) : State :=
  if negb (wifiConnected inp) then
    if publishLock inp then publish_wifi_error s else s
  else
    let res := build_result (prevStatus s) inp in
    if publishLock inp then publish res s else s.

(** ** Screensaver exit and the status banner *)

(** The text and the colour [updateStatusBanner] gives the banner. *)
Definition banner_of (s : State) : Event :=
  if allOperational s && negb (hasUnresolvedIncidents s) then
    SetBanner "All Systems Operational" SECONDARY
  else if (2 <=? matrixSeverity s)%Z then
    SetBanner "Disruption with some GitHub services" DANGER
  else
    SetBanner "Disruption with some GitHub services" ACCENT.

Definition updateStatusBanner (s : State) : State :=
  emit [banner_of s] s.

Definition matrixStopScreensaver (env : Env) (s : State) : State :=
  let s := emit [Call_matrixStopScreensaver] s in
  let s := set_screensaverActive false s in
  let s := set_colSprite false s in
  let s := updateStatusBanner s in
  let s := emit [SetRightText (cachedStatusText s);
                 ClearScreen; DrawAll; DrawGridLines] s in
  let '(now, s) := millis env s in
  set_lastTouchTime now s.

(** ** applyFetchResults *)

(** One turn of the loop "Update prevStatus and detect changes". *)
Definition compare_slot (res : FetchResult) (acc : list string * bool)
    (i : nat) : list string * bool :=
  let st := status (component_at res i) in
  if negb (strcmp_eq (prev_at (fst acc) i) st)
  then (<[i := strncpy 31 st]> (fst acc), true)
  else acc.

(** The whole loop: the new table and the local [statusChanged]. *)
Definition detect_changes (res : FetchResult) (prev : list string)
    : list string * bool :=
  foldl (compare_slot res) (prev, false) (seq 0 (componentCount res)).

Definition widget_update (res : FetchResult) (i : nat) : Event :=
  let c := component_at res i in
  SetWidget i (name c) (statusDisplayText (status c))
            (statusColor (status c)) (statusIconChar (status c)).

(** What follows the release of the mutex, on the private copy [res]. *)
Definition apply_result (env : Env) (res : FetchResult) (s : State) : State :=
  let s := set_cachedStatusText (strncpy 48 (statusBarText res)) s in
  if negb (valid res) then
    if negb (screensaverActive s)
    then emit [SetRightText (cachedStatusText s); DrawAll; DrawGridLines] s
    else s
  else
    let '(prev, changed) := detect_changes res (prevStatus s) in
    let s := set_prevStatus prev s in
    let incidentChanged := xorb (hasUnresolvedIncidents s) (hasIncidents res) in
    let s := set_health (res_allOperational res) (hasIncidents res)
                        (worstSeverity res) s in
    let s := if (changed || incidentChanged) && screensaverActive s
             then matrixStopScreensaver env s else s in
    if negb (screensaverActive s) then
      let s := emit (map (widget_update res) (seq 0 (componentCount res))) s in
      let s := updateStatusBanner s in
      emit [SetRightText (cachedStatusText s); DrawAll; DrawGridLines] s
    else s.

(** [lock] is the outcome of [xSemaphoreTake (fetchMutex, pdMS_TO_TICKS (50))];
    with the mutex held the shared struct is copied out and the flag cleared.
    [copy_result] is the block "Copy result under mutex": the private copy
    [res] and the state the block leaves, or nothing when the mutex was
    not obtained. *)
Definition copy_result (lock : bool) (s : State) : option (FetchResult * State) :=
  if negb lock then None
  else Some (fetchResult s, set_channel (fetchResult s) false s).

Definition applyFetchResults (env : Env) (lock : bool) (s : State) : State :=
  match copy_result lock s with
  | None => s
  | Some (res, s) => apply_result env res s
  end.

(** ** The random source

    [random (howbig)] yields a value in [0, howbig - 1] and
    [random (howsmall, howbig)] one in [howsmall, howbig - 1]; which one is
    decided by the entropy drawn. *)
Definition random_below (howbig : Z) (entropy : Z) : Z :=
  if (howbig <=? 0)%Z then 0%Z else (entropy mod howbig)%Z.

Definition random_range (howsmall howbig : Z) (entropy : Z) : Z :=
  if (howbig <=? howsmall)%Z then howsmall
  else (howsmall + random_below (howbig - howsmall) entropy)%Z.

Definition randomGlyphIndex (env : Env) (k : nat) : Z :=
  to_uint8 (random_below (MGLYPH_COUNT env) (entropy_at env k)).

(** ** matrixInit and matrixStartScreensaver *)

Definition num_cols (env : Env) : nat :=
  Nat.min (Z.to_nat (Z.quot (screenW env) MATRIX_CHAR_W)) MATRIX_MAX_COLS.

Definition num_rows (env : Env) : nat :=
  Z.to_nat (Z.quot (screenH env) MATRIX_CHAR_H).

(** Fresh values for [headY], [speed] and [length], three draws. *)
Definition spawn_column (env : Env) (head_span : Z) (k : nat) (col : MatrixColumn)
    : MatrixColumn :=
  {| headY := to_int16 (- random_below head_span (entropy_at env k));
     speed := to_int16 (random_range 14 26 (entropy_at env (k + 1)));
     col_length := to_int16 (random_range 8 24 (entropy_at env (k + 2)));
     active := true;
     spawnDelay := spawnDelay col |}.

Definition init_column (env : Env) (k : nat) (col : MatrixColumn)
    : MatrixColumn * nat :=
  let c := spawn_column env (screenH env) k col in
  ({| headY := headY c; speed := speed c; col_length := col_length c;
      active := true; spawnDelay := 0 |}, k + 3).

(** [for (int i = 0; i < numCols && i < MATRIX_MAX_COLS; i++)] over the
    column array: [n] columns are still to be visited. *)
Fixpoint for_columns (f : nat -> MatrixColumn -> MatrixColumn * nat)
    (n : nat) (cols : list MatrixColumn) (k : nat) : list MatrixColumn * nat :=
  match n, cols with
  | S n', col :: rest =>
      let '(col', k') := f k col in
      let '(rest', k'') := for_columns f n' rest k' in
      (col' :: rest', k'')
  | _, _ => (cols, k)
  end.

Definition zero_grid : list (list Z) :=
  replicate MATRIX_MAX_COLS (replicate MATRIX_ROWS_MAX 0%Z).

Definition matrixInit (env : Env) (s : State) : State :=
  let '(cols, k) := for_columns (init_column env) (num_cols env)
                                (matrixCols s) (rnd s) in
  set_matrix cols zero_grid zero_grid k s.

Definition matrixStartScreensaver (env : Env) (s : State) : State :=
  let s := emit [Call_matrixStartScreensaver] s in
  let s := set_screensaverActive true s in
  let s := set_colSprite true s in
  let s := emit [FillScreen] s in
  let s := matrixInit env s in
  let '(now, s) := millis env s in
  set_lastFrameTime now s.

(** ** matrixDrawFrame: column state *)

(** The block [if (!col.active)]: count down, or respawn above the screen. *)
Definition respawn_column (env : Env) (k : nat) (col : MatrixColumn)
    : MatrixColumn * nat :=
  if active col then (col, k)
  else if (0 <? spawnDelay col)%Z then
    ({| headY := headY col; speed := speed col; col_length := col_length col;
        active := active col; spawnDelay := to_uint8 (spawnDelay col - 1) |}, k)
  else (spawn_column env (MATRIX_CHAR_H * 4) k col, k + 3).

(** The block [if (col.active)]: fall, and retire once the tail has left. *)
Definition advance_column (env : Env) (k : nat) (col : MatrixColumn)
    : MatrixColumn * nat :=
  if active col then
    let y := to_int16 (headY col + speed col) in
    if (screenH env <? y - col_length col * MATRIX_CHAR_H)%Z then
      ({| headY := y; speed := speed col; col_length := col_length col;
          active := false;
          spawnDelay := to_uint8 (random_range 5 40 (entropy_at env k)) |},
       k + 1)
    else
      ({| headY := y; speed := speed col; col_length := col_length col;
          active := active col; spawnDelay := spawnDelay col |}, k)
  else (col, k).

(** The body of the loop "Update all column state". *)
Definition update_column (env : Env) (k : nat) (col : MatrixColumn)
    : MatrixColumn * nat :=
  let '(col1, k1) := respawn_column env k col in
  advance_column env k1 col1.

(** ** matrixDrawFrame: cells *)

(** The fade of a cell outside the trail, on its packed RGB565 colour. *)
Definition fade_color (c : Z) : Z :=
  let r := Z.land (Z.shiftr c 11) 31 in
  let g := Z.land (Z.shiftr c 5) 63 in
  let b := Z.land c 31 in
  let r := if (2 <? r)%Z then (r - 2)%Z else 0%Z in
  let g := if (4 <? g)%Z then (g - 4)%Z else 0%Z in
  let b := if (2 <? b)%Z then (b - 2)%Z else 0%Z in
  to_uint16 (Z.lor (Z.lor (Z.shiftl r 11) (Z.shiftl g 5)) b).

Definition distFromHead (col : MatrixColumn) (row : Z) : Z :=
  Z.quot (headY col - to_int16 (row * MATRIX_CHAR_H)) MATRIX_CHAR_H.

(** [col.active && distFromHead >= 0 && distFromHead < col.length]. *)
Definition in_trail (col : MatrixColumn) (row : Z) : bool :=
  active col && (0 <=? distFromHead col row)%Z
             && (distFromHead col row <? col_length col)%Z.

(** The glyph flicker [if (random (n) == 0) glyph = randomGlyphIndex ()]. *)
Definition flicker (env : Env) (n : Z) (k : nat) (glyph : Z) : Z * nat :=
  if (random_below n (entropy_at env k) =? 0)%Z
  then (randomGlyphIndex env (k + 1), k + 2)
  else (glyph, k + 1).

(** One turn of the row loop on the cell [(glyph, color)] of row [row]. *)
Definition render_cell (env : Env) (sev : Z) (col : MatrixColumn) (row : Z)
    (glyph color : Z) (k : nat) : Z * Z * nat :=
  if in_trail col row then
    let d := distFromHead col row in
    if (d =? 0)%Z then (randomGlyphIndex env k, 65535%Z, k + 1)
    else if (d <=? 2)%Z then
      let '(g, k') := flicker env 4 k glyph in
      (g, trail565 env sev d (col_length col), k')
    else
      let '(g, k') := flicker env 8 k glyph in
      (g, trail565 env sev d (col_length col), k')
  else if negb (color =? 0)%Z then (glyph, fade_color color, k)
  else (glyph, color, k).

(** The two cell tables are arrays of [MATRIX_MAX_COLS] rows of
    [MATRIX_ROWS_MAX] cells, one row after the other: the cell
    [[i][row]] is the one at offset [i * MATRIX_ROWS_MAX + row], which for
    [row >= MATRIX_ROWS_MAX] is a cell of a later column and, past the
    last column, lies outside the table. *)
Definition cell_offset (i row : nat) : nat := i * MATRIX_ROWS_MAX + row.

Definition cell_at (table : list (list Z)) (i row : nat) : option Z :=
  let off := cell_offset i row in
  if (off <? MATRIX_MAX_COLS * MATRIX_ROWS_MAX)%nat then
    match table !! (off / MATRIX_ROWS_MAX) with
    | Some cells => cells !! (off mod MATRIX_ROWS_MAX)
    | None => None
    end
  else None.

Definition cell_store (table : list (list Z)) (i row : nat) (v : Z)
    : list (list Z) :=
  let off := cell_offset i row in
  match table !! (off / MATRIX_ROWS_MAX) with
  | Some cells =>
      <[off / MATRIX_ROWS_MAX := <[off mod MATRIX_ROWS_MAX := v]> cells]> table
  | None => table
  end.

(** [for (int row = 0; row < numRows; row++)] down column [i], with [n]
    rows still to visit.  The loop has no test against [MATRIX_ROWS_MAX].
    The last component is [false] when a turn reached a cell outside the
    tables; the frame is abandoned there. *)
Fixpoint render_rows (env : Env) (sev : Z) (col : MatrixColumn) (i : nat)
    (n : nat) (row : nat) (glyphs colors : list (list Z)) (k : nat)
    : list (list Z) * list (list Z) * nat * bool :=
  match n with
  | O => (glyphs, colors, k, true)
  | S n' =>
      match cell_at glyphs i row, cell_at colors i row with
      | Some g, Some c =>
          let '(g1, c1, k1) := render_cell env sev col (Z.of_nat row) g c k in
          render_rows env sev col i n' (S row)
                      (cell_store glyphs i row g1) (cell_store colors i row c1) k1
      | _, _ => (glyphs, colors, k, false)
      end
  end.

(** The loop "Render each column into the strip sprite and push", from
    column [i] on, [cols] being the columns from [i] on; the glyphs drawn
    into the sprite reach the display with [pushSprite]. *)
Fixpoint render_columns (env : Env) (sev : Z) (n : nat) (i : nat)
    (cols : list MatrixColumn) (glyphs colors : list (list Z)) (k : nat)
    : list (list Z) * list (list Z) * nat * list Event :=
  match n, cols with
  | S n', col :: cols' =>
      let '(glyphs1, colors1, k1, ok) :=
        render_rows env sev col i (num_rows env) 0 glyphs colors k in
      if ok then
        let '(gs, cs, k2, evs) :=
          render_columns env sev n' (S i) cols' glyphs1 colors1 k1 in
        (gs, cs, k2, PushSprite (to_int16 (Z.of_nat i * MATRIX_CHAR_W)) :: evs)
      else (glyphs1, colors1, k1, [AccessOutsideTables])
  | _, _ => (glyphs, colors, k, [])
  end.

Definition matrixDrawFrame (env : Env) (s : State) : State :=
  let s := emit [Call_matrixDrawFrame] s in
  if negb (colSprite s) then s else
  let '(cols, k) := for_columns (update_column env) (num_cols env)
                                (matrixCols s) (rnd s) in
  let '(glyphs, colors, k', evs) :=
    render_columns env (matrixSeverity s) (num_cols env) 0 cols
                   (matrixGlyphIdx s) (matrixColors s) k in
  emit evs (set_matrix cols glyphs colors k' s).

(** ** loop *)

Definition SCREENSAVER_TIMEOUT : Z := 300000.
Definition MATRIX_FRAME_MS : Z := 33.

Record LoopInput := {
  touchCount   : Z;      (* display.getTouch (&tp, 1) *)
  screenAsleep : bool;   (* ui.isScreenAsleep () *)
  consumeLock  : bool    (* xSemaphoreTake (fetchMutex, pdMS_TO_TICKS (50)) *)
}.

Definition loop_touch (env : Env) (inp : LoopInput) (s : State) : State :=
  if (0 <? touchCount inp)%Z then
    let '(now, s) := millis env s in
    let s := set_lastTouchTime now s in
    if screensaverActive s then matrixStopScreensaver env s else s
  else s.

Definition loop_apply (env : Env) (inp : LoopInput) (s : State) : State :=
  if newDataReady s then applyFetchResults env (consumeLock inp) s else s.

Definition loop_idle (env : Env) (inp : LoopInput) (s : State) : State :=
  if negb (screensaverActive s) && negb (screenAsleep inp) then
    let '(now, s) := millis env s in
    if (SCREENSAVER_TIMEOUT <=? to_uint32 (now - lastTouchTime s))%Z
    then matrixStartScreensaver env s else s
  else s.

Definition loop_animate (env : Env) (inp : LoopInput) (s : State) : State :=
  if screensaverActive s && negb (screenAsleep inp) then
    let '(now, s) := millis env s in
    if (MATRIX_FRAME_MS <=? to_uint32 (now - lastFrameTime s))%Z then
      let s := matrixDrawFrame env s in
      let '(now', s) := millis env s in
      set_lastFrameTime now' s
    else s
  else s.

(** One pass of [loop ()].  [ui.update ()], which opens the pass, acts on
    the widget library only; what it decides about sleep is read back
    through [screenAsleep]. *)
Definition loop (env : Env) (inp : LoopInput) (s : State) : State :=
  loop_animate env inp (loop_idle env inp (loop_apply env inp (loop_touch env inp s))).

(** ** Notions used to state the properties *)

(** The entries of the feed that pass both filters, cut at the table size. *)
Definition accepted (feed : list FeedEntry) : list FeedEntry :=
  take MAX_COMPONENTS (List.filter (fun c => negb (skipped c)) feed).

(** The component loop on entries that all pass the filters. *)
Fixpoint record_all (prevStatus : list string) (cs : list FeedEntry)
    (idx : nat) (res : FetchResult) : nat * FetchResult :=
  match cs with
  | [] => (idx, res)
  | comp :: rest =>
      record_all prevStatus rest (S idx) (record_component prevStatus idx comp res)
  end.

Definition is_major (s : string) : bool := strcmp_eq s "major_outage".

Definition is_warning (s : string) : bool :=
  strcmp_eq s "degraded_performance" || strcmp_eq s "partial_outage".

Definition is_operational (s : string) : bool := strcmp_eq s "operational".

(** The severity as the specification words it: Critical if any component
    is in major outage, else Warning if any is degraded or in partial outage
    or incidents are unresolved, else None. *)
Definition spec_severity (statuses : list string) (incidents : bool) : Z :=
  if existsb is_major statuses then 2%Z
  else if existsb is_warning statuses || incidents then 1%Z
  else 0%Z.

(** Whether some slot differs from the table, slot [j] of [statuses] being
    compared with entry [idx + j]. *)
Fixpoint differs_from (prev : list string) (idx : nat) (statuses : list string)
    : bool :=
  match statuses with
  | [] => false
  | st :: rest =>
      negb (strcmp_eq (prev_at prev idx) st) || differs_from prev (S idx) rest
  end.

(** The statuses held in the first [componentCount] slots of a result. *)
Definition stored_statuses (res : FetchResult) : list string :=
  map status (take (componentCount res) (components res)).

Definition known_status (s : string) : Prop :=
  s = "operational" \/ s = "degraded_performance" \/
  s = "partial_outage" \/ s = "major_outage".

(** The local [statusChanged] that [applyFetchResults] computes when it
    applies the pending result of [s]. *)
Definition applied_statusChanged (s : State) : bool :=
  snd (detect_changes (fetchResult s) (prevStatus s)).

(** The comparison loop of [applyFetchResults] stopped after [n] turns. *)
Definition detect_upto (res : FetchResult) (prev : list string) (n : nat)
    : list string * bool :=
  foldl (compare_slot res) (prev, false) (seq 0 n).

(** The shape every result built by the task has: a full array, a count
    within it, and statuses that fit their 32-byte field. *)
Definition well_formed_result (res : FetchResult) : Prop :=
  length (components res) = MAX_COMPONENTS /\
  componentCount res <= MAX_COMPONENTS /\
  forall i, String.length (status (component_at res i)) <= 31.

(** Successive passes of [loop], with no cycle of the task in between. *)
Definition loop_passes (env : Env) (inps : list LoopInput) (s : State) : State :=
  foldl (fun st inp => loop env inp st) s inps.

(** Every two readings of the clock taken during the pass of [loop] that
    starts in [s] are less than the idle timeout apart. *)
Definition pass_within_timeout (env : Env) (s : State) : Prop :=
  forall i j, clk s <= i -> i <= j -> j <= clk s + 2 ->
    (to_uint32 (to_uint32 (millis_at env j) - to_uint32 (millis_at env i))
       < SCREENSAVER_TIMEOUT)%Z.

(** The calls logged by a step from [s] to [s']. *)
Definition new_events (s s' : State) : list Event :=
  drop (length (screen s)) (screen s').

Definition count_events (p : Event -> bool) (evs : list Event) : nat :=
  length (List.filter p evs).

(** The log of [s'] continues that of [s]. *)
Definition extends (s s' : State) : Prop :=
  exists evs, screen s' = (screen s ++ evs)%list.

(** The three channels of a packed RGB565 colour. *)
Definition red565 (c : Z) : Z := Z.land (Z.shiftr c 11) 31.
Definition green565 (c : Z) : Z := Z.land (Z.shiftr c 5) 63.
Definition blue565 (c : Z) : Z := Z.land c 31.

(** A table of the declared shape. *)
Definition table_shaped (table : list (list Z)) : Prop :=
  length table = MATRIX_MAX_COLS /\
  Forall (fun cells => length cells = MATRIX_ROWS_MAX) table.

(** The three tables of the animation at their declared sizes. *)
Definition tables_shaped (s : State) : Prop :=
  length (matrixCols s) = MATRIX_MAX_COLS /\
  table_shaped (matrixGlyphIdx s) /\ table_shaped (matrixColors s).

Definition column_at (s : State) (i : nat) : MatrixColumn :=
  default zero_column (matrixCols s !! i).

Definition cell_color (s : State) (i row : nat) : Z :=
  default 0%Z (cell_at (matrixColors s) i row).

Definition cell_glyph (s : State) (i row : nat) : Z :=
  default 0%Z (cell_at (matrixGlyphIdx s) i row).

(** [n] animation ticks: [matrixDrawFrame] called [n] times. *)
Definition frames (env : Env) (n : nat) (s : State) : State :=
  Nat.iter n (matrixDrawFrame env) s.

(** The packing [(r << 11) | (g << 5) | b] of three channels. *)
Definition pack565 (r g b : Z) : Z :=
  Z.lor (Z.lor (Z.shiftl r 11) (Z.shiftl g 5)) b.

(** [n] animation ticks on one column, with the draws they consume. *)
Fixpoint tick_column (env : Env) (n : nat) (k : nat) (col : MatrixColumn)
    : MatrixColumn * nat :=
  match n with
  | O => (col, k)
  | S n' => let '(col', k') := update_column env k col in
            tick_column env n' k' col'
  end.

(** ** Concrete inputs for the examples *)

Definition entry (n st : string) : FeedEntry :=
  {| json_name := n; json_status := st; only_show_if_degraded := false |}.

Definition reply_ok {A : Type} (a : A) : HttpReply A :=
  {| httpCode := 200; body := Some a |}.

(** A cycle with the link up, a parsed feed, [incidents] unresolved
    incidents, the clock at 09:05:59 and the mutex free. *)
Definition poll_of (feed : list FeedEntry) (incidents : nat) : PollInput :=
  {| wifiConnected := true;
     componentsReply := reply_ok feed;
     localTime := Some {| tm_hour := 9; tm_min := 5; tm_sec := 59 |};
     incidentsReply := reply_ok incidents;
     publishLock := true |}.

Definition feed_operational : list FeedEntry :=
  [entry "Git Operations" "operational"; entry "API Requests" "operational"].

Definition feed_outage : list FeedEntry :=
  [entry "Git Operations" "operational"; entry "API Requests" "major_outage"].

Definition feed_maintenance : list FeedEntry :=
  [entry "Git Operations" "operational"; entry "API Requests" "under_maintenance"].

Definition feed_short : list FeedEntry :=
  [entry "Git Operations" "operational"].

(** A status of 40 bytes, longer than the 32-byte field that stores it. *)
Definition feed_overlong : list FeedEntry :=
  [entry "Git Operations" "operational_with_a_note_beyond_the_field"].

(** The globals as the C runtime zeroes or initialises them, with the
    tables at their declared sizes. *)
Definition zero_result : FetchResult :=
  {| valid := false; statusChanged := false; res_allOperational := false;
     worstSeverity := 0; hasIncidents := false; componentCount := 0;
     components := replicate MAX_COMPONENTS zero_component;
     statusBarText := "" |}.

Definition initial_state : State :=
  {| lastTouchTime := 0; lastFrameTime := 0;
     screensaverActive := false; allOperational := true;
     hasUnresolvedIncidents := false; cachedStatusText := "";
     fetchResult := zero_result; newDataReady := false;
     matrixSeverity := 0;
     prevStatus := replicate MAX_COMPONENTS "";
     matrixCols := replicate MATRIX_MAX_COLS zero_column;
     colSprite := false;
     matrixGlyphIdx := zero_grid; matrixColors := zero_grid;
     clk := 0; rnd := 0; screen := [] |}.

(** A 1280 x 720 panel, 64 glyphs, a clock that advances by one
    millisecond per reading, and a fixed entropy sequence. *)
Definition demo_env : Env :=
  {| screenW := 1280; screenH := 720; MGLYPH_COUNT := 64;
     trail565 := fun _ _ _ => 2016%Z;
     millis_at := fun k => Z.of_nat k;
     entropy_at := fun k => Z.of_nat (7 * k) |}.

Definition wifi_down : PollInput :=
  {| wifiConnected := false;
     componentsReply := {| httpCode := 0; body := None |};
     localTime := None;
     incidentsReply := {| httpCode := 0; body := None |};
     publishLock := true |}.

Definition http_failure (code : Z) : PollInput :=
  {| wifiConnected := true;
     componentsReply := {| httpCode := code; body := None |};
     localTime := None;
     incidentsReply := {| httpCode := code; body := None |};
     publishLock := true |}.

Definition no_touch : LoopInput :=
  {| touchCount := 0; screenAsleep := false; consumeLock := true |}.

(** The screensaver running over a table that holds the statuses of
    [feed_operational]. *)
Definition saver_state : State :=
  set_colSprite true
    (set_screensaverActive true
       (set_prevStatus
          (<[0 := "operational"]> (<[1 := "operational"]> (prevStatus initial_state)))
          initial_state)).

(** The screensaver running, with white left in cell [[0][3]]. *)
Definition fading_state : State :=
  set_matrix (matrixCols saver_state) (matrixGlyphIdx saver_state)
             (cell_store (matrixColors saver_state) 0 3 65535) 0 saver_state.

(** ** Further notions *)

(** The poll [inp] with another parsed feed in place of its own. *)
Definition with_feed (inp : PollInput) (feed : list FeedEntry) : PollInput :=
  {| wifiConnected := wifiConnected inp;
     componentsReply := {| httpCode := HTTP_CODE_OK; body := Some feed |};
     localTime := localTime inp;
     incidentsReply := incidentsReply inp;
     publishLock := publishLock inp |}.

(** What the tables of the two cores keep between steps: [prevStatus] has
    its [MAX_COMPONENTS] entries, each within its 32-byte row, and the
    shared result has the shape the task gives it. *)
Definition tables_ok (s : State) : Prop :=
  length (prevStatus s) = MAX_COMPONENTS /\
  Forall (fun p => String.length p <= 31) (prevStatus s) /\
  well_formed_result (fetchResult s).

(** What a column that has been initialised keeps from tick to tick: the
    speed and length ranges of its last spawn, a delay a [uint8_t] holds,
    and a head between the highest spawn point and the point where the
    tail has just left the screen. *)
Definition column_ok (env : Env) (col : MatrixColumn) : Prop :=
  (14 <= speed col <= 25)%Z /\
  (8 <= col_length col <= 23)%Z /\
  (0 <= spawnDelay col <= 39)%Z /\
  (- Z.max (screenH env) 120 < headY col)%Z /\
  (headY col <= screenH env + col_length col * MATRIX_CHAR_H + 25)%Z /\
  (active col = true ->
   headY col <= screenH env + col_length col * MATRIX_CHAR_H)%Z.

(** ** fetchGitHubStatusSync: the first fetch, made by setup *)

(** The body of its component loop for an entry that passed both filters;
    the second component of [acc] is the local [worstSeverity]. *)
Definition sync_record (idx : nat) (comp : FeedEntry) (acc : State * Z)
    : State * Z :=
  let st := json_status comp in
  let s := set_prevStatus (<[idx := strncpy 31 st]> (prevStatus (fst acc)))
                          (fst acc) in
  let s := emit [SetWidget idx (json_name comp) (statusDisplayText st)
                           (statusColor st) (statusIconChar st)] s in
  let cleared := set_health false (hasUnresolvedIncidents s) (matrixSeverity s) s in
  if strcmp_eq st "major_outage" then (cleared, 2%Z)
  else if strcmp_eq st "degraded_performance" || strcmp_eq st "partial_outage" then
    (cleared, if (snd acc <? 1)%Z then 1%Z else snd acc)
  else if negb (strcmp_eq st "operational") then (cleared, snd acc)
  else (s, snd acc).

Fixpoint sync_loop (feed : list FeedEntry) (idx : nat) (acc : State * Z)
    : nat * (State * Z) :=
  match feed with
  | [] => (idx, acc)
  | comp :: rest =>
      if (MAX_COMPONENTS <=? idx)%nat then (idx, acc)
      else if skipped comp then sync_loop rest idx acc
      else sync_loop rest (S idx) (sync_record idx comp acc)
  end.

(** Its block "Fetch components": nothing is done on a failure. *)
Definition sync_components (reply : HttpReply (list FeedEntry))
    (now : option tm) (s : State) : State :=
  if (httpCode reply =? HTTP_CODE_OK)%Z then
    match body reply with
    | Some feed =>
        let out := snd (sync_loop feed 0 (s, 0%Z)) in
        let s := fst out in
        let s := set_health (allOperational s) (hasUnresolvedIncidents s)
                            (snd out) s in
        let s := set_cachedStatusText
                   (match now with
                    | Some ti => strftime_updated ti
                    | None => strncpy 48 "Updated"
                    end) s in
        emit [SetRightText (cachedStatusText s)] s
    | None => s
    end
  else s.

(** Its block "Fetch incidents". *)
Definition sync_incidents (reply : HttpReply nat) (s : State) : State :=
  if (httpCode reply =? HTTP_CODE_OK)%Z then
    match body reply with
    | Some size =>
        set_health (allOperational s) (0 <? size)%nat (matrixSeverity s) s
    | None => s
    end
  else s.

Definition fetchGitHubStatusSync (inp : PollInput) (s : State) : State :=
  if negb (wifiConnected inp) then
    emit [SetRightText "WiFi disconnected"; DrawAll; DrawGridLines] s
  else
    let s := sync_components (componentsReply inp) (localTime inp) s in
    let s := sync_incidents (incidentsReply inp) s in
    let s := if hasUnresolvedIncidents s && (matrixSeverity s <? 1)%Z
             then set_health (allOperational s) (hasUnresolvedIncidents s) 1%Z s
             else s in
    let s := updateStatusBanner s in
    emit [DrawAll; DrawGridLines] s.

(** The loop of [fetchGitHubStatusSync] on entries that all pass the
    filters. *)
Fixpoint sync_all (cs : list FeedEntry) (idx : nat) (acc : State * Z)
    : nat * (State * Z) :=
  match cs with
  | [] => (idx, acc)
  | comp :: rest => sync_all rest (S idx) (sync_record idx comp acc)
  end.

(** ** drawGlyph

    The glyph table and its dimensions come from [matrix_glyphs.h]:
    [glyph_byte idx off] is [pgm_read_byte (&matrixGlyphs[idx][off])]. *)
Record GlyphTable := {
  MGLYPH_W             : Z;
  MGLYPH_H             : Z;
  MGLYPH_BYTES_PER_ROW : Z;
  glyph_byte           : Z -> Z -> Z
}.

(** [((uint16_t) b0 << 8) | b1] for row [gy] of glyph [idx]. *)
Definition glyph_row_bits (tbl : GlyphTable) (idx gy : Z) : Z :=
  let b0 := to_uint8 (glyph_byte tbl idx (gy * MGLYPH_BYTES_PER_ROW tbl)) in
  let b1 := to_uint8 (glyph_byte tbl idx (gy * MGLYPH_BYTES_PER_ROW tbl + 1)) in
  to_uint16 (Z.lor (Z.shiftl b0 8) b1).

(** The values [0 .. n - 1] of a [for] counter. *)
Definition counter (n : Z) : list Z := map Z.of_nat (seq 0 (Z.to_nat n)).

(** The pixels [drawGlyph] sets, in order, as [(x, y, color)]. *)
Definition drawGlyph (env : Env) (tbl : GlyphTable) (dx dy idx color : Z)
    : list (Z * Z * Z) :=
  if (MGLYPH_COUNT env <=? idx)%Z then [] else
  let offX := to_int16 (Z.quot (MATRIX_CHAR_W - MGLYPH_W tbl) 2) in
  let offY := to_int16 (Z.quot (MATRIX_CHAR_H - MGLYPH_H tbl) 2) in
  flat_map
    (fun gy =>
       let rowBits := glyph_row_bits tbl idx gy in
       if (rowBits =? 0)%Z then [] else
       flat_map
         (fun gx =>
            if negb (Z.land rowBits (Z.shiftr 32768 gx) =? 0)%Z
            then [((dx + offX + gx)%Z, (dy + offY + gy)%Z, color)]
            else [])
         (counter (MGLYPH_W tbl)))
    (counter (MGLYPH_H tbl)).

(** A table of 16 x 24 glyphs, two bytes a row, every row [0xA5 0x01]. *)
Definition demo_glyphs : GlyphTable :=
  {| MGLYPH_W := 16; MGLYPH_H := 24; MGLYPH_BYTES_PER_ROW := 2;
     glyph_byte := fun _ off => if Z.even off then 165%Z else 1%Z |}.

(** A feed of eleven components, the last one in major outage. *)
Definition feed_eleven : list FeedEntry :=
  (replicate 10 (entry "Component" "operational")
     ++ [entry "Eleventh" "major_outage"])%list.

(** A column about to leave a 720-pixel screen. *)
Definition falling_column : MatrixColumn :=
  {| headY := 35; speed := 20; col_length := 8; active := true; spawnDelay := 0 |}.

(** An environment whose clock has passed the 32-bit wrap: the counter
    reads [4295167296 - 2^32 = 200000]. *)
Definition wrapped_env : Env :=
  {| screenW := 1280; screenH := 720; MGLYPH_COUNT := 64;
     trail565 := fun _ _ _ => 2016%Z;
     millis_at := fun _ => 4295167296%Z;
     entropy_at := fun k => Z.of_nat k |}.

(** Two panels 900 pixels high, one column and fifty-nine columns wide. *)
Definition tall_env : Env :=
  {| screenW := 22; screenH := 900; MGLYPH_COUNT := 64;
     trail565 := fun _ _ _ => 2016%Z;
     millis_at := fun k => Z.of_nat k;
     entropy_at := fun k => Z.of_nat (7 * k) |}.

Definition tall_wide_env : Env :=
  {| screenW := 1298; screenH := 900; MGLYPH_COUNT := 64;
     trail565 := fun _ _ _ => 2016%Z;
     millis_at := fun k => Z.of_nat k;
     entropy_at := fun k => Z.of_nat (7 * k) |}.

(** The screensaver running, with white left in the first cell of
    column 1. *)
Definition tall_state : State :=
  set_matrix (matrixCols saver_state) (matrixGlyphIdx saver_state)
             (cell_store (matrixColors saver_state) 1 0 65535) 0 saver_state.

(** ** setup: the grid of component cells

    [TAB5_TITLE_H] and [TAB5_STATUS_H] come from the widget library. *)
Definition GRID_COLS : Z := 2.
Definition GRID_ROWS : Z := 5.
Definition BANNER_H : Z := 36.

Record UiMetrics := {
  TAB5_TITLE_H  : Z;
  TAB5_STATUS_H : Z
}.

(** The five [int16_t] globals of the block "Grid geometry". *)
Record Grid := {
  contentTop    : Z;
  contentBottom : Z;
  contentH      : Z;
  colW          : Z;
  rowH          : Z
}.

Definition setup_grid (env : Env) (ui : UiMetrics) : Grid :=
  let top := to_int16 (TAB5_TITLE_H ui + BANNER_H) in
  let bottom := to_int16 (screenH env - TAB5_STATUS_H ui) in
  let h := to_int16 (bottom - top) in
  {| contentTop := top; contentBottom := bottom; contentH := h;
     colW := to_int16 (Z.quot (screenW env) GRID_COLS);
     rowH := to_int16 (Z.quot h GRID_ROWS) |}.

(** The corner of the cell of component [i]. *)
Definition cellX (g : Grid) (i : Z) : Z :=
  to_int16 (Z.rem i GRID_COLS * colW g).

Definition cellY (g : Grid) (i : Z) : Z :=
  to_int16 (contentTop g + Z.quot i GRID_COLS * rowH g).

Definition pad : Z := 24.
Definition iconR : Z := 18.

(** The [(x, y, w, h)] given to the two labels of component [i]. *)
Definition nameLabel_rect (g : Grid) (i : Z) : Z * Z * Z * Z :=
  (to_int16 (cellX g i + pad),
   to_int16 (cellY g i + Z.quot (rowH g) 2 - 28),
   to_int16 (colW g - pad * 2 - iconR * 3),
   32%Z).

Definition statusLabel_rect (g : Grid) (i : Z) : Z * Z * Z * Z :=
  (to_int16 (cellX g i + pad),
   to_int16 (cellY g i + Z.quot (rowH g) 2 + 8),
   to_int16 (colW g - pad * 2 - iconR * 3),
   28%Z).

(** The lines [drawGridLines] draws: [(x, y, length)]. *)
Inductive Line :=
  | HLine (x y w : Z)
  | VLine (x y h : Z).

Definition drawGridLines (env : Env) (g : Grid) : list Line :=
  (map (fun row => HLine 0 (to_int16 (contentTop g + row * rowH g)) (screenW env))
       (map (fun k => (1 + Z.of_nat k)%Z) (seq 0 (Z.to_nat (GRID_ROWS - 1))))
     ++ [VLine (colW g) (contentTop g) (contentH g)])%list.

(** The metrics of a 48-pixel title bar and a 36-pixel status bar. *)
Definition demo_ui : UiMetrics := {| TAB5_TITLE_H := 48; TAB5_STATUS_H := 36 |}.

(** * Facts *)

(** ** C strings *)

Lemma strncpy_length n s : String.length (strncpy n s) <= n.
Proof.
  revert s; induction n as [|n IH]; intros [|c s]; simpl; try lia.
  specialize (IH s); lia.
Qed.

Lemma strncpy_short n s : String.length s <= n -> strncpy n s = s.
Proof.
  revert s; induction n as [|n IH]; intros [|c s]; simpl; intros H;
    try reflexivity; try lia.
  rewrite IH by lia; reflexivity.
Qed.

Lemma strncpy_idem n s : strncpy n (strncpy n s) = strncpy n s.
Proof. apply strncpy_short, strncpy_length. Qed.

Lemma strncpy_long n s : n < String.length s -> String.length (strncpy n s) = n.
Proof.
  revert s; induction n as [|n IH]; intros [|c s]; simpl; intros H;
    try reflexivity; try lia.
  rewrite IH by lia; reflexivity.
Qed.

(** A literal that fits the buffer is recognised after the copy exactly
    when it was there before. *)
Lemma strncpy_eq_literal n s lit :
  String.length lit < n -> (strncpy n s = lit <-> s = lit).
Proof.
  intros Hlit; split; intros H.
  - destruct (Nat.le_gt_cases (String.length s) n) as [Hs|Hs].
    + rewrite strncpy_short in H by exact Hs; exact H.
    + apply strncpy_long in Hs. rewrite H in Hs. lia.
  - subst s. apply strncpy_short. lia.
Qed.

Lemma strcmp_eq_true a b : strcmp_eq a b = true <-> a = b.
Proof. apply String.eqb_eq. Qed.

Lemma strcmp_eq_false a b : strcmp_eq a b = false <-> a <> b.
Proof. apply String.eqb_neq. Qed.

Lemma strcmp_eq_refl a : strcmp_eq a a = true.
Proof. apply String.eqb_refl. Qed.


Lemma strncpy_eqb_literal n s lit :
  String.length lit < n -> strcmp_eq (strncpy n s) lit = strcmp_eq s lit.
Proof.
  intros Hlit. apply eq_true_iff_eq.
  rewrite !strcmp_eq_true. apply strncpy_eq_literal, Hlit.
Qed.

Lemma dec_digits_length fuel n acc :
  String.length (dec_digits fuel n acc) <= fuel + String.length acc.
Proof.
  revert n acc; induction fuel as [|fuel IH]; intros n acc; simpl; [lia|].
  destruct (n / 10 =? 0)%Z; simpl; [lia|].
  specialize (IH (n / 10)%Z (String (digit (n mod 10)) acc)). simpl in IH. lia.
Qed.

Lemma fmt_d_length v : String.length (fmt_d v) <= 11.
Proof.
  unfold fmt_d. destruct (v <? 0)%Z; simpl.
  - pose proof (dec_digits_length 10 (- v) ""). simpl in *. lia.
  - pose proof (dec_digits_length 10 v ""). simpl in *. lia.
Qed.

Lemma string_app_length a b :
  String.length (a ++ b) = String.length a + String.length b.
Proof. induction a as [|c a IH]; simpl; [reflexivity|]. rewrite IH; reflexivity. Qed.

(** The 48-byte buffer never cuts the HTTP error line. *)
Lemma snprintf_http_error_full code :
  snprintf_http_error code = "HTTP error: " ++ fmt_d code.
Proof.
  unfold snprintf_http_error. apply strncpy_short.
  rewrite string_app_length. pose proof (fmt_d_length code). simpl. lia.
Qed.

Lemma parse_digit d acc : (0 <= d <= 9)%Z ->
  (acc * 10 + (Z.of_nat (Ascii.nat_of_ascii (digit d)) - 48) = acc * 10 + d)%Z.
Proof.
  intros Hd. unfold digit.
  rewrite Ascii.nat_ascii_embedding by lia. lia.
Qed.

Lemma parse_dec_digits fuel : forall n acc a,
  (0 <= n < 10 ^ Z.of_nat fuel)%Z ->
  exists k, (0 <= k)%Z /\
            parse_digits (dec_digits fuel n acc) a
            = parse_digits acc (a * 10 ^ k + n)%Z.
Proof.
  induction fuel as [|fuel IH]; intros n acc a Hn.
  - exists 0%Z. split; [lia|]. cbn [dec_digits]. f_equal.
    change (10 ^ Z.of_nat 0)%Z with 1%Z in Hn. lia.
  - cbn [dec_digits].
    assert (Hd : (0 <= n mod 10 <= 9)%Z)
      by (pose proof (Z.mod_pos_bound n 10 eq_refl); lia).
    pose proof (Z.div_mod n 10 ltac:(lia)) as Hdm.
    destruct (Z.eqb_spec (n / 10) 0) as [Hz|Hnz].
    + exists 1%Z. split; [lia|]. cbn [parse_digits].
      rewrite parse_digit by exact Hd. f_equal. rewrite Z.pow_1_r. lia.
    + assert (Hq : (0 <= n / 10 < 10 ^ Z.of_nat fuel)%Z).
      { rewrite Nat2Z.inj_succ, Z.pow_succ_r in Hn by lia.
        split; [apply Z.div_pos; lia|].
        apply Z.div_lt_upper_bound; lia. }
      destruct (IH (n / 10)%Z (String (digit (n mod 10)) acc) a Hq)
        as (k & Hk0 & Hk).
      exists (k + 1)%Z. split; [lia|]. rewrite Hk. cbn [parse_digits].
      rewrite parse_digit by exact Hd. f_equal.
      rewrite Z.pow_add_r, Z.pow_1_r by lia. lia.
Qed.

(** [fmt_d] writes the decimal numeral of any 32-bit [int]: an optional
    minus sign, then digits that read back as the magnitude. *)
Lemma fmt_d_numeral v :
  (- 2 ^ 31 <= v < 2 ^ 31)%Z ->
  (0 <= v -> parse_digits (fmt_d v) 0 = v)%Z /\
  (v < 0 -> exists ds, fmt_d v = String "-" ds /\ parse_digits ds 0 = (- v))%Z.
Proof.
  intros Hv. unfold fmt_d. split; intros Hs.
  - destruct (Z.ltb_spec v 0); [lia|].
    destruct (parse_dec_digits 10 v "" 0) as (k & _ & Hk); [simpl; lia|].
    rewrite Hk. cbn [parse_digits]. lia.
  - destruct (Z.ltb_spec v 0); [|lia].
    eexists. split; [reflexivity|].
    destruct (parse_dec_digits 10 (- v) "" 0) as (k & _ & Hk); [simpl; lia|].
    rewrite Hk. cbn [parse_digits]. lia.
Qed.

(** ** fetchTaskFunc: the component loop *)

Lemma fetch_loop_record_all prev feed idx res :
  fetch_loop prev feed idx res =
  record_all prev
    (take (MAX_COMPONENTS - idx) (List.filter (fun c => negb (skipped c)) feed))
    idx res.
Proof.
  revert idx res; induction feed as [|comp rest IH]; intros idx res;
    cbn [fetch_loop List.filter].
  - rewrite take_nil; reflexivity.
  - destruct (Nat.leb_spec MAX_COMPONENTS idx) as [Hfull|Hroom].
    + replace (MAX_COMPONENTS - idx) with 0 by lia. reflexivity.
    + destruct (skipped comp); cbn [negb].
      * apply IH.
      * rewrite IH.
        replace (MAX_COMPONENTS - idx) with (S (MAX_COMPONENTS - S idx)) by lia.
        reflexivity.
Qed.

Lemma classify_worstSeverity st res :
  worstSeverity (classify st res) =
  if is_major st then 2%Z
  else if is_warning st then Z.max (worstSeverity res) 1
  else worstSeverity res.
Proof.
  unfold classify, is_major, is_warning.
  destruct (strcmp_eq st "major_outage"); [reflexivity|].
  destruct (strcmp_eq st "degraded_performance" || strcmp_eq st "partial_outage");
    simpl.
  - destruct (Z.ltb_spec (worstSeverity res) 1); simpl; lia.
  - destruct (negb (strcmp_eq st "operational")); reflexivity.
Qed.

Lemma classify_allOperational st res :
  res_allOperational (classify st res) =
  res_allOperational res && is_operational st.
Proof.
  unfold classify, is_operational.
  destruct (strcmp_eq st "major_outage") eqn:Hm.
  { apply strcmp_eq_true in Hm; subst st. simpl. rewrite andb_false_r; reflexivity. }
  destruct (strcmp_eq st "degraded_performance") eqn:Hd.
  { apply strcmp_eq_true in Hd; subst st. simpl.
    destruct (worstSeverity res <? 1)%Z; simpl; rewrite andb_false_r; reflexivity. }
  destruct (strcmp_eq st "partial_outage") eqn:Hp.
  { apply strcmp_eq_true in Hp; subst st. simpl.
    destruct (worstSeverity res <? 1)%Z; simpl; rewrite andb_false_r; reflexivity. }
  simpl. destruct (strcmp_eq st "operational"); simpl.
  - rewrite andb_true_r; reflexivity.
  - rewrite andb_false_r; reflexivity.
Qed.

(** [classify] writes the two severity fields only. *)
Lemma classify_frame st res :
  valid (classify st res) = valid res /\
  statusChanged (classify st res) = statusChanged res /\
  hasIncidents (classify st res) = hasIncidents res /\
  componentCount (classify st res) = componentCount res /\
  components (classify st res) = components res /\
  statusBarText (classify st res) = statusBarText res.
Proof.
  unfold classify.
  destruct (strcmp_eq st "major_outage"); [repeat split|].
  destruct (strcmp_eq st "degraded_performance" || strcmp_eq st "partial_outage").
  - simpl. destruct (worstSeverity res <? 1)%Z; repeat split.
  - destruct (negb (strcmp_eq st "operational")); repeat split.
Qed.

Lemma record_component_fields prev idx comp res :
  let res' := record_component prev idx comp res in
  valid res' = valid res /\
  statusChanged res' =
    (statusChanged res || negb (strcmp_eq (prev_at prev idx) (json_status comp))) /\
  res_allOperational res' =
    (res_allOperational res && is_operational (json_status comp)) /\
  worstSeverity res' =
    (if is_major (json_status comp) then 2%Z
     else if is_warning (json_status comp) then Z.max (worstSeverity res) 1
     else worstSeverity res) /\
  hasIncidents res' = hasIncidents res /\
  componentCount res' = componentCount res /\
  components res' = <[idx := copy_component comp]> (components res) /\
  statusBarText res' = statusBarText res.
Proof.
  unfold record_component.
  set (r1 := set_components _ res).
  set (r2 := if negb _ then _ else _).
  destruct (classify_frame (json_status comp) r2) as (Hv & Hc & Hi & Hn & Hcs & Ht).
  simpl. rewrite Hv, Hc, Hi, Hn, Hcs, Ht, classify_worstSeverity, classify_allOperational.
  subst r2 r1.
  destruct (negb (strcmp_eq (prev_at prev idx) (json_status comp))); simpl;
    rewrite ?orb_true_r, ?orb_false_r; repeat split.
Qed.

(** What the loop leaves in each field, entry by entry. *)
Lemma record_all_fields prev cs : forall idx res,
  idx + length cs <= length (components res) ->
  let out := record_all prev cs idx res in
  fst out = idx + length cs /\
  valid (snd out) = valid res /\
  statusChanged (snd out) =
    (statusChanged res || differs_from prev idx (map json_status cs)) /\
  res_allOperational (snd out) =
    (res_allOperational res && forallb is_operational (map json_status cs)) /\
  worstSeverity (snd out) =
    (if existsb is_major (map json_status cs) then 2%Z
     else if existsb is_warning (map json_status cs)
          then Z.max (worstSeverity res) 1
          else worstSeverity res) /\
  hasIncidents (snd out) = hasIncidents res /\
  componentCount (snd out) = componentCount res /\
  components (snd out) =
    (take idx (components res) ++ map copy_component cs
       ++ drop (idx + length cs) (components res))%list /\
  statusBarText (snd out) = statusBarText res.
Proof.
  induction cs as [|comp rest IH]; intros idx res Hlen; simpl in *.
  - rewrite Nat.add_0_r, take_drop, orb_false_r, andb_true_r. repeat split.
  - destruct (record_component_fields prev idx comp res)
      as (Hv & Hc & Ha & Hw & Hi & Hn & Hcs & Ht).
    set (res1 := record_component prev idx comp res) in *.
    assert (Hlen1 : S idx + length rest <= length (components res1))
      by (rewrite Hcs, length_insert; lia).
    destruct (IH (S idx) res1 Hlen1) as (Ef & Ev & Ec & Ea & Ew & Ei & En & Ecs & Et).
    rewrite Ef, Ev, Ec, Ea, Ew, Ei, En, Ecs, Et, Hv, Hc, Ha, Hw, Hi, Hn, Ht.
    repeat split; try lia.
    + rewrite orb_assoc; reflexivity.
    + rewrite andb_assoc; reflexivity.
    + destruct (is_major (json_status comp)); simpl.
      * destruct (existsb is_major _); [reflexivity|].
        destruct (existsb is_warning _); [|reflexivity].
        destruct (is_warning (json_status comp)); reflexivity.
      * destruct (existsb is_major _); [reflexivity|].
        destruct (is_warning (json_status comp)); simpl.
        -- destruct (existsb is_warning _); lia.
        -- reflexivity.
    + rewrite Hcs.
      rewrite (take_S_r _ idx (copy_component comp))
        by (apply list_lookup_insert_eq; lia).
      rewrite take_insert_ge by lia.
      rewrite drop_insert_lt by lia.
      rewrite <- app_assoc. simpl.
      replace (idx + S (length rest)) with (S idx + length rest) by lia.
      reflexivity.
Qed.

(** ** fetchTaskFunc: the result of a cycle *)

Lemma accepted_length feed : length (accepted feed) <= MAX_COMPONENTS.
Proof. unfold accepted. rewrite length_take. lia. Qed.

Lemma fetch_incidents_frame reply res :
  valid (fetch_incidents reply res) = valid res /\
  statusChanged (fetch_incidents reply res) = statusChanged res /\
  res_allOperational (fetch_incidents reply res) = res_allOperational res /\
  worstSeverity (fetch_incidents reply res) = worstSeverity res /\
  componentCount (fetch_incidents reply res) = componentCount res /\
  components (fetch_incidents reply res) = components res /\
  statusBarText (fetch_incidents reply res) = statusBarText res.
Proof.
  unfold fetch_incidents.
  destruct (httpCode reply =? HTTP_CODE_OK)%Z; [|repeat split].
  destruct (body reply); repeat split.
Qed.

Lemma factor_incidents_frame res :
  valid (factor_incidents res) = valid res /\
  statusChanged (factor_incidents res) = statusChanged res /\
  res_allOperational (factor_incidents res) = res_allOperational res /\
  hasIncidents (factor_incidents res) = hasIncidents res /\
  componentCount (factor_incidents res) = componentCount res /\
  components (factor_incidents res) = components res /\
  statusBarText (factor_incidents res) = statusBarText res.
Proof.
  unfold factor_incidents.
  destruct (hasIncidents res && (worstSeverity res <? 1)%Z); repeat split.
Qed.

Lemma factor_incidents_worstSeverity res :
  worstSeverity (factor_incidents res) =
  if hasIncidents res then Z.max (worstSeverity res) 1 else worstSeverity res.
Proof.
  unfold factor_incidents.
  destruct (hasIncidents res); simpl; [|reflexivity].
  destruct (Z.ltb_spec (worstSeverity res) 1); simpl; lia.
Qed.

(** The fields of [res] that the two later blocks leave alone are those the
    component block produced. *)
Lemma build_result_frame prev inp :
  let mid := fetch_components prev (componentsReply inp) (localTime inp)
               fresh_result in
  let res := build_result prev inp in
  valid res = valid mid /\
  statusChanged res = statusChanged mid /\
  res_allOperational res = res_allOperational mid /\
  componentCount res = componentCount mid /\
  components res = components mid /\
  statusBarText res = statusBarText mid /\
  worstSeverity res =
    (if hasIncidents res then Z.max (worstSeverity mid) 1 else worstSeverity mid).
Proof.
  intros mid res. subst res. unfold build_result. fold mid.
  destruct (factor_incidents_frame (fetch_incidents (incidentsReply inp) mid))
    as (Hv & Hc & Ha & Hi & Hn & Hcs & Ht).
  destruct (fetch_incidents_frame (incidentsReply inp) mid)
    as (Iv & Ic & Ia & Iw & In_ & Ics & It).
  rewrite Hv, Hc, Ha, Hn, Hcs, Ht, Iv, Ic, Ia, In_, Ics, It.
  repeat split.
  rewrite factor_incidents_worstSeverity, Hi, Iw. reflexivity.
Qed.

(** A parsed feed: the component block runs the loop over the accepted
    entries. *)
Lemma fetch_components_ok prev reply now feed :
  httpCode reply = HTTP_CODE_OK -> body reply = Some feed ->
  let mid := fetch_components prev reply now fresh_result in
  let sts := map json_status (accepted feed) in
  valid mid = true /\
  componentCount mid = length (accepted feed) /\
  components mid =
    (map copy_component (accepted feed)
       ++ replicate (MAX_COMPONENTS - length (accepted feed)) zero_component)%list /\
  statusChanged mid = differs_from prev 0 sts /\
  res_allOperational mid = forallb is_operational sts /\
  worstSeverity mid = spec_severity sts false.
Proof.
  intros Hcode Hbody mid sts. subst mid. unfold fetch_components.
  rewrite Hcode, Z.eqb_refl, Hbody.
  rewrite fetch_loop_record_all. rewrite Nat.sub_0_r. fold (accepted feed).
  pose proof (accepted_length feed) as Hlen.
  destruct (record_all_fields prev (accepted feed) 0 fresh_result)
    as (Ef & Ev & Ec & Ea & Ew & Ei & En & Ecs & Et).
  { unfold fresh_result; cbn [components]. rewrite length_replicate. exact Hlen. }
  destruct (record_all prev (accepted feed) 0 fresh_result) as [idx res].
  unfold fresh_result in Ef, Ev, Ec, Ea, Ew, Ei, En, Ecs, Et.
  cbn [fst snd components valid statusChanged res_allOperational worstSeverity
       hasIncidents componentCount statusBarText Nat.add take app orb andb]
    in Ef, Ev, Ec, Ea, Ew, Ei, En, Ecs, Et.
  assert (Hfields :
    forall r, valid r = true -> componentCount r = idx ->
      components r = components res -> statusChanged r = statusChanged res ->
      res_allOperational r = res_allOperational res ->
      worstSeverity r = worstSeverity res ->
      valid r = true /\
      componentCount r = length (accepted feed) /\
      components r =
        (map copy_component (accepted feed)
           ++ replicate (MAX_COMPONENTS - length (accepted feed)) zero_component)%list /\
      statusChanged r = differs_from prev 0 sts /\
      res_allOperational r = forallb is_operational sts /\
      worstSeverity r = spec_severity sts false).
  { intros r Hv Hn Hcs Hc Ha Hw.
    rewrite Hn, Hcs, Hc, Ha, Hw, Ef, Ec, Ea, Ew, Ecs.
    repeat split; try assumption.
    - rewrite drop_replicate. reflexivity.
    - unfold spec_severity. fold sts. rewrite orb_false_r.
      destruct (existsb is_major sts); [reflexivity|].
      destruct (existsb is_warning sts); reflexivity. }
  destruct now; apply Hfields; reflexivity.
Qed.

(** No feed: nothing but the status line is written. *)
Lemma fetch_components_failed prev reply now :
  httpCode reply <> HTTP_CODE_OK \/ body reply = None ->
  fetch_components prev reply now fresh_result =
  set_statusBarText
    (if (httpCode reply =? HTTP_CODE_OK)%Z then strncpy 48 "JSON parse error"
     else snprintf_http_error (httpCode reply))
    fresh_result.
Proof.
  intros H. unfold fetch_components.
  destruct (Z.eqb_spec (httpCode reply) HTTP_CODE_OK) as [Hc|Hc].
  - destruct H as [H|H]; [contradiction|]. rewrite H. reflexivity.
  - reflexivity.
Qed.

Lemma fetch_components_valid prev reply now :
  valid (fetch_components prev reply now fresh_result) = true ->
  exists feed, httpCode reply = HTTP_CODE_OK /\ body reply = Some feed.
Proof.
  intros Hv.
  destruct (Z.eq_dec (httpCode reply) HTTP_CODE_OK) as [Hc|Hc].
  - destruct (body reply) as [feed|] eqn:Hb.
    + exists feed. split; [assumption|reflexivity].
    + rewrite fetch_components_failed in Hv by (right; assumption).
      simpl in Hv. discriminate.
  - rewrite fetch_components_failed in Hv by (left; assumption).
    simpl in Hv. discriminate.
Qed.

Lemma build_result_valid prev inp :
  valid (build_result prev inp) = true ->
  exists feed, httpCode (componentsReply inp) = HTTP_CODE_OK /\
               body (componentsReply inp) = Some feed.
Proof.
  intros Hv. destruct (build_result_frame prev inp) as (Ev & _).
  rewrite Ev in Hv. eapply fetch_components_valid; eassumption.
Qed.

(** The slots a valid result fills hold the accepted statuses, cut to the
    width of the field. *)
Lemma stored_statuses_accepted prev inp feed :
  httpCode (componentsReply inp) = HTTP_CODE_OK ->
  body (componentsReply inp) = Some feed ->
  stored_statuses (build_result prev inp) =
  map (fun c => strncpy 31 (json_status c)) (accepted feed).
Proof.
  intros Hcode Hbody. unfold stored_statuses.
  destruct (build_result_frame prev inp) as (_ & _ & _ & Hn & Hcs & _).
  destruct (fetch_components_ok prev _ (localTime inp) feed Hcode Hbody)
    as (_ & Mn & Mcs & _).
  rewrite Hn, Hcs, Mn, Mcs.
  rewrite take_app_length' by (rewrite length_map; reflexivity).
  rewrite map_map. reflexivity.
Qed.

Lemma is_major_strncpy s : is_major (strncpy 31 s) = is_major s.
Proof. apply strncpy_eqb_literal. simpl. lia. Qed.

Lemma is_warning_strncpy s : is_warning (strncpy 31 s) = is_warning s.
Proof.
  unfold is_warning. rewrite !strncpy_eqb_literal by (simpl; lia). reflexivity.
Qed.

Lemma is_operational_strncpy s : is_operational (strncpy 31 s) = is_operational s.
Proof. apply strncpy_eqb_literal. simpl. lia. Qed.

Lemma existsb_map_same (p : string -> bool) (f : string -> string) l :
  (forall s, p (f s) = p s) -> existsb p (map f l) = existsb p l.
Proof.
  intros Hp. induction l as [|s l IH]; cbn [existsb map]; [reflexivity|].
  rewrite IH, Hp; reflexivity.
Qed.

Lemma forallb_map_same (p : string -> bool) (f : string -> string) l :
  (forall s, p (f s) = p s) -> forallb p (map f l) = forallb p l.
Proof.
  intros Hp. induction l as [|s l IH]; cbn [forallb map]; [reflexivity|].
  rewrite IH, Hp; reflexivity.
Qed.

Lemma spec_severity_strncpy raws inc :
  spec_severity (map (strncpy 31) raws) inc = spec_severity raws inc.
Proof.
  unfold spec_severity.
  rewrite (existsb_map_same is_major) by apply is_major_strncpy.
  rewrite (existsb_map_same is_warning) by apply is_warning_strncpy.
  reflexivity.
Qed.

Lemma forallb_operational_strncpy raws :
  forallb is_operational (map (strncpy 31) raws) = forallb is_operational raws.
Proof. apply forallb_map_same, is_operational_strncpy. Qed.

(** The severity of a valid result is the one the specification words,
    computed on the statuses the result itself holds. *)
Lemma worstSeverity_spec prev inp :
  valid (build_result prev inp) = true ->
  worstSeverity (build_result prev inp) =
  spec_severity (stored_statuses (build_result prev inp))
                (hasIncidents (build_result prev inp)).
Proof.
  intros Hv. destruct (build_result_valid prev inp Hv) as (feed & Hcode & Hbody).
  rewrite (stored_statuses_accepted prev inp feed Hcode Hbody).
  destruct (build_result_frame prev inp) as (_ & _ & _ & _ & _ & _ & Hw).
  destruct (fetch_components_ok prev _ (localTime inp) feed Hcode Hbody)
    as (_ & _ & _ & _ & _ & Mw).
  rewrite Hw, Mw.
  rewrite <- (map_map json_status (strncpy 31)), spec_severity_strncpy.
  unfold spec_severity.
  destruct (existsb is_major _); [destruct (hasIncidents _); reflexivity|].
  destruct (existsb is_warning _); destruct (hasIncidents _); reflexivity.
Qed.

Lemma allOperational_spec prev inp :
  valid (build_result prev inp) = true ->
  res_allOperational (build_result prev inp) =
  forallb is_operational (stored_statuses (build_result prev inp)).
Proof.
  intros Hv. destruct (build_result_valid prev inp Hv) as (feed & Hcode & Hbody).
  rewrite (stored_statuses_accepted prev inp feed Hcode Hbody).
  destruct (build_result_frame prev inp) as (_ & _ & Ha & _).
  destruct (fetch_components_ok prev _ (localTime inp) feed Hcode Hbody)
    as (_ & _ & _ & _ & Ma & _).
  rewrite Ha, Ma.
  rewrite <- (map_map json_status (strncpy 31)), forallb_operational_strncpy.
  reflexivity.
Qed.

Lemma existsb_is_major sts : existsb is_major sts = true <-> In "major_outage" sts.
Proof.
  rewrite existsb_exists. split.
  - intros (s & Hin & Hs). apply strcmp_eq_true in Hs. subst s. exact Hin.
  - intros Hin. exists "major_outage". split; [exact Hin|reflexivity].
Qed.

Lemma existsb_is_warning sts :
  existsb is_warning sts = true <->
  In "degraded_performance" sts \/ In "partial_outage" sts.
Proof.
  rewrite existsb_exists. unfold is_warning. split.
  - intros (s & Hin & Hs). apply orb_true_iff in Hs.
    destruct Hs as [Hs|Hs]; apply strcmp_eq_true in Hs; subst s; auto.
  - intros [Hin|Hin]; eexists; (split; [exact Hin|reflexivity]).
Qed.

(** ** Severity of a valid result *)

(** C3.  For every valid fetch result, [worstSeverity] is 2 if a filtered
    component is in major outage; otherwise 1 if a filtered component is
    degraded or in partial outage or incidents are unresolved; otherwise 0. *)
Theorem worstSeverity_classified prev inp :
  valid (build_result prev inp) = true ->
  let res := build_result prev inp in
  (In "major_outage" (stored_statuses res) -> worstSeverity res = 2%Z) /\
  (~ In "major_outage" (stored_statuses res) ->
   In "degraded_performance" (stored_statuses res) \/
   In "partial_outage" (stored_statuses res) \/ hasIncidents res = true ->
   worstSeverity res = 1%Z) /\
  (~ In "major_outage" (stored_statuses res) ->
   ~ In "degraded_performance" (stored_statuses res) ->
   ~ In "partial_outage" (stored_statuses res) ->
   hasIncidents res = false ->
   worstSeverity res = 0%Z).
Proof.
  intros Hv res. subst res. rewrite (worstSeverity_spec prev inp Hv).
  set (sts := stored_statuses (build_result prev inp)).
  set (inc := hasIncidents (build_result prev inp)).
  unfold spec_severity.
  pose proof (existsb_is_major sts) as Hmaj.
  pose proof (existsb_is_warning sts) as Hwarn.
  split; [|split].
  - intros Hin. apply Hmaj in Hin. rewrite Hin. reflexivity.
  - intros Hno Hsome.
    destruct (existsb is_major sts); [exfalso; apply Hno, Hmaj; reflexivity|].
    destruct Hsome as [Hd|[Hp|Hi]].
    + replace (existsb is_warning sts) with true
        by (symmetry; apply Hwarn; left; exact Hd). reflexivity.
    + replace (existsb is_warning sts) with true
        by (symmetry; apply Hwarn; right; exact Hp). reflexivity.
    + rewrite Hi, orb_true_r. reflexivity.
  - intros Hno Hnd Hnp Hi.
    destruct (existsb is_major sts); [exfalso; apply Hno, Hmaj; reflexivity|].
    destruct (existsb is_warning sts).
    + exfalso. destruct Hwarn as [Hw _]. destruct (Hw eq_refl); contradiction.
    + rewrite Hi. reflexivity.
Qed.

Lemma worstSeverity_classified_witness :
  valid (build_result [] (poll_of feed_outage 0)) = true /\
  worstSeverity (build_result [] (poll_of feed_outage 0)) = 2%Z.
Proof.
  split; [reflexivity|].
  apply (worstSeverity_classified [] (poll_of feed_outage 0) eq_refl).
  right; left; reflexivity.
Defined.

(** ** allOperational against the severity *)

(** C4 as stated fails: with every component operational and one
    unresolved incident, [allOperational] is true and [worstSeverity] is 1. *)
Lemma allOperational_iff_severity_fails :
  valid (build_result [] (poll_of feed_operational 1)) = true /\
  ~ (res_allOperational (build_result [] (poll_of feed_operational 1)) = true <->
     worstSeverity (build_result [] (poll_of feed_operational 1)) = 0%Z).
Proof.
  split; [reflexivity|].
  intros [H _]. specialize (H eq_refl). discriminate H.
Qed.

(** The other direction fails too: a status outside the four known ones
    clears [allOperational] and leaves the severity at 0. *)
Lemma severity_none_not_allOperational :
  valid (build_result [] (poll_of feed_maintenance 0)) = true /\
  worstSeverity (build_result [] (poll_of feed_maintenance 0)) = 0%Z /\
  res_allOperational (build_result [] (poll_of feed_maintenance 0)) = false.
Proof. repeat split. Qed.

Lemma forallb_is_operational sts :
  forallb is_operational sts = true <-> (forall s, In s sts -> s = "operational").
Proof.
  rewrite forallb_forall. split; intros H s Hin.
  - apply strcmp_eq_true, H, Hin.
  - apply strcmp_eq_true, H, Hin.
Qed.

(** C4, amended.  For every valid fetch result: if [allOperational] is true
    and no incident is unresolved then [worstSeverity] is 0; and if
    [worstSeverity] is 0 and every filtered status is one of the four known
    values then [allOperational] is true. *)
Theorem allOperational_severity prev inp :
  valid (build_result prev inp) = true ->
  let res := build_result prev inp in
  (res_allOperational res = true -> hasIncidents res = false ->
   worstSeverity res = 0%Z) /\
  (worstSeverity res = 0%Z ->
   (forall s, In s (stored_statuses res) -> known_status s) ->
   res_allOperational res = true).
Proof.
  intros Hv res. subst res.
  rewrite (worstSeverity_spec prev inp Hv), (allOperational_spec prev inp Hv).
  set (sts := stored_statuses (build_result prev inp)).
  set (inc := hasIncidents (build_result prev inp)).
  split.
  - intros Hall Hinc. rewrite Hinc.
    pose proof (proj1 (forallb_is_operational sts) Hall) as Hop.
    unfold spec_severity.
    destruct (existsb is_major sts) eqn:Hm.
    { apply existsb_is_major, Hop in Hm. discriminate Hm. }
    destruct (existsb is_warning sts) eqn:Hw; [|reflexivity].
    apply existsb_is_warning in Hw. destruct Hw as [Hw|Hw];
      apply Hop in Hw; discriminate Hw.
  - intros Hsev Hknown. apply forallb_is_operational. intros s Hin.
    unfold spec_severity in Hsev.
    destruct (existsb is_major sts) eqn:Hm; [discriminate Hsev|].
    destruct (existsb is_warning sts) eqn:Hw; [discriminate Hsev|].
    destruct (Hknown s Hin) as [Hs|[Hs|[Hs|Hs]]]; [exact Hs| | |]; subst s.
    + assert (existsb is_warning sts = true)
        by (apply existsb_is_warning; left; exact Hin). congruence.
    + assert (existsb is_warning sts = true)
        by (apply existsb_is_warning; right; exact Hin). congruence.
    + assert (existsb is_major sts = true)
        by (apply existsb_is_major; exact Hin). congruence.
Qed.

Lemma allOperational_severity_witness :
  valid (build_result [] (poll_of feed_operational 0)) = true /\
  worstSeverity (build_result [] (poll_of feed_operational 0)) = 0%Z.
Proof.
  split; [reflexivity|].
  apply (allOperational_severity [] (poll_of feed_operational 0) eq_refl);
    reflexivity.
Defined.

(** ** applyFetchResults: the comparison loop *)

Lemma detect_changes_upto res prev :
  detect_changes res prev = detect_upto res prev (componentCount res).
Proof. reflexivity. Qed.

Lemma detect_upto_S res prev n :
  detect_upto res prev (S n) = compare_slot res (detect_upto res prev n) n.
Proof. unfold detect_upto. rewrite seq_S, foldl_snoc. reflexivity. Qed.

Lemma compare_slot_length res acc i :
  length (fst (compare_slot res acc i)) = length (fst acc).
Proof.
  unfold compare_slot. destruct (negb _); [|reflexivity].
  cbn [fst]. apply length_insert.
Qed.

Lemma compare_slot_other res acc i j :
  i <> j -> fst (compare_slot res acc i) !! j = fst acc !! j.
Proof.
  intros Hne. unfold compare_slot. destruct (negb _); [|reflexivity].
  cbn [fst]. apply list_lookup_insert_ne, Hne.
Qed.

Lemma detect_upto_length res prev n :
  length (fst (detect_upto res prev n)) = length prev.
Proof.
  induction n as [|n IH]; [reflexivity|].
  rewrite detect_upto_S, compare_slot_length. exact IH.
Qed.

(** Entries from [n] on are not touched by the first [n] turns. *)
Lemma detect_upto_beyond res prev n j :
  n <= j -> fst (detect_upto res prev n) !! j = prev !! j.
Proof.
  induction n as [|n IH]; intros Hj; [reflexivity|].
  rewrite detect_upto_S, compare_slot_other by lia. apply IH. lia.
Qed.

Lemma prev_at_detect_upto_beyond res prev n j :
  n <= j -> prev_at (fst (detect_upto res prev n)) j = prev_at prev j.
Proof. intros Hj. unfold prev_at. rewrite detect_upto_beyond by exact Hj. reflexivity. Qed.

(** The flag is raised exactly by a slot that differs from the table. *)
Lemma detect_upto_flag res prev n :
  snd (detect_upto res prev n) = true <->
  exists i, i < n /\ prev_at prev i <> status (component_at res i).
Proof.
  induction n as [|n IH].
  - split; [discriminate|]. intros (i & Hi & _). lia.
  - rewrite detect_upto_S. unfold compare_slot.
    rewrite prev_at_detect_upto_beyond by lia.
    destruct (strcmp_eq (prev_at prev n) (status (component_at res n))) eqn:Hcmp;
      cbn [negb snd].
    + apply strcmp_eq_true in Hcmp. rewrite IH. split.
      * intros (i & Hi & Hd). exists i. split; [lia|exact Hd].
      * intros (i & Hi & Hd). exists i. split; [|exact Hd].
        destruct (Nat.eq_dec i n) as [->|Hne]; [contradiction|lia].
    + apply strcmp_eq_false in Hcmp. split; [|reflexivity].
      intros _. exists n. split; [lia|exact Hcmp].
Qed.

(** After the loop, a compared entry holds the status of its slot. *)
Lemma detect_upto_stored res prev n i :
  i < n -> i < length prev ->
  String.length (status (component_at res i)) <= 31 ->
  prev_at (fst (detect_upto res prev n)) i = status (component_at res i).
Proof.
  intros Hi Hlen Hfit. induction n as [|n IH]; [lia|].
  rewrite detect_upto_S.
  destruct (Nat.eq_dec i n) as [->|Hne].
  - unfold compare_slot.
    destruct (strcmp_eq (prev_at (fst (detect_upto res prev n)) n)
                (status (component_at res n))) eqn:Hcmp; cbn [negb fst].
    + apply strcmp_eq_true, Hcmp.
    + unfold prev_at. rewrite list_lookup_insert_eq
        by (rewrite detect_upto_length; exact Hlen).
      cbn [default]. apply strncpy_short, Hfit.
  - unfold prev_at. rewrite compare_slot_other by lia. apply IH. lia.
Qed.

Lemma detect_upto_no_change res prev n :
  snd (detect_upto res prev n) = false -> fst (detect_upto res prev n) = prev.
Proof.
  induction n as [|n IH]; [reflexivity|].
  rewrite detect_upto_S. unfold compare_slot.
  destruct (negb _) eqn:Hcmp; cbn [snd fst]; [discriminate|]. exact IH.
Qed.

(** ** Shape of the results the task builds *)

Lemma component_at_copy (cs : list FeedEntry) pad i :
  String.length
    (status (default zero_component
       ((map copy_component cs ++ replicate pad zero_component)%list !! i))) <= 31.
Proof.
  destruct ((map copy_component cs ++ replicate pad zero_component)%list !! i)
    as [c|] eqn:Hc; cbn [default]; [|simpl; lia].
  apply lookup_app_Some in Hc. destruct Hc as [Hc|[_ Hc]].
  - rewrite list_lookup_fmap in Hc.
    destruct (cs !! i) as [e|]; [|discriminate]. injection Hc as <-.
    cbn [copy_component status]. apply strncpy_length.
  - apply lookup_replicate in Hc. destruct Hc as [-> _]. simpl. lia.
Qed.

Lemma build_result_well_formed prev inp : well_formed_result (build_result prev inp).
Proof.
  unfold well_formed_result, component_at.
  destruct (build_result_frame prev inp) as (_ & _ & _ & Hn & Hcs & _).
  rewrite Hn, Hcs.
  set (reply := componentsReply inp).
  destruct (Z.eq_dec (httpCode reply) HTTP_CODE_OK) as [Hc|Hc];
    [destruct (body reply) as [feed|] eqn:Hb|].
  - destruct (fetch_components_ok prev reply (localTime inp) feed Hc Hb)
      as (_ & Mn & Mcs & _).
    rewrite Mn, Mcs. pose proof (accepted_length feed) as Hlen.
    split; [|split].
    + rewrite length_app, length_map, length_replicate. lia.
    + exact Hlen.
    + intros i. apply component_at_copy.
  - rewrite fetch_components_failed by (right; exact Hb).
    cbn [set_statusBarText components componentCount fresh_result].
    split; [apply length_replicate|]. split; [lia|].
    intros i. apply (component_at_copy [] MAX_COMPONENTS i).
  - rewrite fetch_components_failed by (left; exact Hc).
    cbn [set_statusBarText components componentCount fresh_result].
    split; [apply length_replicate|]. split; [lia|].
    intros i. apply (component_at_copy [] MAX_COMPONENTS i).
Qed.

Lemma stored_statuses_lookup res i :
  well_formed_result res -> i < componentCount res ->
  stored_statuses res !! i = Some (status (component_at res i)).
Proof.
  intros (Hlen & Hn & _) Hi. unfold stored_statuses, component_at.
  rewrite list_lookup_fmap, lookup_take_lt by exact Hi.
  destruct (components res !! i) as [c|] eqn:Hc; [reflexivity|].
  apply lookup_ge_None in Hc. lia.
Qed.

Lemma stored_statuses_length res :
  well_formed_result res -> length (stored_statuses res) = componentCount res.
Proof.
  intros (Hlen & Hn & _). unfold stored_statuses.
  rewrite length_map, length_take. lia.
Qed.

(** ** The call log *)

Lemma count_events_app p a b :
  count_events p (a ++ b) = count_events p a + count_events p b.
Proof. unfold count_events. rewrite List.filter_app, length_app. reflexivity. Qed.

Lemma new_events_emit s s' evs :
  screen s' = (screen s ++ evs)%list -> new_events s s' = evs.
Proof. intros H. unfold new_events. rewrite H. apply drop_app_length. Qed.

Lemma count_widget_updates p res l :
  (forall i, p (widget_update res i) = false) ->
  count_events p (map (widget_update res) l) = 0.
Proof.
  intros Hp. unfold count_events.
  induction l as [|i l IH]; cbn [map List.filter]; [reflexivity|].
  rewrite Hp. exact IH.
Qed.

Lemma banner_not_stop s : is_stop (banner_of s) = false.
Proof.
  unfold banner_of. destruct (_ && _); [reflexivity|].
  destruct (_ <=? _)%Z; reflexivity.
Qed.

Lemma banner_not_frame s : is_frame (banner_of s) = false.
Proof.
  unfold banner_of. destruct (_ && _); [reflexivity|].
  destruct (_ <=? _)%Z; reflexivity.
Qed.

(** ** matrixStopScreensaver *)

Lemma matrixStopScreensaver_fields env s :
  let s' := matrixStopScreensaver env s in
  screensaverActive s' = false /\
  colSprite s' = false /\
  lastTouchTime s' = to_uint32 (millis_at env (clk s)) /\
  clk s' = S (clk s) /\
  lastFrameTime s' = lastFrameTime s /\
  allOperational s' = allOperational s /\
  hasUnresolvedIncidents s' = hasUnresolvedIncidents s /\
  matrixSeverity s' = matrixSeverity s /\
  cachedStatusText s' = cachedStatusText s /\
  prevStatus s' = prevStatus s /\
  fetchResult s' = fetchResult s /\
  newDataReady s' = newDataReady s /\
  screen s' =
    (screen s ++ [Call_matrixStopScreensaver; banner_of s;
                  SetRightText (cachedStatusText s);
                  ClearScreen; DrawAll; DrawGridLines])%list.
Proof.
  unfold matrixStopScreensaver, updateStatusBanner, millis.
  cbn -[to_uint32]. repeat split.
  rewrite <- !app_assoc. reflexivity.
Qed.

Lemma matrixStopScreensaver_counts env s :
  count_events is_stop (new_events s (matrixStopScreensaver env s)) = 1 /\
  count_events is_frame (new_events s (matrixStopScreensaver env s)) = 0.
Proof.
  destruct (matrixStopScreensaver_fields env s)
    as (_ & _ & _ & _ & _ & _ & _ & _ & _ & _ & _ & _ & Hscr).
  rewrite (new_events_emit _ _ _ Hscr). unfold count_events.
  cbn [List.filter is_stop is_frame]. rewrite banner_not_stop, banner_not_frame.
  split; reflexivity.
Qed.

(** ** applyFetchResults *)

Lemma widget_not_stop res i : is_stop (widget_update res i) = false.
Proof. reflexivity. Qed.

Lemma widget_not_frame res i : is_frame (widget_update res i) = false.
Proof. reflexivity. Qed.

Ltac count_log :=
  unfold new_events; cbn -[to_uint32 banner_of widget_update seq strncpy];
  rewrite <- ?app_assoc, ?drop_app_length, ?drop_all;
  rewrite ?count_events_app, ?count_widget_updates
    by (first [apply widget_not_stop | apply widget_not_frame]);
  unfold count_events; cbn [List.filter is_stop is_frame app];
  rewrite ?banner_not_stop, ?banner_not_frame; reflexivity.

Ltac log_extends :=
  match goal with
  | |- extends ?s ?s' =>
      exists (new_events s s'); unfold new_events;
      cbn -[to_uint32 banner_of widget_update seq strncpy];
      rewrite <- ?app_assoc, ?drop_app_length, ?drop_all, ?app_nil_r;
      reflexivity
  end.

(** A valid result applied: what each global holds afterwards. *)
Lemma apply_result_valid env res s :
  valid res = true ->
  let d := detect_changes res (prevStatus s) in
  let leave :=
    (snd d || xorb (hasUnresolvedIncidents s) (hasIncidents res))
    && screensaverActive s in
  let s' := apply_result env res s in
  prevStatus s' = fst d /\
  allOperational s' = res_allOperational res /\
  hasUnresolvedIncidents s' = hasIncidents res /\
  matrixSeverity s' = worstSeverity res /\
  screensaverActive s' = (if leave then false else screensaverActive s) /\
  fetchResult s' = fetchResult s /\
  newDataReady s' = newDataReady s /\
  clk s' = (if leave then S (clk s) else clk s) /\
  lastTouchTime s' =
    (if leave then to_uint32 (millis_at env (clk s)) else lastTouchTime s) /\
  lastFrameTime s' = lastFrameTime s /\
  count_events is_stop (new_events s s') = (if leave then 1 else 0) /\
  count_events is_frame (new_events s s') = 0 /\
  extends s s'.
Proof.
  intros Hv d leave s'. subst s' leave d. unfold apply_result.
  rewrite Hv. cbn [negb prevStatus set_cachedStatusText].
  destruct (detect_changes res (prevStatus s)) as [prev changed]. cbn [fst snd].
  cbn [set_prevStatus set_health set_cachedStatusText hasUnresolvedIncidents
       screensaverActive].
  destruct ((changed || xorb (hasUnresolvedIncidents s) (hasIncidents res))
            && screensaverActive s) eqn:Hleave.
  - unfold matrixStopScreensaver, updateStatusBanner, millis.
    cbn -[to_uint32 banner_of widget_update seq new_events count_events strncpy].
    repeat split; try count_log. log_extends.
  - destruct (screensaverActive s) eqn:Hact;
      cbn -[to_uint32 banner_of widget_update seq new_events count_events strncpy];
      rewrite ?Hact;
      cbn -[to_uint32 banner_of widget_update seq new_events count_events strncpy];
      unfold updateStatusBanner;
      cbn -[to_uint32 banner_of widget_update seq new_events count_events strncpy];
      repeat split; try count_log.
    all: try exact Hact.
    all: log_extends.
Qed.

(** An invalid result applied: only the status text and the status bar. *)
Lemma apply_result_invalid env res s :
  valid res = false ->
  let s' := apply_result env res s in
  allOperational s' = allOperational s /\
  hasUnresolvedIncidents s' = hasUnresolvedIncidents s /\
  matrixSeverity s' = matrixSeverity s /\
  prevStatus s' = prevStatus s /\
  screensaverActive s' = screensaverActive s /\
  cachedStatusText s' = strncpy 48 (statusBarText res) /\
  fetchResult s' = fetchResult s /\
  newDataReady s' = newDataReady s /\
  clk s' = clk s /\
  lastTouchTime s' = lastTouchTime s /\
  lastFrameTime s' = lastFrameTime s /\
  count_events is_stop (new_events s s') = 0 /\
  count_events is_frame (new_events s s') = 0 /\
  extends s s'.
Proof.
  intros Hv s'. subst s'. unfold apply_result. rewrite Hv. cbn [negb].
  cbn [screensaverActive set_cachedStatusText].
  destruct (screensaverActive s) eqn:Hact;
    cbn -[to_uint32 banner_of widget_update seq new_events count_events strncpy];
    repeat split; try count_log; try exact Hact; log_extends.
Qed.

Lemma extends_refl s : extends s s.
Proof. exists []. rewrite app_nil_r. reflexivity. Qed.

Lemma extends_trans s1 s2 s3 : extends s1 s2 -> extends s2 s3 -> extends s1 s3.
Proof.
  intros [e1 H1] [e2 H2]. exists (e1 ++ e2)%list.
  rewrite H2, H1, app_assoc. reflexivity.
Qed.

Lemma new_events_trans s1 s2 s3 :
  extends s1 s2 -> extends s2 s3 ->
  new_events s1 s3 = (new_events s1 s2 ++ new_events s2 s3)%list.
Proof.
  intros [e1 H1] [e2 H2].
  rewrite (new_events_emit s1 s2 e1 H1), (new_events_emit s2 s3 e2 H2).
  apply new_events_emit. rewrite H2, H1, app_assoc. reflexivity.
Qed.

Lemma new_events_refl s : new_events s s = [].
Proof. unfold new_events. apply drop_all. Qed.

(** The copy keeps the struct and clears the flag; the rest is
    [apply_result] on a state whose other globals are those of [s]. *)
Lemma applyFetchResults_locked env s :
  applyFetchResults env true s =
  apply_result env (fetchResult s) (set_channel (fetchResult s) false s).
Proof. reflexivity. Qed.

Lemma applyFetchResults_unlocked env s : applyFetchResults env false s = s.
Proof. reflexivity. Qed.

Lemma applied_statusChanged_channel r flag s :
  detect_changes r (prevStatus (set_channel r flag s)) =
  detect_changes r (prevStatus s).
Proof. reflexivity. Qed.


(** ** Change detection across polls *)

Lemma fetchTask_cycle_publish inp s :
  wifiConnected inp = true -> publishLock inp = true ->
  fetchTask_cycle inp s = publish (build_result (prevStatus s) inp) s.
Proof. intros Hw Hl. unfold fetchTask_cycle. rewrite Hw, Hl. reflexivity. Qed.

(** Once a result has been applied, a result whose statuses are a prefix of
    its statuses raises no flag. *)
Lemma detect_after_apply r1 r2 prev rest :
  well_formed_result r1 -> well_formed_result r2 ->
  length prev = MAX_COMPONENTS ->
  stored_statuses r1 = (stored_statuses r2 ++ rest)%list ->
  snd (detect_changes r2 (fst (detect_changes r1 prev))) = false.
Proof.
  intros Hwf1 Hwf2 Hprev Hpre.
  apply not_true_is_false. rewrite detect_changes_upto, detect_upto_flag.
  intros (i & Hi & Hdiff). apply Hdiff. clear Hdiff.
  pose proof (stored_statuses_length r1 Hwf1) as Hl1.
  pose proof (stored_statuses_length r2 Hwf2) as Hl2.
  assert (Hle : componentCount r2 <= componentCount r1).
  { rewrite <- Hl1, <- Hl2, Hpre, length_app. lia. }
  assert (Hsame : status (component_at r1 i) = status (component_at r2 i)).
  { pose proof (stored_statuses_lookup r1 i Hwf1 ltac:(lia)) as H1.
    pose proof (stored_statuses_lookup r2 i Hwf2 Hi) as H2.
    rewrite Hpre, lookup_app_l, H2 in H1 by lia. congruence. }
  rewrite <- Hsame. rewrite detect_changes_upto.
  destruct Hwf1 as (_ & Hn1 & Hfit1).
  apply detect_upto_stored; [lia|lia|apply Hfit1].
Qed.

(** C1.  The flag [statusChanged] that [applyFetchResults] computes for the
    pending result is true exactly when some filtered component index holds
    a status that differs from [prevStatus] at that index; and a poll that
    returns the statuses of the poll applied before it does not raise it. *)
Theorem statusChanged_iff_differs env s inp1 inp2 :
  (applied_statusChanged s = true <->
   exists i, i < componentCount (fetchResult s) /\
             prev_at (prevStatus s) i <> status (component_at (fetchResult s) i))
  /\
  (length (prevStatus s) = MAX_COMPONENTS ->
   wifiConnected inp1 = true -> publishLock inp1 = true ->
   wifiConnected inp2 = true -> publishLock inp2 = true ->
   let s1 := fetchTask_cycle inp1 s in
   let s2 := applyFetchResults env true s1 in
   let s3 := fetchTask_cycle inp2 s2 in
   valid (fetchResult s1) = true ->
   stored_statuses (fetchResult s3) = stored_statuses (fetchResult s1) ->
   applied_statusChanged s3 = false).
Proof.
  split.
  - unfold applied_statusChanged. rewrite detect_changes_upto.
    apply detect_upto_flag.
  - intros Hprev Hw1 Hl1 Hw2 Hl2 s1 s2 s3 Hv Hsame.
    subst s3 s2 s1.
    rewrite (fetchTask_cycle_publish inp1 s Hw1 Hl1) in *.
    set (r1 := build_result (prevStatus s) inp1) in *.
    rewrite applyFetchResults_locked in *.
    cbn [publish fetchResult set_channel] in *.
    set (s1 := set_channel r1 false _) in *.
    destruct (apply_result_valid env r1 s1 Hv) as (Hp & _).
    rewrite fetchTask_cycle_publish in * by assumption.
    unfold applied_statusChanged.
    cbn [publish fetchResult prevStatus set_channel] in *.
    rewrite Hp in *. subst s1. cbn [prevStatus set_channel] in *.
    set (r2 := build_result _ inp2) in *.
    apply (detect_after_apply r1 r2 (prevStatus s) []).
    + apply build_result_well_formed.
    + apply build_result_well_formed.
    + exact Hprev.
    + rewrite app_nil_r. symmetry. exact Hsame.
Qed.

Lemma statusChanged_iff_differs_witness :
  applied_statusChanged
    (fetchTask_cycle (poll_of feed_operational 0)
       (applyFetchResults demo_env true
          (fetchTask_cycle (poll_of feed_operational 1) initial_state))) = false.
Proof.
  apply (statusChanged_iff_differs demo_env initial_state
           (poll_of feed_operational 1) (poll_of feed_operational 0));
    reflexivity.
Defined.

(** The field [statusChanged] the task itself stores in the result obeys the
    same rule against the table the task read, on the statuses as the feed
    carries them. *)
Lemma fetched_statusChanged prev inp feed :
  httpCode (componentsReply inp) = HTTP_CODE_OK ->
  body (componentsReply inp) = Some feed ->
  statusChanged (build_result prev inp) =
  differs_from prev 0 (map json_status (accepted feed)).
Proof.
  intros Hc Hb.
  destruct (build_result_frame prev inp) as (_ & Hs & _).
  destruct (fetch_components_ok prev _ (localTime inp) feed Hc Hb)
    as (_ & _ & _ & Ms & _).
  rewrite Hs, Ms. reflexivity.
Qed.

Lemma differs_from_spec prev sts : forall idx,
  differs_from prev idx sts = true <->
  exists j st, sts !! j = Some st /\ prev_at prev (idx + j) <> st.
Proof.
  induction sts as [|st0 sts IH]; intros idx; cbn [differs_from].
  - split; [discriminate|]. intros (j & st & Hj & _). discriminate Hj.
  - rewrite orb_true_iff, negb_true_iff, strcmp_eq_false, IH. split.
    + intros [Hd|(j & st & Hj & Hd)].
      * exists 0, st0. rewrite Nat.add_0_r. split; [reflexivity|exact Hd].
      * exists (S j), st. split; [exact Hj|].
        replace (idx + S j) with (S idx + j) by lia. exact Hd.
    + intros ([|j] & st & Hj & Hd).
      * left. injection Hj as <-. rewrite Nat.add_0_r in Hd. exact Hd.
      * right. exists j, st. split; [exact Hj|].
        replace (S idx + j) with (idx + S j) by lia. exact Hd.
Qed.

(** When every accepted status fits its field, the field the task stores
    is the flag [applyFetchResults] computes against the same table. *)
Lemma fetched_flag_agrees prev inp feed :
  httpCode (componentsReply inp) = HTTP_CODE_OK ->
  body (componentsReply inp) = Some feed ->
  Forall (fun c => String.length (json_status c) <= 31) (accepted feed) ->
  statusChanged (build_result prev inp) =
  snd (detect_changes (build_result prev inp) prev).
Proof.
  intros Hc Hb Hfit. apply eq_true_iff_eq.
  rewrite (fetched_statusChanged prev inp feed Hc Hb), differs_from_spec.
  rewrite detect_changes_upto, detect_upto_flag.
  pose proof (build_result_well_formed prev inp) as Hwf.
  pose proof (stored_statuses_accepted prev inp feed Hc Hb) as Hst.
  pose proof (stored_statuses_length _ Hwf) as Hlen.
  assert (Hraw : stored_statuses (build_result prev inp)
                 = map json_status (accepted feed)).
  { rewrite Hst. apply map_ext_in. intros c Hin.
    apply strncpy_short. rewrite Forall_forall in Hfit.
    apply Hfit, list_elem_of_In, Hin. }
  cbn [Nat.add]. split.
  - intros (j & st & Hj & Hd). exists j.
    assert (Hlt : j < componentCount (build_result prev inp)).
    { rewrite <- Hlen, Hraw. apply lookup_lt_Some in Hj. exact Hj. }
    split; [exact Hlt|].
    pose proof (stored_statuses_lookup _ j Hwf Hlt) as Hlk.
    rewrite Hraw, Hj in Hlk. injection Hlk as <-. exact Hd.
  - intros (i & Hi & Hd).
    pose proof (stored_statuses_lookup _ i Hwf Hi) as Hlk.
    rewrite Hraw in Hlk. eexists i, _. split; [exact Hlk|exact Hd].
Qed.

(** A status too long for its field sets the stored field at every poll,
    while the flag computed on applying the result stays false once the
    status has been recorded. *)
Lemma overlong_status_sets_field :
  statusChanged
    (fetchResult
       (fetchTask_cycle (poll_of feed_overlong 0)
          (applyFetchResults demo_env true
             (fetchTask_cycle (poll_of feed_overlong 0) initial_state)))) = true /\
  applied_statusChanged
    (fetchTask_cycle (poll_of feed_overlong 0)
       (applyFetchResults demo_env true
          (fetchTask_cycle (poll_of feed_overlong 0) initial_state))) = false.
Proof. split; reflexivity. Qed.

(** ** What the comparison leaves alone *)

(** C10.  Applying a result compares and rewrites entries below
    [componentCount] only: the entries of [prevStatus] from [componentCount]
    on are the same afterwards; and when a poll returns a prefix of the
    components of the poll applied before it, the flag stays false and the
    whole table, stale entries included, is unchanged. *)
Theorem stale_entries_persist env s inp1 inp2 rest :
  (forall lock j, componentCount (fetchResult s) <= j ->
     prevStatus (applyFetchResults env lock s) !! j = prevStatus s !! j)
  /\
  (length (prevStatus s) = MAX_COMPONENTS ->
   wifiConnected inp1 = true -> publishLock inp1 = true ->
   wifiConnected inp2 = true -> publishLock inp2 = true ->
   let s1 := fetchTask_cycle inp1 s in
   let s2 := applyFetchResults env true s1 in
   let s3 := fetchTask_cycle inp2 s2 in
   valid (fetchResult s1) = true -> valid (fetchResult s3) = true ->
   stored_statuses (fetchResult s1) =
     (stored_statuses (fetchResult s3) ++ rest)%list ->
   applied_statusChanged s3 = false /\
   prevStatus (applyFetchResults env true s3) = prevStatus s2).
Proof.
  split.
  - intros [|] j Hj; [|reflexivity].
    rewrite applyFetchResults_locked.
    destruct (valid (fetchResult s)) eqn:Hv.
    + destruct (apply_result_valid env (fetchResult s)
                  (set_channel (fetchResult s) false s) Hv) as (Hp & _).
      rewrite Hp. cbn [prevStatus set_channel].
      rewrite detect_changes_upto. apply detect_upto_beyond, Hj.
    + destruct (apply_result_invalid env (fetchResult s)
                  (set_channel (fetchResult s) false s) Hv)
        as (_ & _ & _ & Hp & _).
      rewrite Hp. reflexivity.
  - intros Hprev Hw1 Hl1 Hw2 Hl2 s1 s2 s3 Hv1 Hv3 Hpre.
    assert (Hflag : applied_statusChanged s3 = false).
    { subst s3 s2 s1.
      rewrite (fetchTask_cycle_publish inp1 s Hw1 Hl1) in *.
      set (r1 := build_result (prevStatus s) inp1) in *.
      rewrite applyFetchResults_locked in *.
      cbn [publish fetchResult set_channel] in *.
      set (s1 := set_channel r1 false _) in *.
      destruct (apply_result_valid env r1 s1 Hv1) as (Hp & _).
      rewrite fetchTask_cycle_publish in * by assumption.
      unfold applied_statusChanged.
      cbn [publish fetchResult prevStatus set_channel] in *.
      rewrite Hp in *. subst s1. cbn [prevStatus set_channel] in *.
      set (r2 := build_result _ inp2) in *.
      apply (detect_after_apply r1 r2 (prevStatus s) rest).
      - apply build_result_well_formed.
      - apply build_result_well_formed.
      - exact Hprev.
      - exact Hpre. }
    split; [exact Hflag|].
    rewrite applyFetchResults_locked.
    destruct (apply_result_valid env (fetchResult s3)
                (set_channel (fetchResult s3) false s3) Hv3) as (Hp & _).
    rewrite Hp. cbn [prevStatus set_channel].
    unfold applied_statusChanged in Hflag.
    rewrite detect_changes_upto in *.
    rewrite (detect_upto_no_change _ _ _ Hflag).
    subst s3. rewrite fetchTask_cycle_publish by assumption. reflexivity.
Qed.

Lemma stale_entries_persist_witness :
  applied_statusChanged
    (fetchTask_cycle (poll_of feed_short 0)
       (applyFetchResults demo_env true
          (fetchTask_cycle (poll_of feed_outage 0) initial_state))) = false /\
  prevStatus
    (applyFetchResults demo_env true
       (fetchTask_cycle (poll_of feed_short 0)
          (applyFetchResults demo_env true
             (fetchTask_cycle (poll_of feed_outage 0) initial_state)))) !! 1
  = Some "major_outage".
Proof.
  destruct (proj2 (stale_entries_persist demo_env initial_state
                     (poll_of feed_outage 0) (poll_of feed_short 0)
                     ["major_outage"])
              eq_refl eq_refl eq_refl eq_refl eq_refl eq_refl eq_refl eq_refl)
    as [Hflag Htable].
  split; [exact Hflag|]. rewrite Htable. reflexivity.
Defined.

(** ** Incidents and the screensaver *)

(** C9.  While the screensaver is active, applying a valid result whose
    incidents flag differs from [hasUnresolvedIncidents] stops the
    screensaver, whatever the comparison of the statuses found. *)
Theorem incident_change_exits env s :
  screensaverActive s = true ->
  valid (fetchResult s) = true ->
  hasIncidents (fetchResult s) <> hasUnresolvedIncidents s ->
  screensaverActive (applyFetchResults env true s) = false /\
  count_events is_stop (new_events s (applyFetchResults env true s)) = 1.
Proof.
  intros Hact Hv Hinc. rewrite applyFetchResults_locked.
  set (s0 := set_channel (fetchResult s) false s).
  destruct (apply_result_valid env (fetchResult s) s0 Hv)
    as (_ & _ & _ & _ & Hs & _ & _ & _ & _ & _ & Hstop & _).
  change (new_events s) with (new_events s0).
  rewrite Hs, Hstop. subst s0.
  cbn [hasUnresolvedIncidents screensaverActive set_channel].
  rewrite Hact.
  assert (Hx : xorb (hasUnresolvedIncidents s) (hasIncidents (fetchResult s)) = true).
  { destruct (hasUnresolvedIncidents s), (hasIncidents (fetchResult s));
      try reflexivity; exfalso; apply Hinc; reflexivity. }
  rewrite Hx, orb_true_r. split; reflexivity.
Qed.

Lemma incident_change_exits_witness :
  applied_statusChanged
    (fetchTask_cycle (poll_of feed_operational 1) saver_state) = false /\
  screensaverActive
    (applyFetchResults demo_env true
       (fetchTask_cycle (poll_of feed_operational 1) saver_state)) = false.
Proof.
  split; [reflexivity|].
  apply (incident_change_exits demo_env
           (fetchTask_cycle (poll_of feed_operational 1) saver_state));
    [reflexivity|reflexivity|discriminate].
Defined.

(** ** Invalid results *)

(** C6 as stated fails: a cycle with the link down after a successful one
    leaves a result with [valid == false] whose component list is the one
    of the successful cycle. *)
Lemma wifi_error_keeps_components :
  valid (fetchResult
           (fetchTask_cycle wifi_down
              (fetchTask_cycle (poll_of feed_short 0) initial_state))) = false /\
  componentCount (fetchResult
           (fetchTask_cycle wifi_down
              (fetchTask_cycle (poll_of feed_short 0) initial_state))) = 1 /\
  stored_statuses (fetchResult
           (fetchTask_cycle wifi_down
              (fetchTask_cycle (poll_of feed_short 0) initial_state)))
    = ["operational"].
Proof. repeat split. Qed.

Lemma build_result_invalid prev inp :
  valid (build_result prev inp) = false ->
  componentCount (build_result prev inp) = 0 /\
  stored_statuses (build_result prev inp) = [] /\
  statusBarText (build_result prev inp) =
    (if (httpCode (componentsReply inp) =? HTTP_CODE_OK)%Z
     then "JSON parse error"
     else "HTTP error: " ++ fmt_d (httpCode (componentsReply inp))).
Proof.
  intros Hv. unfold stored_statuses.
  destruct (build_result_frame prev inp) as (Ev & _ & _ & Hn & Hcs & Ht & _).
  rewrite Ev in Hv. rewrite Hn, Hcs, Ht.
  set (reply := componentsReply inp) in *.
  assert (Hfail : httpCode reply <> HTTP_CODE_OK \/ body reply = None).
  { destruct (Z.eq_dec (httpCode reply) HTTP_CODE_OK) as [Hc|Hc]; [|left; exact Hc].
    destruct (body reply) as [feed|] eqn:Hb; [|right; reflexivity].
    destruct (fetch_components_ok prev reply (localTime inp) feed Hc Hb) as (Mv & _).
    congruence. }
  rewrite fetch_components_failed by exact Hfail.
  cbn [set_statusBarText componentCount components statusBarText fresh_result].
  repeat split.
  destruct (httpCode reply =? HTTP_CODE_OK)%Z; [reflexivity|].
  apply snprintf_http_error_full.
Qed.

(** What applying an invalid result does depends on its status line only:
    the component fields a link-down cycle leaves behind are not read. *)
Lemma apply_result_invalid_text env r r' s :
  valid r = false -> valid r' = false ->
  statusBarText r = statusBarText r' ->
  apply_result env r s = apply_result env r' s.
Proof.
  intros Hv Hv' Ht. unfold apply_result. rewrite Hv, Hv', Ht. reflexivity.
Qed.

(** C6, amended.  A result published with [valid == false] by a cycle whose
    HTTP request or parse failed has no components and a status line that
    names the failure, with the numeric code for an HTTP failure; a cycle
    with the link down rewrites [valid] and the status line of the shared
    struct and leaves its component fields as they were; and applying a
    result with [valid == false] leaves the severity globals, [prevStatus]
    and the screensaver as they were. *)
Theorem invalid_snapshot env inp s :
  publishLock inp = true ->
  valid (fetchResult (fetchTask_cycle inp s)) = false ->
  let s' := fetchTask_cycle inp s in
  (wifiConnected inp = true ->
     componentCount (fetchResult s') = 0 /\
     stored_statuses (fetchResult s') = [] /\
     statusBarText (fetchResult s') =
       (if (httpCode (componentsReply inp) =? HTTP_CODE_OK)%Z
        then "JSON parse error"
        else "HTTP error: " ++ fmt_d (httpCode (componentsReply inp)))) /\
  (wifiConnected inp = false ->
     componentCount (fetchResult s') = componentCount (fetchResult s) /\
     components (fetchResult s') = components (fetchResult s) /\
     statusBarText (fetchResult s') = "WiFi disconnected") /\
  (allOperational (applyFetchResults env true s') = allOperational s' /\
   hasUnresolvedIncidents (applyFetchResults env true s') = hasUnresolvedIncidents s' /\
   matrixSeverity (applyFetchResults env true s') = matrixSeverity s' /\
   prevStatus (applyFetchResults env true s') = prevStatus s' /\
   screensaverActive (applyFetchResults env true s') = screensaverActive s' /\
   count_events is_stop (new_events s' (applyFetchResults env true s')) = 0).
Proof.
  intros Hlock Hv s'. subst s'. split; [|split].
  - intros Hw. rewrite (fetchTask_cycle_publish inp s Hw Hlock) in *.
    cbn [publish fetchResult set_channel] in *.
    apply build_result_invalid, Hv.
  - intros Hw. unfold fetchTask_cycle. rewrite Hw, Hlock. repeat split.
  - set (s' := fetchTask_cycle inp s) in *.
    rewrite applyFetchResults_locked.
    set (s0 := set_channel (fetchResult s') false s').
    destruct (apply_result_invalid env (fetchResult s') s0 Hv)
      as (Ha & Hi & Hm & Hp & Hs & _ & _ & _ & _ & _ & _ & Hstop & _).
    change (new_events s') with (new_events s0).
    rewrite Ha, Hi, Hm, Hp, Hs, Hstop. repeat split.
Qed.

Lemma invalid_snapshot_witness :
  statusBarText (fetchResult (fetchTask_cycle (http_failure 503) saver_state))
    = "HTTP error: 503" /\
  screensaverActive
    (applyFetchResults demo_env true
       (fetchTask_cycle (http_failure 503) saver_state)) = true.
Proof.
  destruct (invalid_snapshot demo_env (http_failure 503) saver_state
              eq_refl eq_refl) as (Hhttp & _ & Happly).
  destruct (Hhttp eq_refl) as (_ & _ & Htext).
  destruct Happly as (_ & _ & _ & _ & Hsaver & _).
  split; [exact Htext|]. rewrite Hsaver. reflexivity.
Defined.

(** ** Fixed-width conversions and the random source *)

Lemma to_int16_small v : (-32768 <= v < 32768)%Z -> to_int16 v = v.
Proof.
  intros H. unfold to_int16.
  rewrite Z.mod_small by lia. lia.
Qed.

Lemma to_uint8_small v : (0 <= v < 256)%Z -> to_uint8 v = v.
Proof. intros H. unfold to_uint8. apply Z.mod_small, H. Qed.

Lemma random_below_range howbig e :
  (0 < howbig)%Z -> (0 <= random_below howbig e < howbig)%Z.
Proof.
  intros H. unfold random_below.
  destruct (Z.leb_spec howbig 0); [lia|]. apply Z.mod_pos_bound, H.
Qed.

Lemma random_range_range lo hi e :
  (lo < hi)%Z -> (lo <= random_range lo hi e < hi)%Z.
Proof.
  intros H. unfold random_range.
  destruct (Z.leb_spec hi lo); [lia|].
  pose proof (random_below_range (hi - lo) e ltac:(lia)). lia.
Qed.

(** ** matrixDrawFrame: the life of a column *)

Section ColumnLife.

Variable env : Env.

Lemma respawn_column_fresh k col :
  active col = false -> active (fst (respawn_column env k col)) = true ->
  let col1 := fst (respawn_column env k col) in
  (-119 <= headY col1 <= 0)%Z /\ (14 <= speed col1 <= 25)%Z /\
  (8 <= col_length col1 <= 23)%Z.
Proof.
  intros Hin Hact. unfold respawn_column in *. rewrite Hin in *.
  destruct (0 <? spawnDelay col)%Z; cbn [fst active] in Hact.
  - congruence.
  - cbn [fst spawn_column headY speed col_length].
    pose proof (random_below_range (MATRIX_CHAR_H * 4) (entropy_at env k) eq_refl) as Hh.
    pose proof (random_range_range 14 26 (entropy_at env (k + 1)) eq_refl) as Hs.
    pose proof (random_range_range 8 24 (entropy_at env (k + 2)) eq_refl) as Hl.
    change (MATRIX_CHAR_H * 4)%Z with 120%Z in *.
    rewrite !to_int16_small by lia. lia.
Qed.

Lemma advance_column_retired k col :
  active col = true -> active (fst (advance_column env k col)) = false ->
  (5 <= spawnDelay (fst (advance_column env k col)) <= 39)%Z.
Proof.
  intros Hact Hoff. unfold advance_column in *. rewrite Hact in *.
  destruct (screenH env <? _)%Z; cbn [fst active spawnDelay] in *.
  - pose proof (random_range_range 5 40 (entropy_at env k) eq_refl) as Hr.
    rewrite to_uint8_small by lia. lia.
  - congruence.
Qed.

Lemma advance_column_keeps k col :
  speed (fst (advance_column env k col)) = speed col /\
  col_length (fst (advance_column env k col)) = col_length col /\
  (active col = true ->
   headY (fst (advance_column env k col)) = to_int16 (headY col + speed col)).
Proof.
  unfold advance_column. destruct (active col); [|repeat split; discriminate].
  destruct (screenH env <? _)%Z; repeat split.
Qed.

(** A retired column counts its delay down, one per tick, without drawing
    any random number, and is respawned by the tick after. *)
Lemma tick_column_countdown k col :
  active col = false -> (0 <= spawnDelay col <= 255)%Z ->
  let out := tick_column env (Z.to_nat (spawnDelay col)) k col in
  active (fst out) = false /\ spawnDelay (fst out) = 0%Z /\ snd out = k /\
  active (fst (respawn_column env k (fst out))) = true.
Proof.
  intros Hin Hd.
  remember (Z.to_nat (spawnDelay col)) as n eqn:Hn.
  revert col Hin Hd Hn. induction n as [|n IH]; intros col Hin Hd Hn.
  - cbn [tick_column fst snd]. assert (spawnDelay col = 0%Z) as H0 by lia.
    repeat split; try assumption.
    unfold respawn_column. rewrite Hin, H0. reflexivity.
  - cbn [tick_column]. unfold update_column, respawn_column.
    rewrite Hin. destruct (Z.ltb_spec 0 (spawnDelay col)); [|lia].
    unfold advance_column. cbn [active]. rewrite ?Hin.
    apply IH; cbn [active spawnDelay].
    + reflexivity.
    + rewrite to_uint8_small by lia. lia.
    + rewrite to_uint8_small by lia. lia.
Qed.

(** C7.  In a tick, a column that the advance block retires is given a
    respawn delay greater than zero (between 5 and 39); a retired column
    comes back after that many ticks of countdown; and the respawn block
    gives it a head position of at most 0, a speed within [14, 25] and a
    trail length within [8, 23]; speed and length are those the tick ends
    with, and the advance block of that same tick moves the head down by
    the speed. *)
Theorem column_lifecycle k col :
  let col1 := fst (respawn_column env k col) in
  let col' := fst (update_column env k col) in
  (active col1 = true -> active col' = false ->
   (0 < spawnDelay col')%Z /\ (5 <= spawnDelay col' <= 39)%Z) /\
  (active col = false -> (0 <= spawnDelay col <= 255)%Z ->
   let out := tick_column env (Z.to_nat (spawnDelay col)) k col in
   active (fst out) = false /\
   active (fst (respawn_column env (snd out) (fst out))) = true) /\
  (active col = false -> active col1 = true ->
   (headY col1 <= 0)%Z /\ (-119 <= headY col1)%Z /\
   (14 <= speed col1 <= 25)%Z /\ (8 <= col_length col1 <= 23)%Z /\
   speed col' = speed col1 /\ col_length col' = col_length col1 /\
   headY col' = (headY col1 + speed col1)%Z).
Proof.
  intros col1 col'. subst col1 col'. unfold update_column.
  destruct (respawn_column env k col) as [col1 k1] eqn:Hre. cbn [fst].
  split; [|split].
  - intros Hact Hoff.
    pose proof (advance_column_retired k1 col1 Hact Hoff). lia.
  - intros Hin Hd.
    destruct (tick_column_countdown k col Hin Hd) as (Hoff & _ & Hk & Hon).
    rewrite Hk. split; assumption.
  - intros Hin Hact.
    pose proof (respawn_column_fresh k col Hin) as Hfresh.
    rewrite Hre in Hfresh. cbn [fst] in Hfresh.
    destruct (Hfresh Hact) as (Hh & Hs & Hl).
    destruct (advance_column_keeps k1 col1) as (Ks & Kl & Kh).
    rewrite Ks, Kl, (Kh Hact), to_int16_small by lia. repeat split; lia.
Qed.

End ColumnLife.

Lemma column_lifecycle_witness :
  (0 < spawnDelay
         (fst (update_column demo_env 0
                 {| headY := 1400; speed := 20; col_length := 8;
                    active := true; spawnDelay := 0 |})))%Z /\
  (headY (fst (respawn_column demo_env 0 zero_column)) <= 0)%Z.
Proof.
  split.
  - apply (column_lifecycle demo_env 0
             {| headY := 1400; speed := 20; col_length := 8;
                active := true; spawnDelay := 0 |}); reflexivity.
  - apply (column_lifecycle demo_env 0 zero_column); reflexivity.
Defined.

(** ** RGB565 packing *)

(** Bits shifted above position [n] do not meet a value below [2 ^ n]. *)
Lemma lor_shiftl_add a x n :
  (0 <= n)%Z -> (0 <= x < 2 ^ n)%Z ->
  Z.lor (Z.shiftl a n) x = (a * 2 ^ n + x)%Z.
Proof.
  intros Hn Hx.
  assert (Hdis : Z.land (Z.shiftl a n) x = 0%Z).
  { apply Z.bits_inj'. intros i Hi. rewrite Z.land_spec, Z.bits_0.
    destruct (Z.lt_ge_cases i n) as [Hlt|Hge].
    - rewrite Z.shiftl_spec_low by exact Hlt. reflexivity.
    - destruct (Z.eq_dec x 0%Z) as [->|Hx0].
      + rewrite Z.bits_0, andb_false_r. reflexivity.
      + rewrite (Z.bits_above_log2 x i), andb_false_r; [reflexivity|lia|].
        apply Z.log2_lt_pow2; [lia|].
        assert (2 ^ n <= 2 ^ i)%Z by (apply Z.pow_le_mono_r; lia). lia. }
  rewrite <- Z.lxor_lor by exact Hdis.
  rewrite <- Z.add_nocarry_lxor by exact Hdis.
  rewrite Z.shiftl_mul_pow2 by exact Hn. reflexivity.
Qed.

Lemma pack565_sum r g b :
  (0 <= g < 64)%Z -> (0 <= b < 32)%Z ->
  pack565 r g b = (r * 2048 + g * 32 + b)%Z.
Proof.
  intros Hg Hb. unfold pack565.
  rewrite (Z.shiftl_mul_pow2 g 5) by lia.
  rewrite (lor_shiftl_add r (g * 2 ^ 5) 11) by lia.
  replace (r * 2 ^ 11 + g * 2 ^ 5)%Z with (Z.shiftl (r * 64 + g) 5)
    by (rewrite Z.shiftl_mul_pow2 by lia; lia).
  rewrite (lor_shiftl_add (r * 64 + g) b 5) by lia. lia.
Qed.

Lemma red565_spec c : red565 c = ((c / 2048) mod 32)%Z.
Proof.
  unfold red565. rewrite Z.shiftr_div_pow2 by lia.
  change 31%Z with (Z.ones 5). rewrite Z.land_ones by lia. reflexivity.
Qed.

Lemma green565_spec c : green565 c = ((c / 32) mod 64)%Z.
Proof.
  unfold green565. rewrite Z.shiftr_div_pow2 by lia.
  change 63%Z with (Z.ones 6). rewrite Z.land_ones by lia. reflexivity.
Qed.

Lemma blue565_spec c : blue565 c = (c mod 32)%Z.
Proof.
  unfold blue565. change 31%Z with (Z.ones 5).
  rewrite Z.land_ones by lia. reflexivity.
Qed.

Lemma channel_ranges c :
  (0 <= red565 c <= 31)%Z /\ (0 <= green565 c <= 63)%Z /\ (0 <= blue565 c <= 31)%Z.
Proof.
  rewrite red565_spec, green565_spec, blue565_spec.
  pose proof (Z.mod_pos_bound (c / 2048) 32 eq_refl).
  pose proof (Z.mod_pos_bound (c / 32) 64 eq_refl).
  pose proof (Z.mod_pos_bound c 32 eq_refl). lia.
Qed.

(** Unpacking what was packed. *)
Lemma pack565_channels r g b :
  (0 <= r < 32)%Z -> (0 <= g < 64)%Z -> (0 <= b < 32)%Z ->
  red565 (pack565 r g b) = r /\ green565 (pack565 r g b) = g /\
  blue565 (pack565 r g b) = b /\ (0 <= pack565 r g b < 65536)%Z.
Proof.
  intros Hr Hg Hb.
  rewrite red565_spec, green565_spec, blue565_spec, pack565_sum by assumption.
  assert (E1 : ((r * 2048 + g * 32 + b) / 2048 = r)%Z).
  { symmetry. apply (Z.div_unique _ _ _ (g * 32 + b)); lia. }
  assert (E2 : ((r * 2048 + g * 32 + b) / 32 = r * 64 + g)%Z).
  { symmetry. apply (Z.div_unique _ _ _ b); lia. }
  assert (E3 : ((r * 2048 + g * 32 + b) mod 32 = b)%Z).
  { symmetry. apply (Z.mod_unique _ _ (r * 64 + g)); lia. }
  rewrite E1, E2, E3.
  rewrite (Z.mod_small r 32) by lia.
  replace (r * 64 + g)%Z with (g + r * 64)%Z by lia.
  rewrite Z.mod_add by lia. rewrite (Z.mod_small g 64) by lia.
  repeat split; lia.
Qed.

(** ** matrixDrawFrame: the fade of a cell *)

Lemma fade_color_pack c :
  fade_color c =
  pack565 (Z.max 0 (red565 c - 2)) (Z.max 0 (green565 c - 4))
          (Z.max 0 (blue565 c - 2)).
Proof.
  destruct (channel_ranges c) as (Hr & Hg & Hb).
  unfold fade_color. fold (red565 c) (green565 c) (blue565 c).
  replace (if (2 <? red565 c)%Z then (red565 c - 2)%Z else 0%Z)
    with (Z.max 0 (red565 c - 2)) by (destruct (Z.ltb_spec 2 (red565 c)); lia).
  replace (if (4 <? green565 c)%Z then (green565 c - 4)%Z else 0%Z)
    with (Z.max 0 (green565 c - 4)) by (destruct (Z.ltb_spec 4 (green565 c)); lia).
  replace (if (2 <? blue565 c)%Z then (blue565 c - 2)%Z else 0%Z)
    with (Z.max 0 (blue565 c - 2)) by (destruct (Z.ltb_spec 2 (blue565 c)); lia).
  fold (pack565 (Z.max 0 (red565 c - 2)) (Z.max 0 (green565 c - 4))
                (Z.max 0 (blue565 c - 2))).
  unfold to_uint16. apply Z.mod_small.
  apply pack565_channels; lia.
Qed.

(** One fade takes 2, 4 and 2 off the three channels, stopping at zero. *)
Lemma fade_color_channels c :
  red565 (fade_color c) = Z.max 0 (red565 c - 2) /\
  green565 (fade_color c) = Z.max 0 (green565 c - 4) /\
  blue565 (fade_color c) = Z.max 0 (blue565 c - 2) /\
  (0 <= fade_color c < 65536)%Z.
Proof.
  destruct (channel_ranges c) as (Hr & Hg & Hb).
  rewrite fade_color_pack. apply pack565_channels; lia.
Qed.

Lemma fade_color_zero_channels c :
  red565 c = 0%Z -> green565 c = 0%Z -> blue565 c = 0%Z -> fade_color c = 0%Z.
Proof. intros Hr Hg Hb. rewrite fade_color_pack, Hr, Hg, Hb. reflexivity. Qed.

Lemma fade_color_iter n c :
  red565 (Nat.iter n fade_color c) = Z.max 0 (red565 c - 2 * Z.of_nat n) /\
  green565 (Nat.iter n fade_color c) = Z.max 0 (green565 c - 4 * Z.of_nat n) /\
  blue565 (Nat.iter n fade_color c) = Z.max 0 (blue565 c - 2 * Z.of_nat n).
Proof.
  destruct (channel_ranges c) as (Hr & Hg & Hb).
  induction n as [|n (IHr & IHg & IHb)].
  - change (Nat.iter 0 fade_color c) with c. lia.
  - rewrite Nat.iter_succ.
    destruct (fade_color_channels (Nat.iter n fade_color c)) as (Fr & Fg & Fb & _).
    rewrite Fr, Fg, Fb, IHr, IHg, IHb. lia.
Qed.

(** Sixteen fades black out any colour. *)
Lemma fade_color_black n c : 16 <= n -> Nat.iter n fade_color c = 0%Z.
Proof.
  intros Hn. destruct n as [|n]; [lia|]. rewrite Nat.iter_succ.
  destruct (channel_ranges c) as (Hr & Hg & Hb).
  destruct (fade_color_iter n c) as (Ir & Ig & Ib).
  rewrite fade_color_pack, Ir, Ig, Ib.
  replace (Z.max 0 (Z.max 0 (red565 c - 2 * Z.of_nat n) - 2)) with 0%Z by lia.
  replace (Z.max 0 (Z.max 0 (green565 c - 4 * Z.of_nat n) - 4)) with 0%Z by lia.
  replace (Z.max 0 (Z.max 0 (blue565 c - 2 * Z.of_nat n) - 2)) with 0%Z by lia.
  reflexivity.
Qed.

Lemma fade_color_0 : fade_color 0 = 0%Z.
Proof. reflexivity. Qed.

(** Outside the trail a tick fades the colour and nothing else. *)
Lemma render_cell_outside env sev col row glyph color k :
  in_trail col row = false ->
  render_cell env sev col row glyph color k = (glyph, fade_color color, k).
Proof.
  intros Hout. unfold render_cell. rewrite Hout.
  destruct (Z.eqb_spec color 0) as [->|Hne]; reflexivity.
Qed.

(** ** The column loops *)

Lemma for_columns_length f n cols k :
  length (fst (for_columns f n cols k)) = length cols.
Proof.
  revert cols k. induction n as [|n IH]; intros [|col rest] k; try reflexivity.
  cbn [for_columns]. destruct (f k col) as [col' k'].
  specialize (IH rest k'). destruct (for_columns f n rest k') as [rest' k''].
  cbn [fst length] in *. rewrite IH. reflexivity.
Qed.

Lemma for_columns_beyond f n cols k i :
  n <= i -> fst (for_columns f n cols k) !! i = cols !! i.
Proof.
  revert cols k i. induction n as [|n IH]; intros [|col rest] k i Hi;
    try reflexivity.
  cbn [for_columns]. destruct (f k col) as [col' k'].
  specialize (IH rest k'). destruct (for_columns f n rest k') as [rest' k''].
  cbn [fst] in *. destruct i as [|i]; [lia|]. cbn [lookup list_lookup].
  apply IH. lia.
Qed.

(** ** The cell tables *)

Lemma cell_offset_div i row :
  row < MATRIX_ROWS_MAX ->
  cell_offset i row / MATRIX_ROWS_MAX = i /\
  cell_offset i row mod MATRIX_ROWS_MAX = row.
Proof.
  intros Hr. unfold cell_offset. split; symmetry.
  - apply (Nat.div_unique _ _ _ row); [exact Hr|lia].
  - apply (Nat.mod_unique _ _ i); [exact Hr|lia].
Qed.

(** A row past the end of its column is a cell of the next column. *)
Lemma cell_offset_next_column i r :
  cell_offset i (MATRIX_ROWS_MAX + r) = cell_offset (S i) r.
Proof. unfold cell_offset. lia. Qed.

Lemma cell_at_inside table i row :
  i < MATRIX_MAX_COLS -> row < MATRIX_ROWS_MAX ->
  cell_at table i row =
  match table !! i with Some cells => cells !! row | None => None end.
Proof.
  intros Hi Hr. unfold cell_at. cbv zeta.
  destruct (cell_offset_div i row Hr) as [Ed Em]. rewrite Ed, Em.
  destruct (Nat.ltb_spec (cell_offset i row) (MATRIX_MAX_COLS * MATRIX_ROWS_MAX))
    as [|Hge]; [reflexivity|].
  exfalso. unfold cell_offset in Hge. nia.
Qed.

Lemma cell_store_inside table i row v :
  row < MATRIX_ROWS_MAX ->
  cell_store table i row v =
  match table !! i with
  | Some cells => <[i := <[row := v]> cells]> table
  | None => table
  end.
Proof.
  intros Hr. unfold cell_store. cbv zeta.
  destruct (cell_offset_div i row Hr) as [Ed Em]. rewrite Ed, Em. reflexivity.
Qed.

Lemma cell_store_shaped table i row v :
  table_shaped table -> table_shaped (cell_store table i row v).
Proof.
  intros [Hlen Hall]. unfold cell_store. cbv zeta.
  destruct (table !! _) as [cells|] eqn:Hc; [|split; assumption]. split.
  - rewrite length_insert. exact Hlen.
  - apply Forall_insert; [exact Hall|]. rewrite length_insert.
    exact (proj1 (Forall_lookup _ _) Hall _ _ Hc).
Qed.

Lemma table_shaped_lookup table i :
  table_shaped table -> i < MATRIX_MAX_COLS ->
  exists cells, table !! i = Some cells /\ length cells = MATRIX_ROWS_MAX.
Proof.
  intros [Hlen Hall] Hi.
  destruct (lookup_lt_is_Some_2 table i ltac:(lia)) as [cells Hc].
  exists cells. split; [exact Hc|].
  exact (proj1 (Forall_lookup _ _) Hall _ _ Hc).
Qed.

Lemma cell_at_shaped table i row :
  table_shaped table -> i < MATRIX_MAX_COLS -> row < MATRIX_ROWS_MAX ->
  exists v, cell_at table i row = Some v.
Proof.
  intros Hs Hi Hr. rewrite cell_at_inside by assumption.
  destruct (table_shaped_lookup table i Hs Hi) as (cells & -> & Hlen).
  apply lookup_lt_is_Some_2. lia.
Qed.

Lemma cell_at_store_same table i row v :
  table_shaped table -> i < MATRIX_MAX_COLS -> row < MATRIX_ROWS_MAX ->
  cell_at (cell_store table i row v) i row = Some v.
Proof.
  intros Hs Hi Hr. rewrite cell_at_inside, cell_store_inside by assumption.
  destruct (table_shaped_lookup table i Hs Hi) as (cells & -> & Hlen).
  destruct Hs as [Hl _].
  rewrite list_lookup_insert_eq by lia. apply list_lookup_insert_eq. lia.
Qed.

Lemma cell_at_store_other table i row v j r :
  table_shaped table -> i < MATRIX_MAX_COLS -> row < MATRIX_ROWS_MAX ->
  j < MATRIX_MAX_COLS -> r < MATRIX_ROWS_MAX ->
  i <> j \/ row <> r ->
  cell_at (cell_store table i row v) j r = cell_at table j r.
Proof.
  intros Hs Hi Hr Hj Hr' Hne.
  rewrite !cell_at_inside, cell_store_inside by assumption.
  destruct (table_shaped_lookup table i Hs Hi) as (cells & Hc & Hlen).
  rewrite Hc. destruct Hs as [Hl _].
  destruct (Nat.eq_dec i j) as [<-|Hij].
  - rewrite list_lookup_insert_eq, Hc by lia.
    apply list_lookup_insert_ne. destruct Hne; [contradiction|assumption].
  - rewrite list_lookup_insert_ne by exact Hij. reflexivity.
Qed.

(** ** The render loop on a panel the tables were sized for *)

Lemma render_rows_inside env sev col i : forall n row glyphs colors k,
  i < MATRIX_MAX_COLS -> row + n <= MATRIX_ROWS_MAX ->
  table_shaped glyphs -> table_shaped colors ->
  exists glyphs' colors' k',
    render_rows env sev col i n row glyphs colors k = (glyphs', colors', k', true) /\
    table_shaped glyphs' /\ table_shaped colors' /\
    (forall j r, j < MATRIX_MAX_COLS -> r < MATRIX_ROWS_MAX ->
       j <> i \/ r < row \/ row + n <= r ->
       cell_at glyphs' j r = cell_at glyphs j r /\
       cell_at colors' j r = cell_at colors j r) /\
    (forall r, row <= r < row + n ->
       exists kr g c,
         cell_at glyphs i r = Some g /\ cell_at colors i r = Some c /\
         cell_at glyphs' i r =
           Some (fst (fst (render_cell env sev col (Z.of_nat r) g c kr))) /\
         cell_at colors' i r =
           Some (snd (fst (render_cell env sev col (Z.of_nat r) g c kr)))).
Proof.
  induction n as [|n IH]; intros row glyphs colors k Hi Hn HsG HsC.
  - exists glyphs, colors, k. cbn [render_rows].
    split; [reflexivity|]. split; [exact HsG|]. split; [exact HsC|]. split.
    + intros j r _ _ _. split; reflexivity.
    + intros r Hr. lia.
  - cbn [render_rows].
    assert (Hrow : row < MATRIX_ROWS_MAX) by lia.
    destruct (cell_at_shaped glyphs i row HsG Hi Hrow) as [g Hg].
    destruct (cell_at_shaped colors i row HsC Hi Hrow) as [c Hc].
    rewrite Hg, Hc.
    destruct (render_cell env sev col (Z.of_nat row) g c k) as [[g1 c1] k1] eqn:Hcell.
    destruct (IH (S row) (cell_store glyphs i row g1) (cell_store colors i row c1) k1
                Hi ltac:(lia) (cell_store_shaped _ _ _ _ HsG)
                (cell_store_shaped _ _ _ _ HsC))
      as (G' & C' & k' & Heq & HsG' & HsC' & Hout & Hin).
    exists G', C', k'. split; [exact Heq|]. split; [exact HsG'|].
    split; [exact HsC'|]. split.
    + intros j r Hj Hr Hcase.
      destruct (Hout j r Hj Hr ltac:(lia)) as [E1 E2]. rewrite E1, E2.
      split; apply cell_at_store_other; try assumption; lia.
    + intros r Hr. destruct (Nat.eq_dec r row) as [->|Hne].
      * exists k, g, c. split; [exact Hg|]. split; [exact Hc|].
        destruct (Hout i row Hi Hrow ltac:(lia)) as [E1 E2].
        rewrite E1, E2, Hcell. cbn [fst snd].
        split; apply cell_at_store_same; assumption.
      * destruct (Hin r ltac:(lia)) as (kr & g' & c' & Hg' & Hc' & E1 & E2).
        assert (Hr' : r < MATRIX_ROWS_MAX) by lia.
        rewrite cell_at_store_other in Hg', Hc' by (try assumption; lia).
        exists kr, g', c'. repeat split; assumption.
Qed.

Lemma render_columns_inside env sev : forall n i cols glyphs colors k,
  num_rows env <= MATRIX_ROWS_MAX -> i + n <= MATRIX_MAX_COLS ->
  table_shaped glyphs -> table_shaped colors ->
  exists glyphs' colors' k' evs,
    render_columns env sev n i cols glyphs colors k = (glyphs', colors', k', evs) /\
    table_shaped glyphs' /\ table_shaped colors' /\
    count_events is_fault evs = 0 /\
    (forall j r, j < MATRIX_MAX_COLS -> r < MATRIX_ROWS_MAX ->
       j < i \/ i + n <= j \/ i + length cols <= j \/ num_rows env <= r ->
       cell_at glyphs' j r = cell_at glyphs j r /\
       cell_at colors' j r = cell_at colors j r) /\
    (forall j r col, i <= j < i + n -> cols !! (j - i) = Some col ->
       r < num_rows env ->
       exists kr g c,
         cell_at glyphs j r = Some g /\ cell_at colors j r = Some c /\
         cell_at glyphs' j r =
           Some (fst (fst (render_cell env sev col (Z.of_nat r) g c kr))) /\
         cell_at colors' j r =
           Some (snd (fst (render_cell env sev col (Z.of_nat r) g c kr)))).
Proof.
  induction n as [|n IH]; intros i cols glyphs colors k Hrows Hn HsG HsC.
  - exists glyphs, colors, k, []. cbn [render_columns].
    split; [reflexivity|]. split; [exact HsG|]. split; [exact HsC|].
    split; [reflexivity|]. split.
    + intros j r _ _ _. split; reflexivity.
    + intros j r col Hj. lia.
  - destruct cols as [|col cols].
    + exists glyphs, colors, k, []. cbn [render_columns].
      split; [reflexivity|]. split; [exact HsG|]. split; [exact HsC|].
      split; [reflexivity|]. split.
      * intros j r _ _ _. split; reflexivity.
      * intros j r col Hj Hlook. rewrite lookup_nil in Hlook. discriminate.
    + cbn [render_columns].
      destruct (render_rows_inside env sev col i (num_rows env) 0 glyphs colors k
                  ltac:(lia) ltac:(lia) HsG HsC)
        as (G1 & C1 & k1 & Heq1 & HsG1 & HsC1 & Hout1 & Hin1).
      rewrite Heq1.
      destruct (IH (S i) cols G1 C1 k1 Hrows ltac:(lia) HsG1 HsC1)
        as (G' & C' & k' & evs & Heq & HsG' & HsC' & Hfault & Hout & Hin).
      rewrite Heq.
      exists G', C', k', (PushSprite (to_int16 (Z.of_nat i * MATRIX_CHAR_W)) :: evs).
      split; [reflexivity|]. split; [exact HsG'|]. split; [exact HsC'|].
      split; [exact Hfault|]. split.
      * intros j r Hj Hr Hcase. cbn [length] in Hcase.
        destruct (Hout j r Hj Hr ltac:(lia)) as [E1 E2]. rewrite E1, E2.
        apply Hout1; try assumption. lia.
      * intros j r col' Hj Hlook Hr.
        assert (Hr' : r < MATRIX_ROWS_MAX) by lia.
        destruct (Nat.eq_dec j i) as [->|Hne].
        -- rewrite Nat.sub_diag in Hlook. cbn in Hlook. inversion Hlook; subst col'.
           destruct (Hin1 r ltac:(lia)) as (kr & g & c & Hg & Hc & E1 & E2).
           exists kr, g, c. split; [exact Hg|]. split; [exact Hc|].
           destruct (Hout i r ltac:(lia) Hr' ltac:(lia)) as [F1 F2].
           rewrite F1, F2. split; assumption.
        -- replace (j - i) with (S (j - S i)) in Hlook by lia.
           cbn [lookup list_lookup] in Hlook.
           destruct (Hin j r col' ltac:(lia) Hlook Hr)
             as (kr & g & c & Hg & Hc & E1 & E2).
           destruct (Hout1 j r ltac:(lia) Hr' ltac:(lia)) as [F1 F2].
           rewrite F1 in Hg. rewrite F2 in Hc.
           exists kr, g, c. repeat split; assumption.
Qed.

(** What a frame does to the tables of a panel of at most
    [MATRIX_ROWS_MAX] rows: it stays inside them, leaves the cells outside
    the grid in use, and gives each cell of the grid the outcome of
    [render_cell] on its glyph and colour for the column as updated. *)
Lemma matrixDrawFrame_cells env s :
  colSprite s = true -> tables_shaped s -> num_rows env <= MATRIX_ROWS_MAX ->
  let s' := matrixDrawFrame env s in
  colSprite s' = true /\ tables_shaped s' /\
  count_events is_fault (new_events s s') = 0 /\
  (forall j, num_cols env <= j -> matrixCols s' !! j = matrixCols s !! j) /\
  (forall j r, j < MATRIX_MAX_COLS -> r < MATRIX_ROWS_MAX ->
     num_cols env <= j \/ num_rows env <= r ->
     cell_at (matrixGlyphIdx s') j r = cell_at (matrixGlyphIdx s) j r /\
     cell_at (matrixColors s') j r = cell_at (matrixColors s) j r) /\
  (forall j r, j < num_cols env -> r < num_rows env ->
     exists kr g c,
       cell_at (matrixGlyphIdx s) j r = Some g /\
       cell_at (matrixColors s) j r = Some c /\
       cell_at (matrixGlyphIdx s') j r =
         Some (fst (fst (render_cell env (matrixSeverity s) (column_at s' j)
                           (Z.of_nat r) g c kr))) /\
       cell_at (matrixColors s') j r =
         Some (snd (fst (render_cell env (matrixSeverity s) (column_at s' j)
                           (Z.of_nat r) g c kr)))).
Proof.
  intros Hspr (Hlen & HsG & HsC) Hrows. unfold matrixDrawFrame.
  cbn [colSprite emit matrixCols rnd matrixSeverity matrixGlyphIdx matrixColors].
  rewrite Hspr. cbn [negb].
  pose proof (for_columns_length (update_column env) (num_cols env)
                (matrixCols s) (rnd s)) as Hlen'.
  pose proof (for_columns_beyond (update_column env) (num_cols env)
                (matrixCols s) (rnd s)) as Hbeyond.
  destruct (for_columns (update_column env) (num_cols env) (matrixCols s) (rnd s))
    as [cols k]. cbn [fst] in Hlen', Hbeyond.
  assert (Hcols : num_cols env <= MATRIX_MAX_COLS) by (unfold num_cols; lia).
  destruct (render_columns_inside env (matrixSeverity s) (num_cols env) 0 cols
              (matrixGlyphIdx s) (matrixColors s) k Hrows ltac:(lia) HsG HsC)
    as (G' & C' & k' & evs & Heq & HsG' & HsC' & Hfault & Hout & Hin).
  rewrite Heq. unfold tables_shaped, column_at.
  cbn [colSprite emit set_matrix matrixCols matrixGlyphIdx matrixColors].
  split; [exact Hspr|]. split; [repeat split; try apply HsG'; try apply HsC'; lia|].
  split.
  { rewrite (new_events_emit s _ (Call_matrixDrawFrame :: evs)).
    - unfold count_events in *. cbn [List.filter is_fault]. exact Hfault.
    - cbn [screen emit set_matrix]. rewrite <- app_assoc. reflexivity. }
  split; [exact Hbeyond|]. split.
  - intros j r Hj Hr Hcase. apply Hout; try assumption. lia.
  - intros j r Hj Hr.
    destruct (lookup_lt_is_Some_2 cols j ltac:(lia)) as [col Hcol].
    rewrite Hcol. cbn [default]. apply Hin; [lia| |exact Hr].
    rewrite Nat.sub_0_r. exact Hcol.
Qed.

Lemma frames_keep_tables env s n :
  colSprite s = true -> tables_shaped s -> num_rows env <= MATRIX_ROWS_MAX ->
  colSprite (frames env n s) = true /\ tables_shaped (frames env n s).
Proof.
  intros Hspr Hs Hrows. induction n as [|n [IH1 IH2]]; [split; assumption|].
  unfold frames in *. rewrite Nat.iter_succ.
  destruct (matrixDrawFrame_cells env _ IH1 IH2 Hrows) as (H1 & H2 & _).
  split; assumption.
Qed.

(** One tick on a cell outside the trail of its column. *)
Lemma frame_fades_cell env s i row :
  colSprite s = true -> tables_shaped s -> num_rows env <= MATRIX_ROWS_MAX ->
  i < num_cols env -> row < num_rows env ->
  in_trail (column_at (matrixDrawFrame env s) i) (Z.of_nat row) = false ->
  cell_color (matrixDrawFrame env s) i row = fade_color (cell_color s i row) /\
  cell_glyph (matrixDrawFrame env s) i row = cell_glyph s i row.
Proof.
  intros Hspr Hs Hrows Hi Hr Hout.
  destruct (matrixDrawFrame_cells env s Hspr Hs Hrows) as (_ & _ & _ & _ & _ & Hin).
  destruct (Hin i row Hi Hr) as (kr & g & c & Hg & Hc & E1 & E2).
  unfold cell_color, cell_glyph. rewrite E1, E2, Hg, Hc.
  rewrite render_cell_outside by exact Hout. split; reflexivity.
Qed.

Lemma frames_fade_cell env s i row n :
  colSprite s = true -> tables_shaped s -> num_rows env <= MATRIX_ROWS_MAX ->
  i < num_cols env -> row < num_rows env ->
  (forall j, 1 <= j <= n ->
     in_trail (column_at (frames env j s) i) (Z.of_nat row) = false) ->
  cell_color (frames env n s) i row = Nat.iter n fade_color (cell_color s i row).
Proof.
  intros Hspr Hs Hrows Hi Hr. induction n as [|n IH]; intros Hout; [reflexivity|].
  destruct (frames_keep_tables env s n Hspr Hs Hrows) as [Hspr' Hs'].
  pose proof (Hout (S n) ltac:(lia)) as Hlast.
  unfold frames in *. rewrite !Nat.iter_succ in *.
  destruct (frame_fades_cell env _ i row Hspr' Hs' Hrows Hi Hr Hlast) as [-> _].
  rewrite IH; [reflexivity|]. intros j Hj. apply Hout. lia.
Qed.

(** C8.  On a panel of at most [MATRIX_ROWS_MAX] rows, a tick of the
    animation, that is a call of [matrixDrawFrame] with the sprite in
    place, treats a cell of the grid that lies outside the trail of its
    column as follows: a nonzero colour has its red and blue channels
    lowered by 2 and its green channel by 4, each stopping at zero, so
    that every nonzero channel strictly decreases; a colour of zero stays
    zero; the glyph is kept.  Over successive ticks that leave the cell
    outside the trail the colour is faded once a tick, and from the
    sixteenth on it is zero, until a trail reaches the cell again. *)
Theorem trail_fade env s i row :
  colSprite s = true -> tables_shaped s -> num_rows env <= MATRIX_ROWS_MAX ->
  i < num_cols env -> row < num_rows env ->
  let s' := matrixDrawFrame env s in
  let color := cell_color s i row in
  let color' := cell_color s' i row in
  (in_trail (column_at s' i) (Z.of_nat row) = false ->
   (color <> 0%Z ->
      red565 color' = Z.max 0 (red565 color - 2) /\
      green565 color' = Z.max 0 (green565 color - 4) /\
      blue565 color' = Z.max 0 (blue565 color - 2) /\
      ((0 < red565 color)%Z -> (red565 color' < red565 color)%Z) /\
      ((0 < green565 color)%Z -> (green565 color' < green565 color)%Z) /\
      ((0 < blue565 color)%Z -> (blue565 color' < blue565 color)%Z)) /\
   (color = 0%Z -> color' = 0%Z) /\
   (red565 color = 0%Z -> green565 color = 0%Z -> blue565 color = 0%Z ->
    color' = 0%Z) /\
   cell_glyph s' i row = cell_glyph s i row) /\
  (forall n,
     (forall j, 1 <= j <= n ->
        in_trail (column_at (frames env j s) i) (Z.of_nat row) = false) ->
     cell_color (frames env n s) i row = Nat.iter n fade_color color /\
     (16 <= n -> cell_color (frames env n s) i row = 0%Z)).
Proof.
  intros Hspr Hs Hrows Hi Hr s' color color'. subst s' color color'.
  split.
  - intros Hout.
    destruct (frame_fades_cell env s i row Hspr Hs Hrows Hi Hr Hout) as [Ec Eg].
    rewrite Ec.
    destruct (fade_color_channels (cell_color s i row)) as (Fr & Fg & Fb & _).
    split; [|split; [|split]].
    + intros _. rewrite Fr, Fg, Fb. repeat split; lia.
    + intros ->. reflexivity.
    + apply fade_color_zero_channels.
    + exact Eg.
  - intros n Hout.
    pose proof (frames_fade_cell env s i row n Hspr Hs Hrows Hi Hr Hout) as Hn.
    split; [exact Hn|].
    intros Hlen. rewrite Hn. apply fade_color_black, Hlen.
Qed.

Lemma zero_grid_shaped : table_shaped zero_grid.
Proof.
  split; [apply length_replicate|].
  apply Forall_replicate, length_replicate.
Qed.

Lemma initial_tables_shaped : tables_shaped initial_state.
Proof.
  split; [apply length_replicate|]. split; apply zero_grid_shaped.
Qed.

Lemma trail_fade_witness :
  red565 (cell_color (matrixDrawFrame demo_env fading_state) 0 3) = 29%Z.
Proof.
  assert (Hs : tables_shaped fading_state).
  { split; [apply length_replicate|]. split; [apply zero_grid_shaped|].
    apply cell_store_shaped, zero_grid_shaped. }
  destruct (trail_fade demo_env fading_state 0 3 eq_refl Hs
              ltac:(vm_compute; lia) ltac:(vm_compute; lia) ltac:(vm_compute; lia))
    as (Hone & _).
  destruct (Hone ltac:(vm_compute; reflexivity)) as (Hfade & _).
  destruct (Hfade ltac:(vm_compute; discriminate)) as (Hred & _).
  rewrite Hred. reflexivity.
Defined.

(** ** The passes of loop *)

Lemma render_columns_log env sev n : forall i cols glyphs colors k,
  let evs := snd (render_columns env sev n i cols glyphs colors k) in
  count_events is_stop evs = 0 /\ count_events is_frame evs = 0.
Proof.
  induction n as [|n IH]; intros i cols glyphs colors k; cbn [render_columns].
  - split; reflexivity.
  - destruct cols as [|col cols]; [split; reflexivity|].
    destruct (render_rows env sev col i (num_rows env) 0 glyphs colors k)
      as [[[glyphs1 colors1] k1] ok].
    destruct ok; [|split; reflexivity].
    specialize (IH (S i) cols glyphs1 colors1 k1).
    destruct (render_columns env sev n (S i) cols glyphs1 colors1 k1)
      as [[[gs cs] k2] evs].
    cbn [snd] in *. unfold count_events in *. cbn [List.filter is_stop is_frame].
    exact IH.
Qed.

Lemma matrixDrawFrame_fields env s :
  let s' := matrixDrawFrame env s in
  screensaverActive s' = screensaverActive s /\
  fetchResult s' = fetchResult s /\
  newDataReady s' = newDataReady s /\
  prevStatus s' = prevStatus s /\
  clk s' = clk s /\
  lastTouchTime s' = lastTouchTime s /\
  count_events is_stop (new_events s s') = 0 /\
  count_events is_frame (new_events s s') = 1 /\
  extends s s'.
Proof.
  unfold matrixDrawFrame.
  cbn [colSprite matrixCols rnd matrixSeverity matrixGlyphIdx matrixColors emit].
  destruct (colSprite s); cbn [negb].
  - destruct (for_columns (update_column env) (num_cols env) (matrixCols s) (rnd s))
      as [cols k].
    pose proof (render_columns_log env (matrixSeverity s) (num_cols env) 0 cols
                  (matrixGlyphIdx s) (matrixColors s) k) as Hlog.
    destruct (render_columns env (matrixSeverity s) (num_cols env) 0 cols
                (matrixGlyphIdx s) (matrixColors s) k) as [[[glyphs colors] k'] evs].
    cbn [snd] in Hlog. destruct Hlog as [Hstop Hframe].
    unfold new_events, extends. cbn [screen set_matrix emit].
    rewrite <- !app_assoc, drop_app_length.
    repeat split.
    + unfold count_events in *. cbn [List.filter is_stop app]. exact Hstop.
    + unfold count_events in *. cbn [List.filter is_frame app length].
      rewrite Hframe. reflexivity.
    + eexists. reflexivity.
  - unfold new_events, extends. cbn [screen emit]. rewrite drop_app_length.
    repeat split. eexists. reflexivity.
Qed.

Lemma matrixStartScreensaver_fields env s :
  let s' := matrixStartScreensaver env s in
  screensaverActive s' = true /\
  colSprite s' = true /\
  fetchResult s' = fetchResult s /\
  newDataReady s' = newDataReady s /\
  prevStatus s' = prevStatus s /\
  clk s' = S (clk s) /\
  lastTouchTime s' = lastTouchTime s /\
  lastFrameTime s' = to_uint32 (millis_at env (clk s)) /\
  count_events is_stop (new_events s s') = 0 /\
  count_events is_frame (new_events s s') = 0 /\
  extends s s'.
Proof.
  unfold matrixStartScreensaver, matrixInit.
  cbn [matrixCols rnd emit set_screensaverActive set_colSprite].
  destruct (for_columns (init_column env) (num_cols env) (matrixCols s) (rnd s))
    as [cols k].
  unfold millis. cbn -[to_uint32 zero_grid new_events count_events].
  assert (Hscr : forall s', screen s' =
            ((screen s ++ [Call_matrixStartScreensaver]) ++ [FillScreen])%list ->
            count_events is_stop (new_events s s') = 0 /\
            count_events is_frame (new_events s s') = 0 /\ extends s s').
  { intros s' Hs'. rewrite <- app_assoc in Hs'.
    rewrite (new_events_emit _ _ _ Hs'). repeat split. eexists. exact Hs'. }
  repeat split; apply Hscr; reflexivity.
Qed.

Lemma loop_touch_none env inp s :
  (touchCount inp <= 0)%Z -> loop_touch env inp s = s.
Proof.
  intros H. unfold loop_touch. destruct (Z.ltb_spec 0 (touchCount inp)); [lia|reflexivity].
Qed.

(** A touch: the idle clock restarts, and a running screensaver stops. *)
Lemma loop_touch_some env inp s :
  (0 < touchCount inp)%Z ->
  let s' := loop_touch env inp s in
  screensaverActive s' = false /\
  fetchResult s' = fetchResult s /\
  newDataReady s' = newDataReady s /\
  prevStatus s' = prevStatus s /\
  hasUnresolvedIncidents s' = hasUnresolvedIncidents s /\
  clk s' = (if screensaverActive s then S (S (clk s)) else S (clk s)) /\
  lastTouchTime s' =
    to_uint32 (millis_at env (if screensaverActive s then S (clk s) else clk s)) /\
  count_events is_stop (new_events s s') = (if screensaverActive s then 1 else 0) /\
  count_events is_frame (new_events s s') = 0 /\
  extends s s'.
Proof.
  intros H. unfold loop_touch.
  destruct (Z.ltb_spec 0 (touchCount inp)); [|lia].
  unfold millis. cbn [screensaverActive set_lastTouchTime set_clk].
  destruct (screensaverActive s) eqn:Hact.
  - set (s0 := set_lastTouchTime _ _).
    destruct (matrixStopScreensaver_fields env s0)
      as (Ha & _ & Ht & Hc & _ & _ & Hi & _ & _ & Hp & Hf & Hn & Hscr).
    destruct (matrixStopScreensaver_counts env s0) as (Hstop & Hframe).
    change (new_events s) with (new_events s0).
    rewrite Ha, Ht, Hc, Hi, Hp, Hf, Hn, Hstop, Hframe.
    repeat split. eexists. exact Hscr.
  - cbn -[to_uint32 new_events extends].
    repeat split; try exact Hact; try apply (extends_refl s);
      change (new_events s _) with (new_events s s);
      rewrite new_events_refl; reflexivity.
Qed.

Lemma loop_touch_channel env inp s :
  fetchResult (loop_touch env inp s) = fetchResult s /\
  newDataReady (loop_touch env inp s) = newDataReady s.
Proof.
  destruct (Z.ltb_spec 0 (touchCount inp)) as [H|H].
  - destruct (loop_touch_some env inp s H) as (_ & Hf & Hn & _). split; assumption.
  - rewrite loop_touch_none by exact H. split; reflexivity.
Qed.

Lemma apply_result_channel env res s :
  fetchResult (apply_result env res s) = fetchResult s /\
  newDataReady (apply_result env res s) = newDataReady s.
Proof.
  destruct (valid res) eqn:Hv.
  - destruct (apply_result_valid env res s Hv) as (_ & _ & _ & _ & _ & Hf & Hn & _).
    split; assumption.
  - destruct (apply_result_invalid env res s Hv)
      as (_ & _ & _ & _ & _ & _ & Hf & Hn & _).
    split; assumption.
Qed.

(** The only pass that writes the channel: the flag falls when the mutex
    is obtained. *)
Lemma loop_apply_channel env inp s :
  fetchResult (loop_apply env inp s) = fetchResult s /\
  newDataReady (loop_apply env inp s) = newDataReady s && negb (consumeLock inp).
Proof.
  unfold loop_apply. destruct (newDataReady s) eqn:Hnew; [|split; [reflexivity|assumption]].
  destruct (consumeLock inp).
  - rewrite applyFetchResults_locked.
    destruct (apply_result_channel env (fetchResult s)
                (set_channel (fetchResult s) false s)) as (Hf & Hn).
    rewrite Hf, Hn. split; reflexivity.
  - rewrite applyFetchResults_unlocked. split; [reflexivity|exact Hnew].
Qed.

Lemma loop_idle_channel env inp s :
  fetchResult (loop_idle env inp s) = fetchResult s /\
  newDataReady (loop_idle env inp s) = newDataReady s.
Proof.
  unfold loop_idle. destruct (_ && _); [|split; reflexivity].
  unfold millis. cbn [lastTouchTime set_clk].
  destruct (_ <=? _)%Z; [|split; reflexivity].
  destruct (matrixStartScreensaver_fields env (set_clk (S (clk s)) s))
    as (_ & _ & Hf & Hn & _).
  rewrite Hf, Hn. split; reflexivity.
Qed.

Lemma loop_animate_fields env inp s :
  let s' := loop_animate env inp s in
  screensaverActive s' = screensaverActive s /\
  fetchResult s' = fetchResult s /\
  newDataReady s' = newDataReady s /\
  count_events is_stop (new_events s s') = 0 /\
  extends s s'.
Proof.
  unfold loop_animate. destruct (_ && _).
  - unfold millis. cbn [lastFrameTime set_clk].
    destruct (_ <=? _)%Z.
    + set (s0 := set_clk (S (clk s)) s).
      destruct (matrixDrawFrame_fields env s0)
        as (Ha & Hf & Hn & _ & _ & _ & Hstop & _ & Hext).
      cbn [screensaverActive fetchResult newDataReady set_lastFrameTime set_clk].
      rewrite Ha, Hf, Hn. repeat split.
      * change (new_events s ?x) with (new_events s0 (matrixDrawFrame env s0)).
        exact Hstop.
      * destruct Hext as [evs Hscr]. exists evs. exact Hscr.
    + cbn [screensaverActive fetchResult newDataReady set_clk].
      change (new_events s _) with (new_events s s). rewrite new_events_refl.
      repeat split. apply (extends_refl s).
  - rewrite new_events_refl. repeat split. apply extends_refl.
Qed.

Lemma loop_animate_inactive env inp s :
  screensaverActive s = false -> loop_animate env inp s = s.
Proof. intros H. unfold loop_animate. rewrite H. reflexivity. Qed.

Lemma loop_idle_active env inp s :
  screensaverActive s = true -> loop_idle env inp s = s.
Proof. intros H. unfold loop_idle. rewrite H. reflexivity. Qed.

(** With the last touch recent enough, the idle check starts nothing. *)
Lemma loop_idle_quiet env inp s :
  screensaverActive s = false ->
  (to_uint32 (to_uint32 (millis_at env (clk s)) - lastTouchTime s)
     < SCREENSAVER_TIMEOUT)%Z ->
  screensaverActive (loop_idle env inp s) = false /\
  new_events s (loop_idle env inp s) = [] /\
  extends s (loop_idle env inp s).
Proof.
  intros Hact Hrecent. unfold loop_idle. rewrite Hact. cbn [negb andb].
  destruct (screenAsleep inp); cbn [negb].
  - rewrite new_events_refl. repeat split; [exact Hact|apply extends_refl].
  - unfold millis. cbn [lastTouchTime set_clk].
    destruct (Z.leb_spec SCREENSAVER_TIMEOUT
                (to_uint32 (to_uint32 (millis_at env (clk s)) - lastTouchTime s)));
      [lia|].
    cbn [screensaverActive set_clk].
    repeat split; [exact Hact|apply (new_events_refl s)|apply (extends_refl s)].
Qed.

Lemma loop_channel env inp s :
  fetchResult (loop env inp s) = fetchResult s /\
  newDataReady (loop env inp s) = newDataReady s && negb (consumeLock inp).
Proof.
  unfold loop.
  destruct (loop_animate_fields env inp
              (loop_idle env inp (loop_apply env inp (loop_touch env inp s))))
    as (_ & Hf4 & Hn4 & _).
  destruct (loop_idle_channel env inp (loop_apply env inp (loop_touch env inp s)))
    as (Hf3 & Hn3).
  destruct (loop_apply_channel env inp (loop_touch env inp s)) as (Hf2 & Hn2).
  destruct (loop_touch_channel env inp s) as (Hf1 & Hn1).
  rewrite Hf4, Hn4, Hf3, Hn3, Hf2, Hn2, Hf1, Hn1. split; reflexivity.
Qed.

(** ** The snapshot channel *)

Lemma loop_apply_idle env inp s :
  newDataReady s = false -> loop_apply env inp s = s.
Proof. intros H. unfold loop_apply. rewrite H. reflexivity. Qed.

(** A full result published over whatever the cycle before left. *)
Lemma fetchTask_cycle_overwrites pA pB s :
  wifiConnected pB = true -> publishLock pB = true ->
  fetchTask_cycle pB (fetchTask_cycle pA s) = fetchTask_cycle pB s.
Proof.
  intros Hw Hl. unfold fetchTask_cycle. rewrite Hw, Hl. cbn [negb].
  destruct (wifiConnected pA), (publishLock pA); reflexivity.
Qed.

Lemma loop_passes_idle env inps : forall s,
  newDataReady s = false ->
  newDataReady (loop_passes env inps s) = false /\
  fetchResult (loop_passes env inps s) = fetchResult s.
Proof.
  induction inps as [|inp rest IH]; intros s Hnew; [split; [exact Hnew|reflexivity]|].
  unfold loop_passes in *. cbn [foldl].
  destruct (loop_channel env inp s) as (Hf & Hn).
  destruct (IH (loop env inp s)) as (IH1 & IH2).
  { rewrite Hn, Hnew. reflexivity. }
  rewrite IH1, IH2, Hf. split; reflexivity.
Qed.

(** C5 as stated fails when the second publish is the one of the WiFi-down
    branch: it writes two fields of the shared struct in place, so the
    take that follows copies out the components and the severity of the
    first result, marked not valid. *)
Lemma wifi_down_take_has_first_result :
  stored_statuses (build_result (prevStatus initial_state) (poll_of feed_outage 0))
  = ["operational"; "major_outage"] /\
  option_map (fun p => stored_statuses (fst p))
    (copy_result true
       (fetchTask_cycle wifi_down
          (fetchTask_cycle (poll_of feed_outage 0) initial_state)))
  = Some ["operational"; "major_outage"] /\
  option_map (fun p => worstSeverity (fst p))
    (copy_result true
       (fetchTask_cycle wifi_down
          (fetchTask_cycle (poll_of feed_outage 0) initial_state)))
  = Some 2%Z /\
  option_map (fun p => (valid (fst p), statusBarText (fst p)))
    (copy_result true
       (fetchTask_cycle wifi_down
          (fetchTask_cycle (poll_of feed_outage 0) initial_state)))
  = Some (false, "WiFi disconnected").
Proof. repeat split. Qed.

(** C5.  When the task publishes a result and then, with the link up and
    the mutex obtained, a result [B], with no take in between, the shared
    state is the one publishing [B] alone leaves, so nothing of the first
    result remains.  A pass of [loop] that does not obtain the mutex
    leaves [B] pending; the first pass that obtains it copies [B] out,
    clears the flag and applies [B]; and in no later pass, as long as the
    task publishes nothing, does the apply block do anything. *)
Theorem latest_wins env pA pB inp s :
  wifiConnected pB = true -> publishLock pB = true -> consumeLock inp = true ->
  let B := build_result (prevStatus s) pB in
  let sAB := fetchTask_cycle pB (fetchTask_cycle pA s) in
  let s1 := loop_touch env inp sAB in
  sAB = fetchTask_cycle pB s /\
  fetchResult sAB = B /\ newDataReady sAB = true /\
  (forall inp0, consumeLock inp0 = false ->
     fetchResult (loop env inp0 sAB) = B /\
     newDataReady (loop env inp0 sAB) = true) /\
  copy_result (consumeLock inp) s1 = Some (B, set_channel B false s1) /\
  loop_apply env inp s1 = apply_result env B (set_channel B false s1) /\
  (forall inps inp',
     let s2 := loop_passes env inps (loop env inp sAB) in
     newDataReady s2 = false /\
     loop_apply env inp' (loop_touch env inp' s2) = loop_touch env inp' s2).
Proof.
  intros Hw Hl Hlock B sAB s1.
  assert (Hover : sAB = fetchTask_cycle pB s)
    by (apply fetchTask_cycle_overwrites; assumption).
  assert (Hpub : sAB = publish B s).
  { rewrite Hover. unfold fetchTask_cycle. rewrite Hw, Hl. reflexivity. }
  assert (Hres : fetchResult sAB = B) by (rewrite Hpub; reflexivity).
  assert (Hnew : newDataReady sAB = true) by (rewrite Hpub; reflexivity).
  destruct (loop_touch_channel env inp sAB) as (Hf1 & Hn1). fold s1 in Hf1, Hn1.
  split; [exact Hover|]. split; [exact Hres|]. split; [exact Hnew|].
  split; [|split; [|split]].
  - intros inp0 Hno. destruct (loop_channel env inp0 sAB) as (Hf & Hn).
    rewrite Hf, Hn, Hres, Hnew, Hno. split; reflexivity.
  - rewrite Hlock. unfold copy_result. cbn [negb]. rewrite Hf1, Hres. reflexivity.
  - unfold loop_apply. rewrite Hn1, Hnew, Hlock, applyFetchResults_locked.
    rewrite Hf1, Hres. reflexivity.
  - intros inps inp' s2.
    destruct (loop_channel env inp sAB) as (_ & Hn).
    destruct (loop_passes_idle env inps (loop env inp sAB)) as (Hn2 & _).
    { rewrite Hn, Hlock, andb_false_r. reflexivity. }
    fold s2 in Hn2. split; [exact Hn2|].
    destruct (loop_touch_channel env inp' s2) as (_ & Hn3).
    apply loop_apply_idle. rewrite Hn3. exact Hn2.
Qed.

Lemma latest_wins_witness :
  fetchTask_cycle (poll_of feed_outage 1)
    (fetchTask_cycle (poll_of feed_operational 0) initial_state)
  = fetchTask_cycle (poll_of feed_outage 1) initial_state.
Proof.
  apply (latest_wins demo_env (poll_of feed_operational 0) (poll_of feed_outage 1)
           no_touch initial_state eq_refl eq_refl eq_refl).
Defined.

(** ** Leaving the screensaver *)

(** The pass that applies a pending valid result, on the globals the
    screensaver depends on. *)
Lemma loop_apply_valid env inp s :
  newDataReady s = true -> consumeLock inp = true ->
  valid (fetchResult s) = true ->
  let leave :=
    (applied_statusChanged s
     || xorb (hasUnresolvedIncidents s) (hasIncidents (fetchResult s)))
    && screensaverActive s in
  let s' := loop_apply env inp s in
  screensaverActive s' = (if leave then false else screensaverActive s) /\
  clk s' = (if leave then S (clk s) else clk s) /\
  lastTouchTime s' =
    (if leave then to_uint32 (millis_at env (clk s)) else lastTouchTime s) /\
  count_events is_stop (new_events s s') = (if leave then 1 else 0) /\
  count_events is_frame (new_events s s') = 0 /\
  extends s s'.
Proof.
  intros Hnew Hlock Hv leave s'. subst s' leave.
  unfold loop_apply. rewrite Hnew, Hlock, applyFetchResults_locked.
  set (s0 := set_channel (fetchResult s) false s).
  destruct (apply_result_valid env (fetchResult s) s0 Hv)
    as (_ & _ & _ & _ & Ha & _ & _ & Hc & Ht & _ & Hstop & Hframe & Hext).
  change (new_events s) with (new_events s0).
  rewrite Ha, Hc, Ht, Hstop, Hframe.
  repeat split. destruct Hext as [evs Hscr]. exists evs. exact Hscr.
Qed.

(** C2 as stated fails: with the screensaver running, a valid result whose
    statuses all match the table, so that neither the flag computed on
    applying it nor the field the task stored is set, still stops the
    screensaver when it reports an unresolved incident for the first
    time. *)
Lemma unchanged_snapshot_exits :
  screensaverActive (fetchTask_cycle (poll_of feed_operational 1) saver_state) = true /\
  valid (fetchResult (fetchTask_cycle (poll_of feed_operational 1) saver_state)) = true /\
  applied_statusChanged (fetchTask_cycle (poll_of feed_operational 1) saver_state) = false /\
  statusChanged (fetchResult (fetchTask_cycle (poll_of feed_operational 1) saver_state)) = false /\
  screensaverActive
    (loop demo_env no_touch
       (fetchTask_cycle (poll_of feed_operational 1) saver_state)) = false.
Proof. repeat split. Qed.

Lemma loop_idle_log env inp s :
  count_events is_stop (new_events s (loop_idle env inp s)) = 0 /\
  extends s (loop_idle env inp s).
Proof.
  unfold loop_idle. destruct (_ && _);
    [|rewrite new_events_refl; split; [reflexivity|apply extends_refl]].
  unfold millis. cbn [lastTouchTime set_clk].
  destruct (_ <=? _)%Z.
  - set (s0 := set_clk (S (clk s)) s).
    destruct (matrixStartScreensaver_fields env s0)
      as (_ & _ & _ & _ & _ & _ & _ & _ & Hstop & _ & Hext).
    change (new_events s) with (new_events s0).
    split; [exact Hstop|]. destruct Hext as [evs Hscr]. exists evs. exact Hscr.
  - change (new_events s _) with (new_events s s). rewrite new_events_refl.
    split; [reflexivity|apply (extends_refl s)].
Qed.

(** What the touch step leaves for the apply step of the same pass. *)
Lemma loop_touch_cases env inp s :
  screensaverActive s = true -> newDataReady s = true ->
  let s1 := loop_touch env inp s in
  fetchResult s1 = fetchResult s /\ newDataReady s1 = true /\
  prevStatus s1 = prevStatus s /\
  extends s s1 /\
  count_events is_frame (new_events s s1) = 0 /\
  ((screensaverActive s1 = true /\ clk s1 = clk s /\
    hasUnresolvedIncidents s1 = hasUnresolvedIncidents s /\
    count_events is_stop (new_events s s1) = 0) \/
   (screensaverActive s1 = false /\ clk s1 = S (S (clk s)) /\
    lastTouchTime s1 = to_uint32 (millis_at env (S (clk s))) /\
    count_events is_stop (new_events s s1) = 1)).
Proof.
  intros Hact Hnew s1. subst s1.
  destruct (Z.ltb_spec 0 (touchCount inp)) as [Ht|Ht].
  - destruct (loop_touch_some env inp s Ht)
      as (Ha & Hf & Hn & Hp & _ & Hc & Hl & Hstop & Hframe & Hext).
    rewrite Hact in *. rewrite Hf, Hn, Hp.
    repeat split; try assumption. right. repeat split; assumption.
  - rewrite loop_touch_none by exact Ht. rewrite new_events_refl.
    repeat split; try assumption; [apply extends_refl|].
    left. repeat split; assumption.
Qed.

(** Whether or not the panel is touched in the pass, a change stops the
    screensaver once. *)
Lemma change_pass_stops_once env inp s :
  screensaverActive s = true ->
  newDataReady s = true -> consumeLock inp = true ->
  valid (fetchResult s) = true ->
  applied_statusChanged s = true ->
  count_events is_stop (new_events s (loop env inp s)) = 1.
Proof.
  intros Hact Hnew Hlock Hv Hflag. unfold loop.
  destruct (loop_touch_cases env inp s Hact Hnew)
    as (Hf1 & Hn1 & Hp1 & Hext1 & _ & Hcase).
  set (s1 := loop_touch env inp s) in *.
  assert (Hv1 : valid (fetchResult s1) = true) by (rewrite Hf1; exact Hv).
  assert (Hflag1 : applied_statusChanged s1 = true).
  { unfold applied_statusChanged. rewrite Hf1, Hp1. exact Hflag. }
  destruct (loop_apply_valid env inp s1 Hn1 Hlock Hv1)
    as (_ & _ & _ & Hstop2 & _ & Hext2).
  rewrite Hflag1 in *. cbn [orb andb] in *.
  set (s2 := loop_apply env inp s1) in *.
  destruct (loop_idle_log env inp s2) as (Hstop3 & Hext3).
  set (s3 := loop_idle env inp s2) in *.
  destruct (loop_animate_fields env inp s3) as (_ & _ & _ & Hstop4 & Hext4).
  rewrite (new_events_trans s s3 _)
    by (first [exact Hext4
              |eapply extends_trans;
               [eapply extends_trans; eassumption|eassumption]]).
  rewrite (new_events_trans s s2 s3)
    by (first [exact Hext3|eapply extends_trans; eassumption]).
  rewrite (new_events_trans s s1 s2) by assumption.
  rewrite !count_events_app, Hstop2, Hstop3, Hstop4.
  destruct Hcase as [(Ha1 & _ & _ & Hstop1)|(Ha1 & _ & _ & Hstop1)];
    rewrite Ha1, Hstop1; reflexivity.
Qed.

(** With the pass shorter than the idle timeout, a change leaves the
    screensaver off at the end of the pass and no frame is drawn in it. *)
Lemma change_pass_timed env inp s :
  screensaverActive s = true ->
  newDataReady s = true -> consumeLock inp = true ->
  valid (fetchResult s) = true ->
  pass_within_timeout env s ->
  applied_statusChanged s = true ->
  screensaverActive (loop env inp s) = false /\
  count_events is_stop (new_events s (loop env inp s)) = 1 /\
  count_events is_frame (new_events s (loop env inp s)) = 0.
Proof.
  intros Hact Hnew Hlock Hv Hclock.
  intros Hflag. unfold loop.
  set (s1 := loop_touch env inp s).
  assert (H1 : fetchResult s1 = fetchResult s /\ newDataReady s1 = true /\
               prevStatus s1 = prevStatus s /\
               extends s s1 /\
               count_events is_frame (new_events s s1) = 0 /\
               ((screensaverActive s1 = true /\ clk s1 = clk s /\
                 hasUnresolvedIncidents s1 = hasUnresolvedIncidents s /\
                 count_events is_stop (new_events s s1) = 0) \/
                (screensaverActive s1 = false /\ clk s1 = S (S (clk s)) /\
                 lastTouchTime s1 = to_uint32 (millis_at env (S (clk s))) /\
                 count_events is_stop (new_events s s1) = 1))).
  { subst s1. destruct (Z.ltb_spec 0 (touchCount inp)) as [Ht|Ht].
    - destruct (loop_touch_some env inp s Ht)
        as (Ha & Hf & Hn & Hp & _ & Hc & Hl & Hstop & Hframe & Hext).
      rewrite Hact in *. rewrite Hf, Hn, Hp.
      repeat split; try assumption. right. repeat split; assumption.
    - rewrite loop_touch_none by exact Ht. rewrite new_events_refl.
      repeat split; try assumption; [apply extends_refl|].
      left. repeat split; assumption. }
  destruct H1 as (Hf1 & Hn1 & Hp1 & Hext1 & Hframe1 & Hcase).
  assert (Hv1 : valid (fetchResult s1) = true) by (rewrite Hf1; exact Hv).
  assert (Hflag1 : applied_statusChanged s1 = true).
  { unfold applied_statusChanged. rewrite Hf1, Hp1. exact Hflag. }
  destruct (loop_apply_valid env inp s1 Hn1 Hlock Hv1)
    as (Ha2 & Hc2 & Ht2 & Hstop2 & Hframe2 & Hext2).
  rewrite Hflag1 in *. cbn [orb andb] in *.
  set (s2 := loop_apply env inp s1) in *.
  assert (H2 : screensaverActive s2 = false /\
               (to_uint32 (to_uint32 (millis_at env (clk s2)) - lastTouchTime s2)
                  < SCREENSAVER_TIMEOUT)%Z /\
               count_events is_stop (new_events s s1)
                 + count_events is_stop (new_events s1 s2) = 1).
  { destruct Hcase as [(Ha1 & Hc1 & _ & Hstop1)|(Ha1 & Hc1 & Ht1 & Hstop1)];
      rewrite Ha1 in *.
    - rewrite Ha2, Hc2, Ht2, Hstop1, Hstop2, Hc1.
      repeat split. apply Hclock; lia.
    - rewrite Ha2, Hc2, Ht2, Hstop1, Hstop2, Hc1, Ht1.
      repeat split. apply Hclock; lia. }
  destruct H2 as (Hoff2 & Hrecent & Hstops).
  destruct (loop_idle_quiet env inp s2 Hoff2 Hrecent) as (Hoff3 & Hev3 & Hext3).
  rewrite (loop_animate_inactive env inp _ Hoff3).
  set (s3 := loop_idle env inp s2) in *.
  rewrite (new_events_trans s s2 s3)
    by (try exact Hext3; eapply extends_trans; eassumption).
  rewrite (new_events_trans s s1 s2) by assumption.
  rewrite Hev3, app_nil_r, !count_events_app, Hframe1, Hframe2.
  repeat split; assumption.
Qed.

(** Without a change of statuses or incidents and without a touch, the
    pass leaves the screensaver running. *)
Lemma no_change_pass env inp s :
  screensaverActive s = true ->
  newDataReady s = true -> consumeLock inp = true ->
  valid (fetchResult s) = true ->
  applied_statusChanged s = false ->
  hasIncidents (fetchResult s) = hasUnresolvedIncidents s ->
  (touchCount inp <= 0)%Z ->
  screensaverActive (loop env inp s) = true /\
  count_events is_stop (new_events s (loop env inp s)) = 0.
Proof.
  intros Hact Hnew Hlock Hv.
  intros Hflag Hinc Htouch. unfold loop.
  rewrite (loop_touch_none env inp s Htouch).
  destruct (loop_apply_valid env inp s Hnew Hlock Hv)
    as (Ha2 & _ & _ & Hstop2 & _ & Hext2).
  rewrite Hflag, Hinc, xorb_nilpotent in *. cbn [orb andb] in *.
  set (s2 := loop_apply env inp s) in *.
  rewrite Hact in Ha2.
  rewrite (loop_idle_active env inp s2 Ha2).
  destruct (loop_animate_fields env inp s2) as (Ha4 & _ & _ & Hstop4 & Hext4).
  rewrite Ha4, (new_events_trans s s2 _ Hext2 Hext4), count_events_app,
    Hstop2, Hstop4.
  split; [exact Ha2|reflexivity].
Qed.

(** C2, amended.  With the screensaver active and a valid result pending:
    if the change flag is true, applying the result leaves the screensaver
    ([matrixStopScreensaver] runs exactly once, no frame is drawn), and so
    does the pass of [loop] that applies it, which ends with the
    screensaver off and no frame drawn when it lasts less than the idle
    timeout; if the change flag is false and the incidents flag equals
    [hasUnresolvedIncidents], applying the result leaves the screensaver
    running, and so does the pass of [loop] when the panel is not
    touched. *)
Theorem change_exits_screensaver env inp s :
  screensaverActive s = true ->
  newDataReady s = true ->
  valid (fetchResult s) = true ->
  (applied_statusChanged s = true ->
     screensaverActive (applyFetchResults env true s) = false /\
     count_events is_stop (new_events s (applyFetchResults env true s)) = 1 /\
     count_events is_frame (new_events s (applyFetchResults env true s)) = 0 /\
     (consumeLock inp = true ->
        count_events is_stop (new_events s (loop env inp s)) = 1 /\
        (pass_within_timeout env s ->
           screensaverActive (loop env inp s) = false /\
           count_events is_frame (new_events s (loop env inp s)) = 0))) /\
  (applied_statusChanged s = false ->
     hasIncidents (fetchResult s) = hasUnresolvedIncidents s ->
     screensaverActive (applyFetchResults env true s) = true /\
     count_events is_stop (new_events s (applyFetchResults env true s)) = 0 /\
     (consumeLock inp = true -> (touchCount inp <= 0)%Z ->
        screensaverActive (loop env inp s) = true /\
        count_events is_stop (new_events s (loop env inp s)) = 0)).
Proof.
  intros Hact Hnew Hv.
  rewrite applyFetchResults_locked.
  set (s0 := set_channel (fetchResult s) false s).
  destruct (apply_result_valid env (fetchResult s) s0 Hv)
    as (_ & _ & _ & _ & Ha & _ & _ & _ & _ & _ & Hstop & Hframe & _).
  change (new_events s (apply_result env (fetchResult s) s0))
    with (new_events s0 (apply_result env (fetchResult s) s0)).
  change (detect_changes (fetchResult s) (prevStatus s0))
    with (detect_changes (fetchResult s) (prevStatus s)) in *.
  change (hasUnresolvedIncidents s0) with (hasUnresolvedIncidents s) in *.
  change (screensaverActive s0) with (screensaverActive s) in *.
  fold (applied_statusChanged s) in *.
  rewrite Ha, Hstop, Hframe, Hact. split.
  - intros Hflag. rewrite Hflag. cbn [orb andb]. repeat split.
    + apply change_pass_stops_once; assumption.
    + apply (change_pass_timed env inp s); assumption.
    + apply (change_pass_timed env inp s); assumption.
  - intros Hflag Hinc. rewrite Hflag, Hinc, xorb_nilpotent. cbn [orb andb].
    repeat split.
    + apply (no_change_pass env inp s); assumption.
    + apply (no_change_pass env inp s); assumption.
Qed.

Lemma change_exits_screensaver_witness :
  screensaverActive
    (applyFetchResults demo_env true
       (fetchTask_cycle (poll_of feed_outage 0) saver_state)) = false /\
  count_events is_stop
    (new_events (fetchTask_cycle (poll_of feed_outage 0) saver_state)
       (loop demo_env no_touch
          (fetchTask_cycle (poll_of feed_outage 0) saver_state))) = 1.
Proof.
  destruct (change_exits_screensaver demo_env no_touch
              (fetchTask_cycle (poll_of feed_outage 0) saver_state)
              eq_refl eq_refl eq_refl) as (Hexit & _).
  destruct (Hexit eq_refl) as (Hoff & _ & _ & Hpass).
  destruct (Hpass eq_refl) as (Hstop & _).
  split; assumption.
Defined.

(** * Further properties *)

(** ** The result of a poll cycle *)

Lemma fetch_loop_accepted prev feed res :
  fetch_loop prev feed 0 res = record_all prev (accepted feed) 0 res.
Proof. rewrite fetch_loop_record_all, Nat.sub_0_r. reflexivity. Qed.

Lemma build_result_accepted prev inp feed1 feed2 :
  accepted feed1 = accepted feed2 ->
  build_result prev (with_feed inp feed1) = build_result prev (with_feed inp feed2).
Proof.
  intros Hacc. unfold build_result, fetch_components, with_feed.
  cbn [componentsReply incidentsReply localTime httpCode body].
  rewrite Z.eqb_refl, !fetch_loop_accepted, Hacc. reflexivity.
Qed.

Lemma component_at_lookup res i c :
  components res !! i = Some c -> component_at res i = c.
Proof. intros H. unfold component_at. rewrite H. reflexivity. Qed.

(** X1.  With a parsed feed, the result holds the first [MAX_COMPONENTS]
    entries that are neither hidden nor named "Visit...", in feed order,
    the name cut to 47 bytes and the status to 31; the slots after them
    are empty. *)
Theorem components_follow_feed prev inp feed :
  httpCode (componentsReply inp) = HTTP_CODE_OK ->
  body (componentsReply inp) = Some feed ->
  let res := build_result prev inp in
  componentCount res = length (accepted feed) /\
  componentCount res <= MAX_COMPONENTS /\
  (forall i c, accepted feed !! i = Some c ->
     component_at res i =
       {| name := strncpy 47 (json_name c);
          status := strncpy 31 (json_status c) |}) /\
  (forall i, componentCount res <= i -> component_at res i = zero_component).
Proof.
  intros Hc Hb res. subst res.
  destruct (build_result_frame prev inp) as (_ & _ & _ & Hn & Hcs & _).
  destruct (fetch_components_ok prev _ (localTime inp) feed Hc Hb)
    as (_ & Mn & Mcs & _).
  pose proof (accepted_length feed) as Hlen.
  unfold component_at. rewrite Hn, Hcs, Mn, Mcs.
  repeat split; try assumption.
  - intros i c Hi.
    rewrite lookup_app_l by (rewrite length_map; eapply lookup_lt_Some; exact Hi).
    rewrite list_lookup_fmap, Hi. reflexivity.
  - intros i Hi.
    rewrite lookup_app_r by (rewrite length_map; exact Hi).
    rewrite length_map.
    destruct (replicate _ zero_component !! (i - length (accepted feed)))
      as [c|] eqn:Hr; [|reflexivity].
    apply lookup_replicate in Hr. destruct Hr as [-> _]. reflexivity.
Qed.

Lemma components_follow_feed_witness :
  component_at (build_result [] (poll_of feed_outage 0)) 1 =
  {| name := "API Requests"; status := "major_outage" |}.
Proof.
  destruct (components_follow_feed [] (poll_of feed_outage 0) feed_outage
              eq_refl eq_refl) as (_ & _ & Hslot & _).
  exact (Hslot 1 (entry "API Requests" "major_outage") eq_refl).
Defined.

Lemma accepted_app_full feed more :
  MAX_COMPONENTS <= length (List.filter (fun c => negb (skipped c)) feed) ->
  accepted (feed ++ more) = accepted feed.
Proof.
  intros Hfull. unfold accepted.
  rewrite List.filter_app, take_app_le by exact Hfull. reflexivity.
Qed.

Lemma accepted_skip a c b :
  skipped c = true -> accepted (a ++ c :: b) = accepted (a ++ b).
Proof.
  intros Hs. unfold accepted. rewrite !List.filter_app.
  cbn [List.filter]. rewrite Hs. reflexivity.
Qed.

(** X2.  What the feed lists after its tenth displayable component has no
    effect on the result, a major outage included; nor has a hidden or
    "Visit..." entry, wherever it stands. *)
Theorem result_ignores_unaccepted prev inp feed more a c b :
  (MAX_COMPONENTS <= length (List.filter (fun e => negb (skipped e)) feed) ->
   build_result prev (with_feed inp (feed ++ more)) =
   build_result prev (with_feed inp feed)) /\
  (skipped c = true ->
   build_result prev (with_feed inp (a ++ c :: b)) =
   build_result prev (with_feed inp (a ++ b))).
Proof.
  split; intros H; apply build_result_accepted.
  - apply accepted_app_full, H.
  - apply accepted_skip, H.
Qed.

Lemma result_ignores_unaccepted_witness :
  worstSeverity (build_result [] (with_feed (poll_of [] 0) feed_eleven)) = 0%Z.
Proof.
  unfold feed_eleven.
  rewrite (proj1 (result_ignores_unaccepted [] (poll_of [] 0)
                    (replicate 10 (entry "Component" "operational"))
                    [entry "Eleventh" "major_outage"] [] (entry "" "") [])
             ltac:(vm_compute; lia)).
  reflexivity.
Defined.

Lemma fetch_incidents_flag reply res :
  hasIncidents res = false ->
  (hasIncidents (fetch_incidents reply res) = true <->
   httpCode reply = HTTP_CODE_OK /\ exists n, body reply = Some n /\ 0 < n).
Proof.
  intros Hno. unfold fetch_incidents.
  destruct (Z.eqb_spec (httpCode reply) HTTP_CODE_OK) as [Hc|Hc].
  - destruct (body reply) as [n|]; cbn [hasIncidents set_hasIncidents].
    + rewrite Nat.ltb_lt. split.
      * intros Hn. split; [exact Hc|]. exists n. split; [reflexivity|exact Hn].
      * intros (_ & m & Hm & Hpos). injection Hm as <-. exact Hpos.
    + rewrite Hno. split; [discriminate|].
      intros (_ & m & Hm & _). discriminate Hm.
  - rewrite Hno. split; [discriminate|]. intros (Hc' & _). contradiction.
Qed.

Lemma fetch_components_hasIncidents prev reply now :
  hasIncidents (fetch_components prev reply now fresh_result) = false.
Proof.
  destruct (Z.eq_dec (httpCode reply) HTTP_CODE_OK) as [Hc|Hc];
    [destruct (body reply) as [feed|] eqn:Hb|].
  - unfold fetch_components. rewrite Hc, Z.eqb_refl, Hb, fetch_loop_accepted.
    destruct (record_all_fields prev (accepted feed) 0 fresh_result)
      as (_ & _ & _ & _ & _ & Ei & _).
    { unfold fresh_result; cbn [components]. rewrite length_replicate.
      apply accepted_length. }
    destruct (record_all prev (accepted feed) 0 fresh_result) as [idx res].
    cbn [snd] in Ei. destruct now; cbn; exact Ei.
  - rewrite fetch_components_failed by (right; exact Hb). reflexivity.
  - rewrite fetch_components_failed by (left; exact Hc). reflexivity.
Qed.

(** X3.  The incidents flag of a result is set exactly when the incidents
    request returned 200 with a payload that parses and lists at least one
    incident: a transport or parse failure on that feed counts as no
    incident. *)
Theorem incidents_flag_needs_parsed_feed prev inp :
  hasIncidents (build_result prev inp) = true <->
  httpCode (incidentsReply inp) = HTTP_CODE_OK /\
  exists n, body (incidentsReply inp) = Some n /\ 0 < n.
Proof.
  unfold build_result.
  destruct (factor_incidents_frame
              (fetch_incidents (incidentsReply inp)
                 (fetch_components prev (componentsReply inp) (localTime inp)
                    fresh_result))) as (_ & _ & _ & Hi & _).
  rewrite Hi. apply fetch_incidents_flag, fetch_components_hasIncidents.
Qed.

Lemma fetch_components_severity prev reply now :
  let mid := fetch_components prev reply now fresh_result in
  (0 <= worstSeverity mid <= 2)%Z /\
  (valid mid = false ->
   worstSeverity mid = 0%Z /\ res_allOperational mid = true /\
   statusChanged mid = false).
Proof.
  intros mid. subst mid.
  destruct (Z.eq_dec (httpCode reply) HTTP_CODE_OK) as [Hc|Hc];
    [destruct (body reply) as [feed|] eqn:Hb|].
  - destruct (fetch_components_ok prev reply now feed Hc Hb)
      as (Mv & _ & _ & _ & _ & Mw).
    rewrite Mv, Mw. split; [|discriminate].
    unfold spec_severity. destruct (existsb is_major _); [lia|].
    destruct (existsb is_warning _ || false); lia.
  - rewrite fetch_components_failed by (right; exact Hb). cbn.
    split; [lia|]. repeat split.
  - rewrite fetch_components_failed by (left; exact Hc). cbn.
    split; [lia|]. repeat split.
Qed.

(** X4.  The severity of any result, valid or not, is 0, 1 or 2, and at
    least 1 when incidents are unresolved; a result that is not valid
    reports all components operational, no status change and a severity
    that comes from the incidents alone. *)
Theorem severity_range prev inp :
  let res := build_result prev inp in
  (0 <= worstSeverity res <= 2)%Z /\
  (hasIncidents res = true -> (1 <= worstSeverity res)%Z) /\
  (valid res = false ->
   res_allOperational res = true /\ statusChanged res = false /\
   worstSeverity res = (if hasIncidents res then 1%Z else 0%Z)).
Proof.
  intros res. subst res.
  destruct (build_result_frame prev inp) as (Hv & Hc & Ha & _ & _ & _ & Hw).
  destruct (fetch_components_severity prev (componentsReply inp) (localTime inp))
    as (Hr & Hfail).
  rewrite Hv, Hc, Ha, Hw.
  split; [|split].
  - destruct (hasIncidents _); lia.
  - intros ->. lia.
  - intros Hinv. destruct (Hfail Hinv) as (Hw0 & Ha0 & Hc0).
    rewrite Hw0, Ha0, Hc0. repeat split.
Qed.

Lemma severity_range_witness :
  worstSeverity (build_result [] (http_failure 503)) = 0%Z.
Proof.
  destruct (severity_range [] (http_failure 503)) as (_ & _ & Hfail).
  destruct (Hfail eq_refl) as (_ & _ & Hw). rewrite Hw. reflexivity.
Defined.

(** ** The status line *)

Lemma strftime_updated_length ti : String.length (strftime_updated ti) = 17.
Proof. reflexivity. Qed.

Lemma build_result_statusBarText_length prev inp :
  String.length (statusBarText (build_result prev inp)) <= 23.
Proof.
  destruct (build_result_frame prev inp) as (_ & _ & _ & _ & _ & Ht & _).
  rewrite Ht. set (reply := componentsReply inp).
  destruct (Z.eq_dec (httpCode reply) HTTP_CODE_OK) as [Hc|Hc];
    [destruct (body reply) as [feed|] eqn:Hb|].
  - unfold fetch_components. rewrite Hc, Z.eqb_refl, Hb.
    destruct (fetch_loop prev feed 0 fresh_result) as [idx res].
    destruct (localTime inp); cbn [statusBarText set_statusBarText].
    + rewrite strftime_updated_length. lia.
    + simpl. lia.
  - rewrite fetch_components_failed by (right; exact Hb).
    rewrite Hc, Z.eqb_refl. simpl. lia.
  - rewrite fetch_components_failed by (left; exact Hc).
    destruct (Z.eqb_spec (httpCode reply) HTTP_CODE_OK); [contradiction|].
    cbn [statusBarText set_statusBarText].
    rewrite snprintf_http_error_full, string_app_length.
    pose proof (fmt_d_length (httpCode reply)). simpl. lia.
Qed.

Lemma apply_result_cachedStatusText env res s :
  cachedStatusText (apply_result env res s) = strncpy 48 (statusBarText res).
Proof.
  unfold apply_result. destruct (valid res); cbn [negb].
  - cbn [prevStatus set_cachedStatusText].
    destruct (detect_changes res (prevStatus s)) as [prev changed].
    cbn [set_prevStatus set_health set_cachedStatusText hasUnresolvedIncidents
         screensaverActive].
    destruct ((changed || xorb (hasUnresolvedIncidents s) (hasIncidents res))
              && screensaverActive s).
    + unfold matrixStopScreensaver, updateStatusBanner, millis.
      cbn -[to_uint32 banner_of widget_update seq strncpy]. reflexivity.
    + destruct (screensaverActive s) eqn:Hact;
        unfold updateStatusBanner;
        cbn -[to_uint32 banner_of widget_update seq strncpy];
        rewrite ?Hact;
        cbn -[to_uint32 banner_of widget_update seq strncpy]; reflexivity.
  - cbn [screensaverActive set_cachedStatusText].
    destruct (screensaverActive s); reflexivity.
Qed.

(** X5.  Whatever a cycle publishes, its status line is at most 23 bytes,
    well inside the 48-byte buffers, so the text [applyFetchResults] caches
    for the status bar is that line in full. *)
Theorem status_line_fits env inp s :
  publishLock inp = true ->
  let s' := fetchTask_cycle inp s in
  String.length (statusBarText (fetchResult s')) <= 23 /\
  cachedStatusText (applyFetchResults env true s') = statusBarText (fetchResult s').
Proof.
  intros Hlock s'.
  assert (Hlen : String.length (statusBarText (fetchResult s')) <= 23).
  { subst s'. unfold fetchTask_cycle. rewrite Hlock.
    destruct (wifiConnected inp); cbn [negb].
    - apply build_result_statusBarText_length.
    - simpl. lia. }
  split; [exact Hlen|].
  rewrite applyFetchResults_locked, apply_result_cachedStatusText.
  apply strncpy_short. lia.
Qed.

Lemma status_line_fits_witness :
  cachedStatusText
    (applyFetchResults demo_env true
       (fetchTask_cycle (poll_of feed_operational 0) initial_state))
  = "Updated: 09:05:59".
Proof.
  destruct (status_line_fits demo_env (poll_of feed_operational 0)
              initial_state eq_refl) as (_ & Hcache).
  rewrite Hcache. reflexivity.
Defined.

(** ** What applyFetchResults shows *)

Lemma apply_result_log_valid env res s :
  valid res = true ->
  let d := detect_changes res (prevStatus s) in
  let leave :=
    (snd d || xorb (hasUnresolvedIncidents s) (hasIncidents res))
    && screensaverActive s in
  let s' := apply_result env res s in
  let redraw :=
    (map (widget_update res) (seq 0 (componentCount res))
       ++ [banner_of s'; SetRightText (cachedStatusText s');
           DrawAll; DrawGridLines])%list in
  new_events s s' =
    if leave then
      ([Call_matrixStopScreensaver; banner_of s';
        SetRightText (cachedStatusText s');
        ClearScreen; DrawAll; DrawGridLines] ++ redraw)%list
    else if screensaverActive s then []
    else redraw.
Proof.
  intros Hv d leave s' redraw. subst redraw s' leave d. unfold apply_result.
  rewrite Hv. cbn [negb prevStatus set_cachedStatusText].
  destruct (detect_changes res (prevStatus s)) as [prev changed]. cbn [fst snd].
  cbn [set_prevStatus set_health set_cachedStatusText hasUnresolvedIncidents
       screensaverActive].
  destruct ((changed || xorb (hasUnresolvedIncidents s) (hasIncidents res))
            && screensaverActive s) eqn:Hleave.
  - unfold matrixStopScreensaver, updateStatusBanner, millis, new_events.
    cbn -[to_uint32 banner_of widget_update seq strncpy].
    rewrite <- !app_assoc, drop_app_length. reflexivity.
  - destruct (screensaverActive s) eqn:Hact;
      unfold updateStatusBanner, new_events;
      cbn -[to_uint32 banner_of widget_update seq strncpy];
      rewrite ?Hact;
      cbn -[to_uint32 banner_of widget_update seq strncpy];
      rewrite <- ?app_assoc, ?drop_app_length, ?drop_all; reflexivity.
Qed.

(** X6.  While the screensaver stays on, applying a result calls nothing on
    the display: an invalid result changes the cached text only, and a
    valid one with no change of statuses or incidents still replaces the
    health globals, the severity the rain is coloured by included. *)
Theorem background_update_is_silent env s :
  screensaverActive s = true ->
  let s' := applyFetchResults env true s in
  (valid (fetchResult s) = false ->
   new_events s s' = [] /\ screensaverActive s' = true) /\
  (valid (fetchResult s) = true ->
   applied_statusChanged s = false ->
   hasIncidents (fetchResult s) = hasUnresolvedIncidents s ->
   new_events s s' = [] /\ screensaverActive s' = true /\
   allOperational s' = res_allOperational (fetchResult s) /\
   matrixSeverity s' = worstSeverity (fetchResult s) /\
   cachedStatusText s' = strncpy 48 (statusBarText (fetchResult s))).
Proof.
  intros Hact s'. subst s'. rewrite applyFetchResults_locked.
  set (s0 := set_channel (fetchResult s) false s).
  change (new_events s) with (new_events s0). split.
  - intros Hv. unfold apply_result. rewrite Hv. cbn [negb].
    cbn [screensaverActive set_cachedStatusText set_channel s0]. rewrite Hact.
    cbn [negb]. unfold new_events. cbn [screen set_cachedStatusText].
    rewrite drop_all. split; [reflexivity|exact Hact].
  - intros Hv Hflag Hinc.
    rewrite (apply_result_log_valid env (fetchResult s) s0 Hv).
    destruct (apply_result_valid env (fetchResult s) s0 Hv)
      as (_ & Ha & _ & Hm & Hs & _).
    rewrite Ha, Hm, Hs, apply_result_cachedStatusText.
    change (detect_changes (fetchResult s) (prevStatus s0))
      with (detect_changes (fetchResult s) (prevStatus s)).
    fold (applied_statusChanged s).
    change (hasUnresolvedIncidents s0) with (hasUnresolvedIncidents s).
    change (screensaverActive s0) with (screensaverActive s).
    rewrite Hflag, Hinc, xorb_nilpotent, Hact. cbn [orb andb]. repeat split.
Qed.

Lemma background_update_is_silent_witness :
  new_events (fetchTask_cycle (poll_of feed_operational 0) saver_state)
    (applyFetchResults demo_env true
       (fetchTask_cycle (poll_of feed_operational 0) saver_state)) = [].
Proof.
  destruct (background_update_is_silent demo_env
              (fetchTask_cycle (poll_of feed_operational 0) saver_state)
              eq_refl) as (_ & Hvalid).
  destruct (Hvalid eq_refl eq_refl eq_refl) as (Hlog & _). exact Hlog.
Defined.

(** X7.  Applying a valid result with the screensaver off redraws every
    component widget from the result, then the banner and the status text,
    and nothing else; when the result stops the screensaver the same
    redraw follows the screen being cleared, so the dashboard that comes
    back shows the result that brought it back. *)
Theorem apply_redraws_from_result env s :
  valid (fetchResult s) = true ->
  let res := fetchResult s in
  let s' := applyFetchResults env true s in
  let redraw :=
    (map (widget_update res) (seq 0 (componentCount res))
       ++ [banner_of s'; SetRightText (statusBarText res);
           DrawAll; DrawGridLines])%list in
  String.length (statusBarText res) <= 47 ->
  allOperational s' = res_allOperational res /\
  hasUnresolvedIncidents s' = hasIncidents res /\
  matrixSeverity s' = worstSeverity res /\
  (screensaverActive s = false -> new_events s s' = redraw) /\
  (screensaverActive s = true ->
   applied_statusChanged s = true \/
   hasIncidents res <> hasUnresolvedIncidents s ->
   new_events s s' =
     ([Call_matrixStopScreensaver; banner_of s';
       SetRightText (statusBarText res);
       ClearScreen; DrawAll; DrawGridLines] ++ redraw)%list).
Proof.
  intros Hv res s' redraw Hfit. subst redraw s' res.
  rewrite applyFetchResults_locked.
  set (s0 := set_channel (fetchResult s) false s).
  change (new_events s) with (new_events s0).
  rewrite (apply_result_log_valid env (fetchResult s) s0 Hv).
  destruct (apply_result_valid env (fetchResult s) s0 Hv)
    as (_ & Ha & Hi & Hm & _).
  rewrite apply_result_cachedStatusText, strncpy_short by lia.
  change (detect_changes (fetchResult s) (prevStatus s0))
    with (detect_changes (fetchResult s) (prevStatus s)).
  fold (applied_statusChanged s).
  change (hasUnresolvedIncidents s0) with (hasUnresolvedIncidents s).
  change (screensaverActive s0) with (screensaverActive s).
  repeat split; try assumption.
  - intros Hoff. rewrite Hoff, andb_false_r. reflexivity.
  - intros Hon Hchange. rewrite Hon, andb_true_r.
    replace (applied_statusChanged s
             || xorb (hasUnresolvedIncidents s) (hasIncidents (fetchResult s)))
      with true; [reflexivity|].
    symmetry. destruct Hchange as [Hflag|Hinc].
    + rewrite Hflag. reflexivity.
    + destruct (hasUnresolvedIncidents s), (hasIncidents (fetchResult s));
        try (rewrite orb_true_r; reflexivity); exfalso; apply Hinc; reflexivity.
Qed.

Lemma apply_redraws_from_result_witness :
  allOperational
    (applyFetchResults demo_env true
       (fetchTask_cycle (poll_of feed_outage 0) saver_state)) = false.
Proof.
  destruct (apply_redraws_from_result demo_env
              (fetchTask_cycle (poll_of feed_outage 0) saver_state)
              eq_refl ltac:(vm_compute; lia)) as (Ha & _).
  rewrite Ha. reflexivity.
Defined.

(** ** Banner, widgets and severity *)

Lemma banner_of_fields s allOp inc sev :
  allOperational s = allOp -> hasUnresolvedIncidents s = inc ->
  matrixSeverity s = sev ->
  banner_of s =
    if allOp && negb inc then SetBanner "All Systems Operational" SECONDARY
    else if (2 <=? sev)%Z
         then SetBanner "Disruption with some GitHub services" DANGER
         else SetBanner "Disruption with some GitHub services" ACCENT.
Proof. intros <- <- <-. reflexivity. Qed.

(** X8.  After a valid result built by the task has been applied, the
    banner reads "All Systems Operational" on green exactly when every
    displayed status is operational and no incident is unresolved; it is
    red exactly when a displayed component is in major outage; in every
    other case, an unrecognised status or an incident alone included, it is
    orange. *)
Theorem banner_after_apply env prev inp s :
  valid (build_result prev inp) = true ->
  let res := build_result prev inp in
  let banner := banner_of (applyFetchResults env true (publish res s)) in
  (banner = SetBanner "All Systems Operational" SECONDARY <->
   (forall st, In st (stored_statuses res) -> st = "operational") /\
   hasIncidents res = false) /\
  (banner = SetBanner "Disruption with some GitHub services" DANGER <->
   In "major_outage" (stored_statuses res)) /\
  (banner = SetBanner "Disruption with some GitHub services" ACCENT <->
   ~ In "major_outage" (stored_statuses res) /\
   ~ ((forall st, In st (stored_statuses res) -> st = "operational") /\
      hasIncidents res = false)).
Proof.
  intros Hv res banner. subst banner.
  destruct (apply_result_valid env res (set_channel res false (publish res s)) Hv)
    as (_ & Ga & Gi & Gm & _).
  rewrite (banner_of_fields (applyFetchResults env true (publish res s))
             _ _ _ Ga Gi Gm).
  clear Ga Gi Gm.
  subst res.
  rewrite (worstSeverity_spec prev inp Hv), (allOperational_spec prev inp Hv).
  set (sts := stored_statuses (build_result prev inp)).
  set (inc := hasIncidents (build_result prev inp)).
  set (g := forallb is_operational sts && negb inc).
  set (r := (2 <=? spec_severity sts inc)%Z).
  assert (Hg : g = true <->
               (forall st, In st sts -> st = "operational") /\ inc = false).
  { subst g. rewrite andb_true_iff, negb_true_iff, forallb_is_operational.
    reflexivity. }
  assert (Hr : r = true <-> In "major_outage" sts).
  { subst r. unfold spec_severity. rewrite <- existsb_is_major.
    destruct (existsb is_major sts); [split; reflexivity|].
    destruct (existsb is_warning sts || inc); split; discriminate. }
  assert (Hex : (forall st, In st sts -> st = "operational") ->
                ~ In "major_outage" sts).
  { intros Hall Hin. apply Hall in Hin. discriminate Hin. }
  destruct g, r; (split; [|split]); split;
    try discriminate; try reflexivity; intros H.
  all: try (apply Hg; reflexivity).
  all: try (apply Hr; reflexivity).
  all: try (exfalso; assert (Hf : false = true) by (apply Hg; exact H);
            discriminate Hf).
  all: try (exfalso; assert (Hf : false = true) by (apply Hr; exact H);
            discriminate Hf).
  all: try (exfalso;
            first [apply (proj2 H), Hg; reflexivity
                  |apply (proj1 H), Hr; reflexivity]).
  - exfalso. destruct (proj1 Hg eq_refl) as [Hall _].
    apply (Hex Hall), Hr. reflexivity.
  - split.
    + intros Hin. apply Hr in Hin. discriminate Hin.
    + intros Ha. apply Hg in Ha. discriminate Ha.
Qed.

Lemma banner_after_apply_witness :
  banner_of
    (applyFetchResults demo_env true
       (publish (build_result [] (poll_of feed_maintenance 0)) initial_state))
  = SetBanner "Disruption with some GitHub services" ACCENT.
Proof.
  apply (banner_after_apply demo_env [] (poll_of feed_maintenance 0)
           initial_state eq_refl).
  split.
  - intros [Hin|[Hin|[]]]; discriminate Hin.
  - intros [Hall _]. specialize (Hall "under_maintenance" ltac:(right; left; reflexivity)).
    discriminate Hall.
Defined.

(** The three status tables tell the four known statuses apart the same
    way. *)
Lemma status_tables st :
  (statusColor st = DANGER <-> st = "major_outage") /\
  (statusIconChar st = "X" <-> st = "major_outage") /\
  (statusDisplayText st = "Major Outage" <-> st = "major_outage") /\
  (statusColor st = SECONDARY <-> st = "operational") /\
  (statusIconChar st = "" <-> st = "operational") /\
  (statusColor st = ACCENT <->
   st = "degraded_performance" \/ st = "partial_outage") /\
  (statusIconChar st = "!" <->
   st = "degraded_performance" \/ st = "partial_outage") /\
  (statusColor st = TEXT_DISABLED <-> ~ known_status st) /\
  (statusDisplayText st = "Unknown" <-> ~ known_status st).
Proof.
  unfold statusColor, statusIconChar, statusDisplayText, known_status.
  destruct (strcmp_eq st "operational") eqn:H1;
    [apply strcmp_eq_true in H1; subst st; cbn;
     repeat split; try discriminate; try reflexivity;
     try (intros [H|H]; discriminate H); try (intros H; exfalso; apply H; auto)|].
  destruct (strcmp_eq st "degraded_performance") eqn:H2;
    [apply strcmp_eq_true in H2; subst st; cbn;
     repeat split; try discriminate; try reflexivity; auto;
     try (intros H; exfalso; apply H; auto)|].
  destruct (strcmp_eq st "partial_outage") eqn:H3;
    [apply strcmp_eq_true in H3; subst st; cbn;
     repeat split; try discriminate; try reflexivity; auto;
     try (intros H; exfalso; apply H; auto)|].
  destruct (strcmp_eq st "major_outage") eqn:H4;
    [apply strcmp_eq_true in H4; subst st; cbn;
     repeat split; try discriminate; try reflexivity; auto;
     try (intros [H|H]; discriminate H);
     try (intros H; exfalso; apply H; auto 6)|].
  apply strcmp_eq_false in H1, H2, H3, H4.
  repeat split; try discriminate; try reflexivity; try contradiction;
    try (intros [H|H]; contradiction);
    try (intros [H|[H|[H|H]]]; contradiction);
    intros _ [H|[H|[H|H]]]; contradiction.
Qed.

(** X9.  The widgets and the severity agree: a valid result has severity 2
    exactly when one of its displayed components is drawn in red with the
    icon "X", and reports all components operational exactly when every
    displayed component is drawn in green with the plain dot. *)
Theorem widgets_agree_with_severity prev inp :
  valid (build_result prev inp) = true ->
  let res := build_result prev inp in
  (worstSeverity res = 2%Z <->
   exists st, In st (stored_statuses res) /\
              statusColor st = DANGER /\ statusIconChar st = "X") /\
  (res_allOperational res = true <->
   forall st, In st (stored_statuses res) ->
              statusColor st = SECONDARY /\ statusIconChar st = "").
Proof.
  intros Hv res. subst res.
  rewrite (worstSeverity_spec prev inp Hv), (allOperational_spec prev inp Hv).
  set (sts := stored_statuses (build_result prev inp)).
  set (inc := hasIncidents (build_result prev inp)).
  split.
  - unfold spec_severity. pose proof (existsb_is_major sts) as Hmaj. split.
    + intros Hsev. destruct (existsb is_major sts) eqn:Hm.
      * exists "major_outage". split; [apply Hmaj; reflexivity|].
        split; reflexivity.
      * destruct (existsb is_warning sts || inc); discriminate Hsev.
    + intros (st & Hin & Hcol & _).
      apply (proj1 (status_tables st)) in Hcol. subst st.
      apply Hmaj in Hin. rewrite Hin. reflexivity.
  - rewrite forallb_is_operational. split.
    + intros Hall st Hin. rewrite (Hall st Hin). split; reflexivity.
    + intros Hall st Hin. destruct (Hall st Hin) as [Hcol _].
      destruct (status_tables st) as (_ & _ & _ & Hop & _). apply Hop, Hcol.
Qed.

Lemma widgets_agree_with_severity_witness :
  exists st, In st (stored_statuses (build_result [] (poll_of feed_outage 0))) /\
             statusColor st = DANGER /\ statusIconChar st = "X".
Proof.
  apply (widgets_agree_with_severity [] (poll_of feed_outage 0) eq_refl).
  reflexivity.
Defined.

(** ** What the two cores keep true *)

Lemma loop_idle_prevStatus env inp s :
  prevStatus (loop_idle env inp s) = prevStatus s /\
  colSprite (loop_idle env inp s) =
    (if screensaverActive (loop_idle env inp s) then
       if screensaverActive s then colSprite s else true
     else colSprite s).
Proof.
  unfold loop_idle. destruct (screensaverActive s) eqn:Hact; cbn [negb andb].
  - rewrite Hact. split; reflexivity.
  - destruct (screenAsleep inp); cbn [negb].
    + rewrite Hact. split; reflexivity.
    + unfold millis. cbn [lastTouchTime set_clk].
      destruct (_ <=? _)%Z.
      * destruct (matrixStartScreensaver_fields env (set_clk (S (clk s)) s))
          as (Ha & Hc & _ & _ & Hp & _).
        rewrite Ha, Hc, Hp. split; reflexivity.
      * cbn [screensaverActive prevStatus colSprite set_clk]. rewrite Hact.
        split; reflexivity.
Qed.

Lemma matrixDrawFrame_colSprite env s :
  colSprite (matrixDrawFrame env s) = colSprite s.
Proof.
  unfold matrixDrawFrame.
  cbn [colSprite matrixCols rnd matrixSeverity matrixGlyphIdx matrixColors emit].
  destruct (colSprite s) eqn:Hs; cbn [negb]; [|exact Hs].
  destruct (for_columns _ _ _ _) as [cols k].
  destruct (render_columns _ _ _ _ _ _ _ _) as [[[glyphs colors] k'] evs].
  cbn [colSprite emit set_matrix]. exact Hs.
Qed.

Lemma loop_animate_prevStatus env inp s :
  prevStatus (loop_animate env inp s) = prevStatus s /\
  colSprite (loop_animate env inp s) = colSprite s.
Proof.
  unfold loop_animate. destruct (_ && _); [|split; reflexivity].
  unfold millis. cbn [lastFrameTime set_clk].
  destruct (_ <=? _)%Z; [|split; reflexivity].
  cbn [prevStatus colSprite set_lastFrameTime set_clk].
  destruct (matrixDrawFrame_fields env (set_clk (S (clk s)) s))
    as (_ & _ & _ & Hp & _).
  rewrite Hp, matrixDrawFrame_colSprite. split; reflexivity.
Qed.

Lemma loop_touch_prevStatus env inp s :
  prevStatus (loop_touch env inp s) = prevStatus s.
Proof.
  destruct (Z.ltb_spec 0 (touchCount inp)) as [H|H].
  - destruct (loop_touch_some env inp s H) as (_ & _ & _ & Hp & _). exact Hp.
  - rewrite loop_touch_none by exact H. reflexivity.
Qed.

Lemma apply_result_prevStatus env res s :
  prevStatus (apply_result env res s) =
  if valid res then fst (detect_changes res (prevStatus s)) else prevStatus s.
Proof.
  destruct (valid res) eqn:Hv.
  - destruct (apply_result_valid env res s Hv) as (Hp & _). exact Hp.
  - destruct (apply_result_invalid env res s Hv) as (_ & _ & _ & Hp & _). exact Hp.
Qed.

Lemma detect_upto_fits res prev n :
  Forall (fun p => String.length p <= 31) prev ->
  Forall (fun p => String.length p <= 31) (fst (detect_upto res prev n)).
Proof.
  intros Hfit. induction n as [|n IH]; [exact Hfit|].
  rewrite detect_upto_S. unfold compare_slot.
  destruct (negb _); cbn [fst]; [|exact IH].
  apply Forall_insert; [exact IH|apply strncpy_length].
Qed.

Lemma loop_tables env inp s : tables_ok s -> tables_ok (loop env inp s).
Proof.
  intros (Hlen & Hfit & Hwf). unfold tables_ok.
  destruct (loop_channel env inp s) as (Hf & _). rewrite Hf.
  unfold loop.
  rewrite (proj1 (loop_animate_prevStatus env inp _)).
  rewrite (proj1 (loop_idle_prevStatus env inp _)).
  assert (Hp : prevStatus (loop_apply env inp (loop_touch env inp s))
               = prevStatus s \/
               prevStatus (loop_apply env inp (loop_touch env inp s))
               = fst (detect_changes (fetchResult s) (prevStatus s))).
  { unfold loop_apply. destruct (loop_touch_channel env inp s) as (Hf1 & _).
    pose proof (loop_touch_prevStatus env inp s) as Hp1.
    destruct (newDataReady (loop_touch env inp s)); [|left; exact Hp1].
    destruct (consumeLock inp); [|left; exact Hp1].
    rewrite applyFetchResults_locked, apply_result_prevStatus.
    cbn [prevStatus set_channel]. rewrite Hf1, Hp1.
    destruct (valid (fetchResult s)); [right|left]; reflexivity. }
  destruct Hp as [-> | ->];
    [split; [exact Hlen|split; [exact Hfit|exact Hwf]]|].
  rewrite detect_changes_upto. split; [|split; [|exact Hwf]].
  - rewrite detect_upto_length. exact Hlen.
  - apply detect_upto_fits, Hfit.
Qed.

Lemma fetchTask_cycle_tables inp s :
  tables_ok s -> tables_ok (fetchTask_cycle inp s).
Proof.
  intros (Hlen & Hfit & Hwf). unfold tables_ok, fetchTask_cycle.
  destruct (wifiConnected inp), (publishLock inp); cbn [negb];
    cbn [publish publish_wifi_error prevStatus fetchResult set_channel];
    (split; [exact Hlen|split; [exact Hfit|]]);
    first [exact Hwf | apply build_result_well_formed].
Qed.

Lemma initial_tables : tables_ok initial_state.
Proof.
  unfold tables_ok, initial_state. cbn [prevStatus fetchResult].
  split; [apply length_replicate|]. split.
  - apply Forall_replicate. simpl. lia.
  - unfold well_formed_result, zero_result, component_at. cbn [components componentCount].
    split; [apply length_replicate|]. split; [lia|].
    intros i. apply (component_at_copy [] MAX_COMPONENTS i).
Qed.

(** X10.  The tables keep their shape whatever the two cores do: after a
    cycle of the task or a pass of [loop], [prevStatus] still has its ten
    rows, none longer than 31 bytes, and the shared result still has ten
    slots and a count of at most ten; so the loops of [applyFetchResults],
    which run up to that count, stay inside both arrays. *)
Theorem tables_stay_in_bounds env inp poll s :
  tables_ok s ->
  tables_ok (fetchTask_cycle poll s) /\
  tables_ok (loop env inp s) /\
  componentCount (fetchResult s) <= length (prevStatus s) /\
  componentCount (fetchResult s) <= length (components (fetchResult s)).
Proof.
  intros Hok. split; [apply fetchTask_cycle_tables, Hok|].
  split; [apply loop_tables, Hok|].
  destruct Hok as (Hlen & _ & Hclen & Hn & _). rewrite Hlen, Hclen.
  split; exact Hn.
Qed.

Lemma tables_stay_in_bounds_witness :
  tables_ok (loop demo_env no_touch
               (fetchTask_cycle (poll_of feed_outage 0) initial_state)).
Proof.
  apply (tables_stay_in_bounds demo_env no_touch (poll_of feed_outage 0)).
  apply (tables_stay_in_bounds demo_env no_touch (poll_of feed_outage 0)).
  apply initial_tables.
Defined.

Lemma apply_result_colSprite env res s :
  colSprite s = screensaverActive s ->
  colSprite (apply_result env res s) = screensaverActive (apply_result env res s).
Proof.
  intros Hinv. unfold apply_result. destruct (valid res); cbn [negb].
  - cbn [prevStatus set_cachedStatusText].
    destruct (detect_changes res (prevStatus s)) as [prev changed].
    cbn [set_prevStatus set_health set_cachedStatusText hasUnresolvedIncidents
         screensaverActive].
    destruct ((changed || xorb (hasUnresolvedIncidents s) (hasIncidents res))
              && screensaverActive s).
    + unfold matrixStopScreensaver, updateStatusBanner, millis.
      cbn -[to_uint32 banner_of widget_update seq strncpy]. reflexivity.
    + destruct (screensaverActive s) eqn:Hact;
        unfold updateStatusBanner;
        cbn -[to_uint32 banner_of widget_update seq strncpy];
        rewrite ?Hact;
        cbn -[to_uint32 banner_of widget_update seq strncpy];
        rewrite ?Hact; exact Hinv.
  - cbn [screensaverActive set_cachedStatusText].
    destruct (screensaverActive s) eqn:Hact; cbn [negb];
      cbn [colSprite screensaverActive emit set_cachedStatusText];
      rewrite ?Hact; exact Hinv.
Qed.

Lemma loop_touch_colSprite env inp s :
  colSprite s = screensaverActive s ->
  colSprite (loop_touch env inp s) = screensaverActive (loop_touch env inp s).
Proof.
  intros Hinv. unfold loop_touch. destruct (0 <? touchCount inp)%Z; [|exact Hinv].
  unfold millis. cbn [screensaverActive set_lastTouchTime set_clk].
  destruct (screensaverActive s) eqn:Hact.
  - destruct (matrixStopScreensaver_fields env
                (set_lastTouchTime (to_uint32 (millis_at env (clk s)))
                   (set_clk (S (clk s)) s))) as (Ha & Hc & _).
    rewrite Ha, Hc. reflexivity.
  - cbn [colSprite screensaverActive set_lastTouchTime set_clk].
    rewrite ?Hact. exact Hinv.
Qed.

(** X11.  The strip sprite exists exactly while the screensaver is active:
    if that holds before a pass of [loop] or a cycle of the task it holds
    after it, so a frame is never asked for without a sprite and no sprite
    outlives the screensaver. *)
Theorem sprite_tracks_screensaver env inp poll s :
  colSprite s = screensaverActive s ->
  colSprite (loop env inp s) = screensaverActive (loop env inp s) /\
  colSprite (fetchTask_cycle poll s) = screensaverActive (fetchTask_cycle poll s).
Proof.
  intros Hinv. split.
  - unfold loop.
    set (s1 := loop_touch env inp s).
    assert (H1 : colSprite s1 = screensaverActive s1)
      by (apply loop_touch_colSprite, Hinv).
    set (s2 := loop_apply env inp s1).
    assert (H2 : colSprite s2 = screensaverActive s2).
    { subst s2. unfold loop_apply. destruct (newDataReady s1); [|exact H1].
      destruct (consumeLock inp); [|exact H1].
      rewrite applyFetchResults_locked. apply apply_result_colSprite. exact H1. }
    set (s3 := loop_idle env inp s2).
    assert (H3 : colSprite s3 = screensaverActive s3).
    { subst s3. destruct (screensaverActive s2) eqn:Hbefore.
      - rewrite (loop_idle_active env inp s2 Hbefore), Hbefore. exact H2.
      - rewrite (proj2 (loop_idle_prevStatus env inp s2)), Hbefore.
        destruct (screensaverActive (loop_idle env inp s2));
          [reflexivity|exact H2]. }
    rewrite (proj2 (loop_animate_prevStatus env inp s3)).
    destruct (loop_animate_fields env inp s3) as (Ha & _). rewrite Ha. exact H3.
  - unfold fetchTask_cycle.
    destruct (wifiConnected poll), (publishLock poll); exact Hinv.
Qed.

Lemma sprite_tracks_screensaver_witness :
  colSprite (loop demo_env no_touch
               (fetchTask_cycle (poll_of feed_outage 0) saver_state)) = false.
Proof.
  rewrite (proj1 (sprite_tracks_screensaver demo_env no_touch
                    (poll_of feed_outage 0)
                    (fetchTask_cycle (poll_of feed_outage 0) saver_state)
                    eq_refl)).
  reflexivity.
Defined.

(** ** Touch, sleep and the idle timer *)

(** X12.  A touch on the dashboard, with nothing pending from the task,
    calls nothing on the display and leaves the screensaver off: the pass
    only restarts the idle timer at the reading of the clock it took for
    the touch. *)
Theorem touch_on_dashboard_is_silent env inp s :
  screensaverActive s = false -> newDataReady s = false ->
  (0 < touchCount inp)%Z ->
  (to_uint32 (to_uint32 (millis_at env (S (clk s)))
              - to_uint32 (millis_at env (clk s))) < SCREENSAVER_TIMEOUT)%Z ->
  new_events s (loop env inp s) = [] /\
  screensaverActive (loop env inp s) = false /\
  lastTouchTime (loop env inp s) = to_uint32 (millis_at env (clk s)).
Proof.
  intros Hoff Hnew Htouch Hrecent. unfold loop.
  assert (H1 : loop_touch env inp s =
               set_lastTouchTime (to_uint32 (millis_at env (clk s)))
                 (set_clk (S (clk s)) s)).
  { unfold loop_touch, millis.
    destruct (Z.ltb_spec 0 (touchCount inp)); [|lia].
    cbn [screensaverActive set_lastTouchTime set_clk]. rewrite Hoff. reflexivity. }
  rewrite H1. set (s1 := set_lastTouchTime _ _).
  rewrite (loop_apply_idle env inp s1 Hnew).
  destruct (loop_idle_quiet env inp s1 Hoff Hrecent) as (Hoff3 & Hev3 & _).
  rewrite (loop_animate_inactive env inp _ Hoff3).
  change (new_events s) with (new_events s1). rewrite Hev3.
  split; [reflexivity|]. split; [exact Hoff3|].
  clear Hoff3 Hev3. subst s1. unfold loop_idle.
  cbn [screensaverActive set_lastTouchTime set_clk].
  rewrite Hoff. cbn [negb andb].
  destruct (screenAsleep inp); cbn [negb]; [reflexivity|].
  unfold millis. cbn [lastTouchTime clk set_lastTouchTime set_clk].
  destruct (Z.leb_spec SCREENSAVER_TIMEOUT
              (to_uint32 (to_uint32 (millis_at env (S (clk s)))
                          - to_uint32 (millis_at env (clk s))))); [lia|].
  reflexivity.
Qed.

Lemma touch_on_dashboard_is_silent_witness :
  new_events initial_state
    (loop demo_env {| touchCount := 1; screenAsleep := false; consumeLock := true |}
       initial_state) = [].
Proof.
  apply (touch_on_dashboard_is_silent demo_env
           {| touchCount := 1; screenAsleep := false; consumeLock := true |}
           initial_state); reflexivity.
Defined.

Lemma loop_apply_frames env inp s :
  count_events is_frame (new_events s (loop_apply env inp s)) = 0 /\
  extends s (loop_apply env inp s) /\
  (screensaverActive s = false ->
   screensaverActive (loop_apply env inp s) = false).
Proof.
  unfold loop_apply.
  destruct (newDataReady s);
    [|rewrite new_events_refl; repeat split; [apply extends_refl|auto]].
  destruct (consumeLock inp);
    [|rewrite applyFetchResults_unlocked, new_events_refl;
      repeat split; [apply extends_refl|auto]].
  rewrite applyFetchResults_locked.
  set (s0 := set_channel (fetchResult s) false s).
  change (new_events s) with (new_events s0).
  destruct (valid (fetchResult s)) eqn:Hv.
  - destruct (apply_result_valid env (fetchResult s) s0 Hv)
      as (_ & _ & _ & _ & Ha & _ & _ & _ & _ & _ & _ & Hframe & Hext).
    split; [exact Hframe|]. split.
    + destruct Hext as [evs Hscr]. exists evs. exact Hscr.
    + intros Hoff. rewrite Ha.
      change (screensaverActive s0) with (screensaverActive s).
      rewrite Hoff, andb_false_r. reflexivity.
  - destruct (apply_result_invalid env (fetchResult s) s0 Hv)
      as (_ & _ & _ & _ & Ha & _ & _ & _ & _ & _ & _ & _ & Hframe & Hext).
    split; [exact Hframe|]. split.
    + destruct Hext as [evs Hscr]. exists evs. exact Hscr.
    + intros Hoff. rewrite Ha. exact Hoff.
Qed.

Lemma loop_touch_frames env inp s :
  count_events is_frame (new_events s (loop_touch env inp s)) = 0 /\
  extends s (loop_touch env inp s) /\
  (screensaverActive s = false ->
   screensaverActive (loop_touch env inp s) = false).
Proof.
  destruct (Z.ltb_spec 0 (touchCount inp)) as [H|H].
  - destruct (loop_touch_some env inp s H)
      as (Ha & _ & _ & _ & _ & _ & _ & _ & Hframe & Hext).
    repeat split; auto.
  - rewrite loop_touch_none by exact H. rewrite new_events_refl.
    repeat split; [apply extends_refl|auto].
Qed.

(** X13.  While the display sleeps, a pass of [loop] draws no frame, and
    it does not start the screensaver: if the screensaver was off it is
    still off after the pass, however long the panel has been idle. *)
Theorem asleep_means_no_animation env inp s :
  screenAsleep inp = true ->
  count_events is_frame (new_events s (loop env inp s)) = 0 /\
  (screensaverActive s = false -> screensaverActive (loop env inp s) = false).
Proof.
  intros Hsleep. unfold loop.
  destruct (loop_touch_frames env inp s) as (Hf1 & He1 & Ha1).
  set (s1 := loop_touch env inp s) in *.
  destruct (loop_apply_frames env inp s1) as (Hf2 & He2 & Ha2).
  set (s2 := loop_apply env inp s1) in *.
  assert (H3 : loop_idle env inp s2 = s2).
  { unfold loop_idle. rewrite Hsleep, andb_false_r. reflexivity. }
  rewrite H3.
  assert (H4 : loop_animate env inp s2 = s2).
  { unfold loop_animate. rewrite Hsleep, andb_false_r. reflexivity. }
  rewrite H4. split.
  - rewrite (new_events_trans s s1 s2 He1 He2), count_events_app, Hf1, Hf2.
    reflexivity.
  - intros Hoff. apply Ha2, Ha1, Hoff.
Qed.

Lemma asleep_means_no_animation_witness :
  count_events is_frame
    (new_events saver_state
       (loop demo_env {| touchCount := 0; screenAsleep := true; consumeLock := true |}
          saver_state)) = 0.
Proof.
  apply (asleep_means_no_animation demo_env
           {| touchCount := 0; screenAsleep := true; consumeLock := true |}
           saver_state eq_refl).
Defined.

Lemma uint32_elapsed t0 d :
  (0 <= d < 4294967296)%Z ->
  to_uint32 (to_uint32 (t0 + d) - to_uint32 t0) = d.
Proof.
  intros Hd. unfold to_uint32.
  rewrite <- Zminus_mod.
  replace (t0 + d - t0)%Z with d by lia.
  apply Z.mod_small, Hd.
Qed.

(** X14.  The idle test measures time on the 32-bit counter, so it is
    right across the wrap of [millis ()]: with the last touch at reading
    [t0] and the clock now [d] milliseconds later, whatever [t0] is, the
    screensaver starts exactly when [d] has reached the timeout. *)
Theorem idle_timer_survives_wrap env inp s t0 d :
  screensaverActive s = false -> screenAsleep inp = false ->
  lastTouchTime s = to_uint32 t0 ->
  millis_at env (clk s) = (t0 + d)%Z ->
  (0 <= d < 4294967296)%Z ->
  screensaverActive (loop_idle env inp s) = (SCREENSAVER_TIMEOUT <=? d)%Z.
Proof.
  intros Hoff Hawake Hlast Hnow Hd. unfold loop_idle, millis.
  rewrite Hoff, Hawake. cbn [negb andb lastTouchTime set_clk].
  rewrite Hlast, Hnow, uint32_elapsed by exact Hd.
  destruct (SCREENSAVER_TIMEOUT <=? d)%Z.
  - destruct (matrixStartScreensaver_fields env (set_clk (S (clk s)) s)) as (Ha & _).
    exact Ha.
  - exact Hoff.
Qed.

Lemma idle_timer_survives_wrap_witness :
  screensaverActive
    (loop_idle wrapped_env no_touch
       (set_lastTouchTime 4294867296 initial_state)) = true.
Proof.
  rewrite (idle_timer_survives_wrap wrapped_env no_touch
             (set_lastTouchTime 4294867296 initial_state)
             4294867296 300000 eq_refl eq_refl eq_refl eq_refl
             ltac:(lia)).
  reflexivity.
Defined.

(** ** The rain columns over many frames *)

Lemma for_columns_Forall (P Q : MatrixColumn -> Prop) f n cols k :
  (forall k c, P c -> Q (fst (f k c))) ->
  Forall P (take n cols) ->
  Forall Q (take n (fst (for_columns f n cols k))).
Proof.
  intros Hf. revert cols k.
  induction n as [|n IH]; intros cols k Hall; [constructor|].
  destruct cols as [|col rest]; [constructor|].
  cbn [for_columns]. destruct (f k col) as [col' k'] eqn:Hfk.
  specialize (IH rest k'). destruct (for_columns f n rest k') as [rest' k''].
  cbn [fst take] in *. inversion Hall as [|? ? Hc Hrest]; subst.
  constructor; [|apply IH, Hrest].
  specialize (Hf k col Hc). rewrite Hfk in Hf. exact Hf.
Qed.

Lemma init_column_ok env k col :
  (0 <= screenH env <= 32000)%Z -> column_ok env (fst (init_column env k col)).
Proof.
  intros HH. unfold init_column, spawn_column, column_ok.
  cbn [fst headY speed col_length active spawnDelay].
  pose proof (random_range_range 14 26 (entropy_at env (k + 1)) eq_refl) as Hs.
  pose proof (random_range_range 8 24 (entropy_at env (k + 2)) eq_refl) as Hl.
  assert (Hh : (- Z.max (screenH env) 120
                < - random_below (screenH env) (entropy_at env k) <= 0)%Z).
  { unfold random_below. destruct (Z.leb_spec (screenH env) 0); [lia|].
    pose proof (Z.mod_pos_bound (entropy_at env k) (screenH env)). lia. }
  change MATRIX_CHAR_H with 30%Z.
  rewrite !to_int16_small by lia. repeat split; lia.
Qed.

Lemma update_column_ok env k col :
  (0 <= screenH env <= 32000)%Z ->
  column_ok env col -> column_ok env (fst (update_column env k col)).
Proof.
  intros HH (Hs & Hl & Hd & Hlo & Hhi & Hact).
  change MATRIX_CHAR_H with 30%Z in *.
  unfold update_column, respawn_column.
  destruct (active col) eqn:Ha.
  - specialize (Hact eq_refl). unfold advance_column. rewrite Ha.
    change MATRIX_CHAR_H with 30%Z.
    rewrite to_int16_small by lia.
    destruct (Z.ltb_spec (screenH env) (headY col + speed col - col_length col * 30));
      unfold column_ok; cbn [fst headY speed col_length active spawnDelay];
      change MATRIX_CHAR_H with 30%Z.
    + pose proof (random_range_range 5 40 (entropy_at env k) eq_refl) as Hr.
      rewrite to_uint8_small by lia.
      repeat split; try lia; discriminate.
    + repeat split; lia.
  - destruct (Z.ltb_spec 0 (spawnDelay col)).
    + unfold advance_column. cbn [active].
      unfold column_ok; cbn [fst headY speed col_length active spawnDelay].
      change MATRIX_CHAR_H with 30%Z.
      rewrite to_uint8_small by lia. repeat split; try lia; discriminate.
    + unfold advance_column, spawn_column.
      cbn [active headY speed col_length spawnDelay].
      change (MATRIX_CHAR_H * 4)%Z with 120%Z. change MATRIX_CHAR_H with 30%Z.
      pose proof (random_below_range 120 (entropy_at env k) eq_refl) as Hh.
      pose proof (random_range_range 14 26 (entropy_at env (k + 1)) eq_refl) as Hs'.
      pose proof (random_range_range 8 24 (entropy_at env (k + 2)) eq_refl) as Hl'.
      rewrite !to_int16_small by (rewrite ?to_int16_small by lia; lia).
      destruct (Z.ltb_spec (screenH env)
                  (- random_below 120 (entropy_at env k)
                   + random_range 14 26 (entropy_at env (k + 1))
                   - random_range 8 24 (entropy_at env (k + 2)) * 30)); [lia|].
      unfold column_ok; cbn [fst headY speed col_length active spawnDelay].
      change MATRIX_CHAR_H with 30%Z. repeat split; lia.
Qed.

Lemma num_rows_fits env :
  (0 <= screenH env)%Z -> num_rows env <= MATRIX_ROWS_MAX ->
  (0 <= screenH env <= 32000)%Z.
Proof.
  unfold num_rows, MATRIX_ROWS_MAX, MATRIX_CHAR_H. intros H0 Hn.
  rewrite Z.quot_div_nonneg in Hn by lia.
  pose proof (Z.div_mod (screenH env) 30 ltac:(lia)).
  pose proof (Z.mod_pos_bound (screenH env) 30 eq_refl).
  pose proof (Z.div_pos (screenH env) 30 H0 eq_refl). lia.
Qed.

(** X15.  On a panel of at most [MATRIX_ROWS_MAX] rows of cells, the
    height the cell tables are declared for, every column the animation
    uses stays in range for ever: the screensaver starts with columns
    whose speed is within [14, 25], whose length is within [8, 23], whose
    delay is within [0, 39] and whose head lies between the highest spawn
    point and the point where the tail has left the screen, and every
    frame keeps them so.  In particular the 16-bit head position never
    wraps. *)
Theorem columns_stay_in_range env s :
  (0 <= screenH env)%Z -> num_rows env <= MATRIX_ROWS_MAX ->
  Forall (column_ok env)
         (take (num_cols env) (matrixCols (matrixStartScreensaver env s))) /\
  (Forall (column_ok env) (take (num_cols env) (matrixCols s)) ->
   Forall (column_ok env)
          (take (num_cols env) (matrixCols (matrixDrawFrame env s)))).
Proof.
  intros H0 Hrows. pose proof (num_rows_fits env H0 Hrows) as HH. split.
  - unfold matrixStartScreensaver, matrixInit, millis.
    cbn [matrixCols rnd emit set_screensaverActive set_colSprite].
    pose proof (for_columns_Forall (fun _ => True) (column_ok env)
                  (init_column env) (num_cols env) (matrixCols s) (rnd s)
                  (fun k c _ => init_column_ok env k c HH)) as Hall.
    destruct (for_columns (init_column env) (num_cols env) (matrixCols s) (rnd s))
      as [cols k].
    cbn -[to_uint32 zero_grid]. cbn [fst] in Hall. apply Hall.
    apply Forall_forall. intros; exact I.
  - intros Hok. unfold matrixDrawFrame.
    cbn [colSprite emit matrixCols rnd matrixSeverity matrixGlyphIdx matrixColors].
    destruct (colSprite s); cbn [negb]; [|exact Hok].
    pose proof (for_columns_Forall (column_ok env) (column_ok env)
                  (update_column env) (num_cols env) (matrixCols s) (rnd s)
                  (fun k c => update_column_ok env k c HH) Hok) as Hall.
    destruct (for_columns (update_column env) (num_cols env) (matrixCols s) (rnd s))
      as [cols k].
    destruct (render_columns env (matrixSeverity s) (num_cols env) 0 cols
                (matrixGlyphIdx s) (matrixColors s) k) as [[[glyphs colors] k'] evs].
    cbn [fst] in Hall. exact Hall.
Qed.

Lemma columns_stay_in_range_witness :
  Forall (column_ok demo_env)
         (take (num_cols demo_env)
               (matrixCols (matrixDrawFrame demo_env
                              (matrixStartScreensaver demo_env initial_state)))).
Proof.
  assert (H0 : (0 <= screenH demo_env)%Z) by (cbn; lia).
  assert (Hrows : num_rows demo_env <= MATRIX_ROWS_MAX) by (vm_compute; lia).
  apply (columns_stay_in_range demo_env
           (matrixStartScreensaver demo_env initial_state) H0 Hrows).
  apply (columns_stay_in_range demo_env initial_state H0 Hrows).
Defined.

Lemma update_column_falls env k col :
  (0 <= screenH env <= 32000)%Z -> column_ok env col -> active col = true ->
  active (fst (update_column env k col)) = true ->
  headY (fst (update_column env k col)) = (headY col + speed col)%Z /\
  col_length (fst (update_column env k col)) = col_length col.
Proof.
  intros HH (Hs & Hl & Hd & Hlo & Hhi & Hact) Ha.
  specialize (Hact Ha). change MATRIX_CHAR_H with 30%Z in *.
  unfold update_column, respawn_column, advance_column. rewrite Ha.
  cbn [active]. rewrite Ha.
  rewrite to_int16_small by lia.
  destruct (screenH env <? _)%Z; cbn [fst active headY col_length].
  - discriminate.
  - intros _. split; reflexivity.
Qed.

Lemma retire_within env m :
  (0 <= screenH env <= 32000)%Z ->
  forall k col,
    column_ok env col -> active col = true ->
    (screenH env + col_length col * MATRIX_CHAR_H - headY col < 14 * Z.of_nat m)%Z ->
    exists n, n <= m /\ active (fst (tick_column env n k col)) = false.
Proof.
  intros HH. induction m as [|m IH]; intros k col Hok Ha Hm.
  - destruct Hok as (_ & _ & _ & _ & _ & Hact). specialize (Hact Ha). lia.
  - pose proof (update_column_ok env k col HH Hok) as Hok'.
    pose proof (update_column_falls env k col HH Hok Ha) as Hfall.
    destruct (update_column env k col) as [col' k'] eqn:Hup. cbn [fst] in *.
    destruct (active col') eqn:Ha'.
    + destruct (Hfall eq_refl) as (Hy & Hlen).
      destruct (IH k' col' Hok' Ha') as (n & Hn & Hoff).
      { destruct Hok as (Hs & _). rewrite Hy, Hlen. lia. }
      exists (S n). split; [lia|]. cbn [tick_column]. rewrite Hup. exact Hoff.
    + exists 1. split; [lia|]. cbn [tick_column]. rewrite Hup. exact Ha'.
Qed.

(** X16.  A falling column leaves the screen: an active column in range
    is retired after at most [(screenH + 30 * length - headY) / 14 + 1]
    frames, whatever the random source draws. *)
Theorem active_column_retires env k col :
  (0 <= screenH env <= 32000)%Z -> column_ok env col -> active col = true ->
  exists n,
    (Z.of_nat n
     <= (screenH env + col_length col * MATRIX_CHAR_H - headY col) / 14 + 1)%Z /\
    active (fst (tick_column env n k col)) = false.
Proof.
  intros HH Hok Ha.
  set (D := (screenH env + col_length col * MATRIX_CHAR_H - headY col)%Z).
  assert (HD : (0 <= D)%Z).
  { destruct Hok as (_ & _ & _ & _ & _ & Hact). specialize (Hact Ha).
    unfold D. lia. }
  destruct (retire_within env (Z.to_nat (D / 14 + 1)) HH k col Hok Ha)
    as (n & Hn & Hoff).
  { fold D. pose proof (Z.div_pos D 14 HD eq_refl).
    rewrite Z2Nat.id by lia.
    pose proof (Z.mod_pos_bound D 14 eq_refl).
    pose proof (Z.div_mod D 14 ltac:(lia)). lia. }
  exists n. split; [|exact Hoff].
  pose proof (Z.div_pos D 14 HD eq_refl). lia.
Qed.

Lemma active_column_retires_witness :
  exists n,
    (Z.of_nat n <= 67)%Z /\
    active (fst (tick_column demo_env n 0 falling_column)) = false.
Proof.
  apply (active_column_retires demo_env 0 falling_column).
  - cbn; lia.
  - unfold column_ok, falling_column. cbn. repeat split; try lia; discriminate.
  - reflexivity.
Defined.




(** ** What a frame leaves alone *)

(** X18.  On a panel of at most [MATRIX_ROWS_MAX] rows of cells a frame
    stays inside the tables and writes only inside the grid in use: no
    access falls outside the cell tables, the three tables keep their
    shape, the columns from [numCols] on keep their state, and every cell
    of a column from [numCols] on or of a row from [numRows] on keeps its
    glyph and its colour. *)
Theorem frame_touches_only_the_grid env s :
  tables_shaped s -> num_rows env <= MATRIX_ROWS_MAX ->
  let s' := matrixDrawFrame env s in
  tables_shaped s' /\
  count_events is_fault (new_events s s') = 0 /\
  (forall c, num_cols env <= c -> matrixCols s' !! c = matrixCols s !! c) /\
  (forall c r, c < MATRIX_MAX_COLS -> r < MATRIX_ROWS_MAX ->
     num_cols env <= c \/ num_rows env <= r ->
     cell_at (matrixGlyphIdx s') c r = cell_at (matrixGlyphIdx s) c r /\
     cell_at (matrixColors s') c r = cell_at (matrixColors s) c r).
Proof.
  intros Hs Hrows. destruct (colSprite s) eqn:Hspr.
  - destruct (matrixDrawFrame_cells env s Hspr Hs Hrows)
      as (_ & Hs' & Hfault & Hcols & Hout & _).
    split; [exact Hs'|]. split; [exact Hfault|]. split; [exact Hcols|].
    exact Hout.
  - unfold matrixDrawFrame. cbn [colSprite emit]. rewrite Hspr. cbn [negb].
    split; [exact Hs|]. split.
    + rewrite (new_events_emit s _ [Call_matrixDrawFrame]) by reflexivity.
      reflexivity.
    + split; [reflexivity|]. intros c r _ _ _. split; reflexivity.
Qed.

Lemma frame_touches_only_the_grid_witness :
  cell_at (matrixColors (matrixDrawFrame demo_env saver_state)) 58 0
  = cell_at (matrixColors saver_state) 58 0.
Proof.
  apply (frame_touches_only_the_grid demo_env saver_state
           initial_tables_shaped ltac:(vm_compute; lia));
    vm_compute; lia.
Defined.

(** ** A panel taller than the tables *)

(** On a panel 900 pixels high the row loop runs for 30 rows: past row 25
    of its own column it reads and writes the cells of the next one, here
    fading a colour that column 1, which is not in use, holds in row 0. *)
Example tall_panel_writes_next_column :
  num_cols tall_env = 1 /\ num_rows tall_env = 30 /\
  cell_at (matrixColors tall_state) 1 0 = Some 65535%Z /\
  cell_at (matrixColors (matrixDrawFrame tall_env tall_state)) 1 0
  = Some (fade_color 65535).
Proof. vm_compute. repeat split. Qed.

(** With all 59 columns in use, the rows past row 25 of the last column
    lie outside the tables. *)
Example tall_wide_panel_leaves_tables :
  num_cols tall_wide_env = MATRIX_MAX_COLS /\
  count_events is_fault
    (new_events tall_state (matrixDrawFrame tall_wide_env tall_state)) = 1.
Proof. vm_compute. repeat split. Qed.

(** ** The first fetch, made by setup *)

Lemma sync_record_fields idx comp s w :
  let st := json_status comp in
  let out := sync_record idx comp (s, w) in
  snd out = (if is_major st then 2%Z
             else if is_warning st then Z.max w 1 else w) /\
  allOperational (fst out) = (allOperational s && is_operational st) /\
  hasUnresolvedIncidents (fst out) = hasUnresolvedIncidents s /\
  matrixSeverity (fst out) = matrixSeverity s /\
  cachedStatusText (fst out) = cachedStatusText s /\
  prevStatus (fst out) = <[idx := strncpy 31 st]> (prevStatus s) /\
  screen (fst out) =
    (screen s ++ [SetWidget idx (json_name comp) (statusDisplayText st)
                            (statusColor st) (statusIconChar st)])%list.
Proof.
  intros st out. subst out. unfold sync_record, is_major, is_warning, is_operational.
  fold st. cbn [fst snd].
  destruct (strcmp_eq st "major_outage") eqn:Hm.
  { apply strcmp_eq_true in Hm. rewrite Hm. cbn [fst snd].
    rewrite andb_false_r. repeat split. }
  destruct (strcmp_eq st "degraded_performance") eqn:Hd.
  { apply strcmp_eq_true in Hd. rewrite Hd. cbn [fst snd orb].
    rewrite andb_false_r. repeat split.
    destruct (Z.ltb_spec w 1); lia. }
  destruct (strcmp_eq st "partial_outage") eqn:Hp.
  { apply strcmp_eq_true in Hp. rewrite Hp. cbn [fst snd orb].
    rewrite andb_false_r. repeat split.
    destruct (Z.ltb_spec w 1); lia. }
  cbn [orb]. destruct (strcmp_eq st "operational"); cbn [negb fst snd].
  - rewrite andb_true_r. repeat split.
  - rewrite andb_false_r. repeat split.
Qed.

Lemma sync_loop_sync_all feed idx acc :
  sync_loop feed idx acc =
  sync_all (take (MAX_COMPONENTS - idx) (List.filter (fun c => negb (skipped c)) feed))
           idx acc.
Proof.
  revert idx acc; induction feed as [|comp rest IH]; intros idx acc;
    cbn [sync_loop List.filter].
  - rewrite take_nil; reflexivity.
  - destruct (Nat.leb_spec MAX_COMPONENTS idx) as [Hfull|Hroom].
    + replace (MAX_COMPONENTS - idx) with 0 by lia. reflexivity.
    + destruct (skipped comp); cbn [negb].
      * apply IH.
      * rewrite IH.
        replace (MAX_COMPONENTS - idx) with (S (MAX_COMPONENTS - S idx)) by lia.
        reflexivity.
Qed.

Lemma sync_all_fields cs : forall idx s w,
  idx + length cs <= length (prevStatus s) ->
  let sts := map json_status cs in
  let out := sync_all cs idx (s, w) in
  fst out = idx + length cs /\
  snd (snd out) = (if existsb is_major sts then 2%Z
                   else if existsb is_warning sts then Z.max w 1 else w) /\
  allOperational (fst (snd out)) = (allOperational s && forallb is_operational sts) /\
  hasUnresolvedIncidents (fst (snd out)) = hasUnresolvedIncidents s /\
  matrixSeverity (fst (snd out)) = matrixSeverity s /\
  cachedStatusText (fst (snd out)) = cachedStatusText s /\
  prevStatus (fst (snd out)) =
    (take idx (prevStatus s) ++ map (fun c => strncpy 31 (json_status c)) cs
       ++ drop (idx + length cs) (prevStatus s))%list /\
  extends s (fst (snd out)).
Proof.
  induction cs as [|comp rest IH]; intros idx s w Hlen;
    cbn [sync_all map length existsb forallb fst snd] in *.
  - rewrite Nat.add_0_r, andb_true_r. cbn [app]. rewrite take_drop.
    repeat split. apply extends_refl.
  - destruct (sync_record_fields idx comp s w)
      as (Hw & Ha & Hi & Hm & Ht & Hp & Hscr).
    destruct (sync_record idx comp (s, w)) as [s1 w1]. cbn [fst snd] in *.
    assert (Hlen1 : S idx + length rest <= length (prevStatus s1))
      by (rewrite Hp, length_insert; lia).
    destruct (IH (S idx) s1 w1 Hlen1) as (Ef & Ew & Ea & Ei & Em & Et & Ep & Eext).
    rewrite Ef, Ew, Ea, Ei, Em, Et, Ep, Hw, Ha, Hi, Hm, Ht.
    repeat split; try lia.
    + destruct (is_major (json_status comp)); cbn [orb].
      * destruct (existsb is_major _); [reflexivity|].
        destruct (existsb is_warning _); [|reflexivity].
        destruct (is_warning (json_status comp)); reflexivity.
      * destruct (existsb is_major _); [reflexivity|].
        destruct (is_warning (json_status comp)); cbn [orb].
        -- destruct (existsb is_warning _); lia.
        -- reflexivity.
    + rewrite andb_assoc; reflexivity.
    + rewrite Hp.
      rewrite (take_S_r _ idx (strncpy 31 (json_status comp)))
        by (apply list_lookup_insert_eq; lia).
      rewrite take_insert_ge by lia.
      rewrite drop_insert_lt by lia.
      rewrite <- app_assoc. cbn [app].
      replace (idx + S (length rest)) with (S idx + length rest) by lia.
      reflexivity.
    + apply (extends_trans s s1); [|rewrite <- Hw; exact Eext].
      eexists. exact Hscr.
Qed.

(** The state after the component block of a boot fetch that got a feed. *)
Lemma sync_components_ok reply now s feed :
  httpCode reply = HTTP_CODE_OK -> body reply = Some feed ->
  length (prevStatus s) = MAX_COMPONENTS ->
  let sts := map json_status (accepted feed) in
  let s' := sync_components reply now s in
  matrixSeverity s' = spec_severity sts false /\
  allOperational s' = (allOperational s && forallb is_operational sts) /\
  hasUnresolvedIncidents s' = hasUnresolvedIncidents s /\
  cachedStatusText s' =
    match now with
    | Some ti => strftime_updated ti
    | None => strncpy 48 "Updated"
    end /\
  prevStatus s' =
    (map (fun c => strncpy 31 (json_status c)) (accepted feed)
       ++ drop (length (accepted feed)) (prevStatus s))%list.
Proof.
  intros Hc Hb Hlen sts s'. subst s' sts. unfold sync_components.
  rewrite Hc, Hb. change (HTTP_CODE_OK =? HTTP_CODE_OK)%Z with true. cbn iota.
  rewrite sync_loop_sync_all, Nat.sub_0_r. fold (accepted feed).
  pose proof (accepted_length feed) as Hacc.
  destruct (sync_all_fields (accepted feed) 0 s 0%Z ltac:(cbn [Nat.add]; lia))
    as (_ & Ew & Ea & Ei & _ & _ & Ep & _).
  destruct (sync_all (accepted feed) 0 (s, 0%Z)) as [idx [s1 w1]].
  cbn [fst snd] in *.
  cbn [matrixSeverity allOperational hasUnresolvedIncidents cachedStatusText
       prevStatus set_health set_cachedStatusText emit].
  rewrite Ew, Ea, Ei, Ep. unfold spec_severity. rewrite orb_false_r.
  repeat split.
Qed.

Lemma sync_incidents_fields reply s :
  let s' := sync_incidents reply s in
  allOperational s' = allOperational s /\
  matrixSeverity s' = matrixSeverity s /\
  cachedStatusText s' = cachedStatusText s /\
  prevStatus s' = prevStatus s /\
  screen s' = screen s /\
  forall res, hasIncidents res = hasUnresolvedIncidents s ->
    hasUnresolvedIncidents s' = hasIncidents (fetch_incidents reply res).
Proof.
  unfold sync_incidents, fetch_incidents.
  destruct (httpCode reply =? HTTP_CODE_OK)%Z; [|repeat split; auto].
  destruct (body reply); repeat split; auto.
Qed.

Lemma factor_incidents_hasIncidents res :
  hasIncidents (factor_incidents res) = hasIncidents res.
Proof.
  unfold factor_incidents.
  destruct (hasIncidents res && (worstSeverity res <? 1)%Z); reflexivity.
Qed.

(** X19.  The fetch made by [setup] and the background task reach the
    same verdict on the same replies: starting from the values the sketch
    boots with (all operational, no incident), a boot fetch that received
    a component feed leaves the severity, the two flags and the status
    line that the task would have published for those replies, and its
    status table holds the statuses of that result. *)
Theorem boot_fetch_agrees_with_task inp s feed prev :
  wifiConnected inp = true ->
  httpCode (componentsReply inp) = HTTP_CODE_OK ->
  body (componentsReply inp) = Some feed ->
  allOperational s = true -> hasUnresolvedIncidents s = false ->
  length (prevStatus s) = MAX_COMPONENTS ->
  let s' := fetchGitHubStatusSync inp s in
  let r := build_result prev inp in
  matrixSeverity s' = worstSeverity r /\
  allOperational s' = res_allOperational r /\
  hasUnresolvedIncidents s' = hasIncidents r /\
  cachedStatusText s' = statusBarText r /\
  take (componentCount r) (prevStatus s') = stored_statuses r.
Proof.
  intros Hwifi Hc Hb Hall Hinc Hlen s' r. subst s' r.
  unfold fetchGitHubStatusSync. rewrite Hwifi. cbn [negb].
  destruct (sync_components_ok (componentsReply inp) (localTime inp) s feed
              Hc Hb Hlen) as (Sm & Sa & Si & St & Sp).
  set (s1 := sync_components (componentsReply inp) (localTime inp) s) in *.
  destruct (fetch_components_ok prev (componentsReply inp) (localTime inp) feed
              Hc Hb) as (_ & Mn & _ & _ & Ma & Mw).
  pose proof (fetch_components_hasIncidents prev (componentsReply inp)
                (localTime inp)) as Mi.
  destruct (build_result_frame prev inp) as (_ & _ & Ra & Rn & _ & Rt & Rw).
  set (mid := fetch_components prev (componentsReply inp) (localTime inp)
                fresh_result) in *.
  destruct (sync_incidents_fields (incidentsReply inp) s1)
    as (Ia & Im & It & Ip & _ & Ii).
  specialize (Ii mid ltac:(rewrite Mi, Si, Hinc; reflexivity)).
  set (s2 := sync_incidents (incidentsReply inp) s1) in *.
  assert (Hflag : hasIncidents (build_result prev inp) = hasUnresolvedIncidents s2).
  { unfold build_result. rewrite factor_incidents_hasIncidents.
    symmetry. exact Ii. }
  assert (Htext : statusBarText mid = cachedStatusText s1).
  { rewrite St. unfold mid, fetch_components. rewrite Hc, Hb.
    change (HTTP_CODE_OK =? HTTP_CODE_OK)%Z with true. cbn iota.
    destruct (fetch_loop prev feed 0 fresh_result) as [idx res].
    destruct (localTime inp); reflexivity. }
  assert (Hsev : worstSeverity (build_result prev inp) =
                 if hasUnresolvedIncidents s2 && (matrixSeverity s2 <? 1)%Z
                 then 1%Z else matrixSeverity s2).
  { rewrite Rw, Hflag, Im, Sm, Mw. unfold spec_severity.
    destruct (hasUnresolvedIncidents s2); cbn [andb];
      destruct (existsb is_major _); try reflexivity;
      destruct (existsb is_warning _); reflexivity. }
  assert (Hprev : take (componentCount (build_result prev inp)) (prevStatus s2)
                  = stored_statuses (build_result prev inp)).
  { rewrite (stored_statuses_accepted prev inp feed Hc Hb), Rn, Mn, Ip, Sp.
    rewrite take_app_length'; [reflexivity|]. rewrite length_map. reflexivity. }
  unfold updateStatusBanner.
  destruct (hasUnresolvedIncidents s2 && (matrixSeverity s2 <? 1)%Z) eqn:Hraise;
    cbn [matrixSeverity allOperational hasUnresolvedIncidents cachedStatusText
         prevStatus set_health emit];
    rewrite Hsev, Hflag, Ra, Ma, Rt, Htext, Ia, Sa, Hall, It, Hprev;
    repeat split.
Qed.

Lemma boot_fetch_agrees_with_task_witness :
  matrixSeverity
    (fetchGitHubStatusSync (poll_of feed_outage 0) initial_state) = 2%Z.
Proof.
  rewrite (proj1 (boot_fetch_agrees_with_task (poll_of feed_outage 0)
                    initial_state feed_outage [] eq_refl eq_refl eq_refl
                    eq_refl eq_refl eq_refl)).
  reflexivity.
Defined.

Lemma boot_fetch_table inp s feed :
  wifiConnected inp = true ->
  httpCode (componentsReply inp) = HTTP_CODE_OK ->
  body (componentsReply inp) = Some feed ->
  length (prevStatus s) = MAX_COMPONENTS ->
  prevStatus (fetchGitHubStatusSync inp s) =
    (map (fun c => strncpy 31 (json_status c)) (accepted feed)
       ++ drop (length (accepted feed)) (prevStatus s))%list.
Proof.
  intros Hwifi Hc Hb Hlen. unfold fetchGitHubStatusSync. rewrite Hwifi. cbn [negb].
  destruct (sync_components_ok (componentsReply inp) (localTime inp) s feed
              Hc Hb Hlen) as (_ & _ & _ & _ & Sp).
  set (s1 := sync_components (componentsReply inp) (localTime inp) s) in *.
  destruct (sync_incidents_fields (incidentsReply inp) s1)
    as (_ & _ & _ & Ip & _).
  set (s2 := sync_incidents (incidentsReply inp) s1) in *.
  unfold updateStatusBanner.
  destruct (hasUnresolvedIncidents s2 && (matrixSeverity s2 <? 1)%Z);
    cbn [prevStatus set_health emit]; rewrite Ip, Sp; reflexivity.
Qed.

(** X20.  The boot fetch primes the change detection: whatever the status
    table held before, a background poll that then receives the same
    component feed is applied without any row counting as changed, and the
    table is left as the boot fetch wrote it. *)
Theorem first_poll_after_boot_is_quiet inp poll s feed :
  wifiConnected inp = true ->
  httpCode (componentsReply inp) = HTTP_CODE_OK ->
  body (componentsReply inp) = Some feed ->
  httpCode (componentsReply poll) = HTTP_CODE_OK ->
  body (componentsReply poll) = Some feed ->
  length (prevStatus s) = MAX_COMPONENTS ->
  let s' := fetchGitHubStatusSync inp s in
  detect_changes (build_result (prevStatus s') poll) (prevStatus s')
  = (prevStatus s', false).
Proof.
  intros Hwifi Hc Hb Hc2 Hb2 Hlen s'.
  pose proof (boot_fetch_table inp s feed Hwifi Hc Hb Hlen) as Htab.
  fold s' in Htab. set (P := prevStatus s') in *.
  set (r := build_result P poll).
  pose proof (build_result_well_formed P poll) as Hwf. fold r in Hwf.
  pose proof (stored_statuses_accepted P poll feed Hc2 Hb2) as Hst. fold r in Hst.
  pose proof (stored_statuses_length r Hwf) as Hn.
  rewrite detect_changes_upto.
  assert (Hno : snd (detect_upto r P (componentCount r)) = false).
  { apply not_true_is_false. rewrite detect_upto_flag.
    intros (i & Hi & Hd). apply Hd. clear Hd.
    pose proof (stored_statuses_lookup r i Hwf Hi) as Hlook.
    unfold prev_at. rewrite Htab, lookup_app_l, <- Hst, Hlook; [reflexivity|].
    rewrite <- Hst. lia. }
  pose proof (detect_upto_no_change r P _ Hno) as Hsame.
  destruct (detect_upto r P (componentCount r)) as [prev changed].
  cbn [fst snd] in *. congruence.
Qed.

Lemma first_poll_after_boot_is_quiet_witness :
  snd (detect_changes
         (build_result
            (prevStatus (fetchGitHubStatusSync (poll_of feed_outage 0) initial_state))
            (poll_of feed_outage 1))
         (prevStatus (fetchGitHubStatusSync (poll_of feed_outage 0) initial_state)))
  = false.
Proof.
  rewrite (first_poll_after_boot_is_quiet (poll_of feed_outage 0)
             (poll_of feed_outage 1) initial_state feed_outage
             eq_refl eq_refl eq_refl eq_refl eq_refl eq_refl).
  reflexivity.
Defined.

(** X21.  A boot fetch whose component request fails, or whose reply does
    not parse, reports nothing: with the link up it writes no text to the
    status bar, only the banner and the redraw, and it leaves the status
    line, the status table and the all-operational flag as they were. *)
Theorem boot_fetch_failure_is_silent inp s :
  wifiConnected inp = true ->
  httpCode (componentsReply inp) <> HTTP_CODE_OK \/
  body (componentsReply inp) = None ->
  let s' := fetchGitHubStatusSync inp s in
  new_events s s' = [banner_of s'; DrawAll; DrawGridLines] /\
  cachedStatusText s' = cachedStatusText s /\
  prevStatus s' = prevStatus s /\
  allOperational s' = allOperational s.
Proof.
  intros Hwifi Hfail s'. subst s'. unfold fetchGitHubStatusSync.
  rewrite Hwifi. cbn [negb].
  assert (H1 : sync_components (componentsReply inp) (localTime inp) s = s).
  { unfold sync_components. destruct Hfail as [Hc|Hb].
    - destruct (Z.eqb_spec (httpCode (componentsReply inp)) HTTP_CODE_OK);
        [contradiction|reflexivity].
    - rewrite Hb. destruct (_ =? _)%Z; reflexivity. }
  rewrite H1.
  destruct (sync_incidents_fields (incidentsReply inp) s)
    as (Ia & _ & It & Ip & Iscr & _).
  set (s2 := sync_incidents (incidentsReply inp) s) in *.
  unfold updateStatusBanner.
  destruct (hasUnresolvedIncidents s2 && (matrixSeverity s2 <? 1)%Z);
    cbn [cachedStatusText prevStatus allOperational set_health emit];
    (split; [|split; [exact It|split; [exact Ip|first [exact Ia|reflexivity]]]]);
    apply new_events_emit; cbn [screen emit set_health];
    rewrite Iscr, <- app_assoc; reflexivity.
Qed.

Lemma boot_fetch_failure_is_silent_witness :
  cachedStatusText (fetchGitHubStatusSync (http_failure 503) initial_state)
  = cachedStatusText initial_state.
Proof.
  apply (boot_fetch_failure_is_silent (http_failure 503) initial_state eq_refl).
  left. discriminate.
Defined.

(** ** drawGlyph *)

Lemma counter_range n i : In i (counter n) -> (0 <= i < n)%Z.
Proof.
  unfold counter. rewrite in_map_iff. intros (k & <- & Hk).
  apply in_seq in Hk. lia.
Qed.

(** X22.  A glyph that fits the cell is drawn inside it: when the glyph is
    at most 22 wide and 30 high, every pixel [drawGlyph] sets has the
    colour asked for and lies in the 22 x 30 cell whose corner is
    [(dx, dy)]; and for an index outside the glyph table no pixel is set. *)
Theorem drawGlyph_stays_in_cell env tbl dx dy idx color x y c :
  (0 <= MGLYPH_W tbl <= 22)%Z -> (0 <= MGLYPH_H tbl <= 30)%Z ->
  In (x, y, c) (drawGlyph env tbl dx dy idx color) ->
  c = color /\ (dx <= x < dx + MATRIX_CHAR_W)%Z /\
  (dy <= y < dy + MATRIX_CHAR_H)%Z /\ (idx < MGLYPH_COUNT env)%Z.
Proof.
  intros HW HH. unfold drawGlyph.
  destruct (Z.leb_spec (MGLYPH_COUNT env) idx) as [|Hidx]; [intros []|].
  change MATRIX_CHAR_W with 22%Z. change MATRIX_CHAR_H with 30%Z.
  assert (HoffX : (0 <= Z.quot (22 - MGLYPH_W tbl) 2
                   /\ 2 * Z.quot (22 - MGLYPH_W tbl) 2 <= 22 - MGLYPH_W tbl)%Z).
  { rewrite Z.quot_div_nonneg by lia.
    pose proof (Z.div_mod (22 - MGLYPH_W tbl) 2 ltac:(lia)).
    pose proof (Z.mod_pos_bound (22 - MGLYPH_W tbl) 2 eq_refl).
    pose proof (Z.div_pos (22 - MGLYPH_W tbl) 2 ltac:(lia) eq_refl). lia. }
  assert (HoffY : (0 <= Z.quot (30 - MGLYPH_H tbl) 2
                   /\ 2 * Z.quot (30 - MGLYPH_H tbl) 2 <= 30 - MGLYPH_H tbl)%Z).
  { rewrite Z.quot_div_nonneg by lia.
    pose proof (Z.div_mod (30 - MGLYPH_H tbl) 2 ltac:(lia)).
    pose proof (Z.mod_pos_bound (30 - MGLYPH_H tbl) 2 eq_refl).
    pose proof (Z.div_pos (30 - MGLYPH_H tbl) 2 ltac:(lia) eq_refl). lia. }
  rewrite !to_int16_small by lia.
  rewrite in_flat_map. intros (gy & Hgy & Hin).
  apply counter_range in Hgy.
  destruct (glyph_row_bits tbl idx gy =? 0)%Z; [destruct Hin|].
  rewrite in_flat_map in Hin. destruct Hin as (gx & Hgx & Hin).
  apply counter_range in Hgx.
  destruct (negb _); [|destruct Hin].
  destruct Hin as [Heq|[]]. inversion Heq; subst. repeat split; lia.
Qed.

Lemma drawGlyph_stays_in_cell_witness :
  (0 <= 3 < 0 + MATRIX_CHAR_W)%Z /\ (60 <= 63 < 60 + MATRIX_CHAR_H)%Z.
Proof.
  assert (Hin : In (3%Z, 63%Z, 2016%Z) (drawGlyph demo_env demo_glyphs 0 60 3 2016))
    by (vm_compute; left; reflexivity).
  destruct (drawGlyph_stays_in_cell demo_env demo_glyphs 0 60 3 2016 3 63 2016
              ltac:(cbn; lia) ltac:(cbn; lia) Hin) as (_ & Hx & Hy & _).
  split; assumption.
Defined.

(** ** Frames *)

Lemma loop_idle_frames env inp s :
  count_events is_frame (new_events s (loop_idle env inp s)) = 0.
Proof.
  unfold loop_idle. destruct (_ && _); [|rewrite new_events_refl; reflexivity].
  unfold millis. cbn [lastTouchTime set_clk]. destruct (_ <=? _)%Z.
  - set (s0 := set_clk (S (clk s)) s).
    destruct (matrixStartScreensaver_fields env s0)
      as (_ & _ & _ & _ & _ & _ & _ & _ & _ & Hframe & _).
    change (new_events s ?x) with (new_events s0 (matrixStartScreensaver env s0)).
    exact Hframe.
  - change (new_events s _) with (new_events s s). rewrite new_events_refl.
    reflexivity.
Qed.

Lemma loop_animate_frames env inp s :
  let s' := loop_animate env inp s in
  let due :=
    screensaverActive s && negb (screenAsleep inp) &&
    (MATRIX_FRAME_MS <=? to_uint32 (to_uint32 (millis_at env (clk s))
                                    - lastFrameTime s))%Z in
  count_events is_frame (new_events s s') = (if due then 1 else 0) /\
  (due = true -> lastFrameTime s' = to_uint32 (millis_at env (S (clk s)))) /\
  (due = false -> lastFrameTime s' = lastFrameTime s).
Proof.
  unfold loop_animate.
  destruct (screensaverActive s && negb (screenAsleep inp)); cbn [andb];
    [|rewrite new_events_refl; repeat split; discriminate].
  unfold millis. cbn [lastFrameTime set_clk].
  destruct (_ <=? _)%Z.
  - set (s0 := set_clk (S (clk s)) s).
    destruct (matrixDrawFrame_fields env s0)
      as (_ & _ & _ & _ & Hclk & _ & _ & Hframe & _).
    cbn [lastFrameTime set_lastFrameTime set_clk clk].
    split; [|split; [|discriminate]].
    + change (new_events s ?x) with (new_events s0 (matrixDrawFrame env s0)).
      exact Hframe.
    + intros _. rewrite Hclk. reflexivity.
  - cbn [lastFrameTime set_clk].
    change (new_events s _) with (new_events s s). rewrite new_events_refl.
    repeat split. discriminate.
Qed.

(** X23.  A pass of [loop] draws at most one frame, and draws none unless
    it ends with the screensaver on and the display awake; after a frame
    the frame timer holds the reading of the clock taken once the frame
    was drawn. *)
Theorem frames_need_screensaver env inp s :
  let s' := loop env inp s in
  let frames := count_events is_frame (new_events s s') in
  frames <= 1 /\
  (frames = 1 ->
   screensaverActive s' = true /\ screenAsleep inp = false /\
   lastFrameTime s' = to_uint32 (millis_at env (pred (clk s')))).
Proof.
  unfold loop.
  destruct (loop_touch_frames env inp s) as (Hf1 & He1 & _).
  set (s1 := loop_touch env inp s) in *.
  destruct (loop_apply_frames env inp s1) as (Hf2 & He2 & _).
  set (s2 := loop_apply env inp s1) in *.
  pose proof (loop_idle_frames env inp s2) as Hf3.
  destruct (loop_idle_log env inp s2) as (_ & He3).
  set (s3 := loop_idle env inp s2) in *.
  destruct (loop_animate_frames env inp s3) as (Hf4 & Hdue & _).
  destruct (loop_animate_fields env inp s3) as (Ha4 & _ & _ & _ & He4).
  pose proof (extends_trans s s1 s2 He1 He2) as He12.
  pose proof (extends_trans s s2 s3 He12 He3) as He13.
  cbv zeta.
  rewrite (new_events_trans s s3 _ He13 He4), count_events_app.
  rewrite (new_events_trans s s2 s3 He12 He3), count_events_app.
  rewrite (new_events_trans s s1 s2 He1 He2), count_events_app.
  rewrite Hf1, Hf2, Hf3, Hf4. cbn [Nat.add].
  destruct (screensaverActive s3) eqn:Hact; cbn [andb] in *;
    [|split; [lia|discriminate]].
  destruct (screenAsleep inp) eqn:Hsleep; cbn [negb andb] in *;
    [split; [lia|discriminate]|].
  destruct (MATRIX_FRAME_MS <=? _)%Z eqn:Hms; [|split; [lia|discriminate]].
  split; [lia|]. intros _. rewrite Ha4. split; [reflexivity|].
  split; [reflexivity|]. rewrite (Hdue eq_refl). f_equal.
  unfold loop_animate. rewrite Hact, Hsleep. cbn [negb andb].
  unfold millis. cbn [lastFrameTime set_clk]. rewrite Hms.
  destruct (matrixDrawFrame_fields env (set_clk (S (clk s3)) s3))
    as (_ & _ & _ & _ & Hclk & _).
  cbn [clk set_lastFrameTime set_clk]. rewrite Hclk. reflexivity.
Qed.

Lemma frames_need_screensaver_witness :
  screensaverActive
    (loop demo_env no_touch (set_clk 40 saver_state)) = true.
Proof.
  destruct (frames_need_screensaver demo_env no_touch (set_clk 40 saver_state))
    as [_ Hone].
  destruct (Hone ltac:(vm_compute; reflexivity)) as [Hact _].
  exact Hact.
Defined.

(** ** The grid laid out by setup *)

Lemma setup_grid_spec env ui :
  (0 <= screenW env < 32768)%Z -> (0 <= screenH env < 32768)%Z ->
  (0 <= TAB5_TITLE_H ui)%Z -> (0 <= TAB5_STATUS_H ui)%Z ->
  (TAB5_TITLE_H ui + BANNER_H <= screenH env - TAB5_STATUS_H ui)%Z ->
  let g := setup_grid env ui in
  contentTop g = (TAB5_TITLE_H ui + BANNER_H)%Z /\
  contentBottom g = (screenH env - TAB5_STATUS_H ui)%Z /\
  contentH g = (contentBottom g - contentTop g)%Z /\
  (0 <= colW g)%Z /\ (2 * colW g <= screenW env < 2 * colW g + 2)%Z /\
  (0 <= rowH g)%Z /\ (5 * rowH g <= contentH g < 5 * rowH g + 5)%Z.
Proof.
  intros HW HH Ht Hs Hfit. unfold setup_grid, BANNER_H, GRID_COLS, GRID_ROWS in *.
  cbn [contentTop contentBottom contentH colW rowH].
  rewrite (to_int16_small (TAB5_TITLE_H ui + 36)) by lia.
  rewrite (to_int16_small (screenH env - TAB5_STATUS_H ui)) by lia.
  rewrite (to_int16_small (screenH env - TAB5_STATUS_H ui - _)) by lia.
  set (h := (screenH env - TAB5_STATUS_H ui - (TAB5_TITLE_H ui + 36))%Z).
  assert (Hh : (0 <= h < 32768)%Z) by (unfold h; lia).
  rewrite (Z.quot_div_nonneg (screenW env) 2), (Z.quot_div_nonneg h 5) by lia.
  pose proof (Z.div_mod (screenW env) 2 ltac:(lia)).
  pose proof (Z.mod_pos_bound (screenW env) 2 eq_refl).
  pose proof (Z.div_mod h 5 ltac:(lia)).
  pose proof (Z.mod_pos_bound h 5 eq_refl).
  rewrite !to_int16_small by lia.
  repeat split; lia.
Qed.

Ltac grid_index i :=
  let H := fresh in
  assert (H : (i = 0 \/ i = 1 \/ i = 2 \/ i = 3 \/ i = 4 \/ i = 5 \/ i = 6 \/
               i = 7 \/ i = 8 \/ i = 9)%Z) by (unfold MAX_COMPONENTS in *; lia);
  destruct H as [->|[->|[->|[->|[->|[->|[->|[->|[->| ->]]]]]]]]].

Ltac grid_side :=
  unfold demo_env, demo_ui, MAX_COMPONENTS, BANNER_H; cbn; lia.

Ltac grid_eval :=
  repeat match goal with
  | |- context [Z.rem ?a GRID_COLS] =>
      let c := eval vm_compute in (Z.rem a GRID_COLS) in
      change (Z.rem a GRID_COLS) with c
  | |- context [Z.quot ?a GRID_COLS] =>
      let c := eval vm_compute in (Z.quot a GRID_COLS) in
      change (Z.quot a GRID_COLS) with c
  end.

Lemma cell_corner env ui i :
  (0 <= screenW env < 32768)%Z -> (0 <= screenH env < 32768)%Z ->
  (0 <= TAB5_TITLE_H ui)%Z -> (0 <= TAB5_STATUS_H ui)%Z ->
  (TAB5_TITLE_H ui + BANNER_H <= screenH env - TAB5_STATUS_H ui)%Z ->
  (0 <= i < Z.of_nat MAX_COMPONENTS)%Z ->
  let g := setup_grid env ui in
  exists col row,
    (0 <= col < 2)%Z /\ (0 <= row < 5)%Z /\ i = (2 * row + col)%Z /\
    cellX g i = (col * colW g)%Z /\
    cellY g i = (contentTop g + row * rowH g)%Z.
Proof.
  intros HW HH Ht Hs Hfit Hi g.
  destruct (setup_grid_spec env ui HW HH Ht Hs Hfit)
    as (Etop & Ebot & Eh & Hc0 & Hc & Hr0 & Hr).
  fold g in Etop, Ebot, Eh, Hc0, Hc, Hr0, Hr.
  unfold cellX, cellY, BANNER_H in *.
  grid_index i; grid_eval;
    match goal with
    | |- context [to_int16 (?c * colW g)] =>
        match goal with
        | |- context [to_int16 (contentTop g + ?r * rowH g)] =>
            exists c, r; rewrite !to_int16_small by lia; repeat split; lia
        end
    end.
Qed.

(** X24.  The ten cells [setup] lays out tile the content area: each cell
    lies between the left and right edge of the screen and between the
    bottom of the banner and the top of the status bar, and the cells of
    two different components do not overlap. *)
Theorem cells_tile_content env ui i j :
  (0 <= screenW env < 32768)%Z -> (0 <= screenH env < 32768)%Z ->
  (0 <= TAB5_TITLE_H ui)%Z -> (0 <= TAB5_STATUS_H ui)%Z ->
  (TAB5_TITLE_H ui + BANNER_H <= screenH env - TAB5_STATUS_H ui)%Z ->
  (0 <= i < Z.of_nat MAX_COMPONENTS)%Z -> (0 <= j < Z.of_nat MAX_COMPONENTS)%Z ->
  let g := setup_grid env ui in
  (0 <= cellX g i /\ cellX g i + colW g <= screenW env)%Z /\
  (contentTop g <= cellY g i /\ cellY g i + rowH g <= contentBottom g)%Z /\
  (i <> j ->
   cellX g i + colW g <= cellX g j \/ cellX g j + colW g <= cellX g i \/
   cellY g i + rowH g <= cellY g j \/ cellY g j + rowH g <= cellY g i)%Z.
Proof.
  intros HW HH Ht Hs Hfit Hi Hj g.
  destruct (setup_grid_spec env ui HW HH Ht Hs Hfit)
    as (Etop & Ebot & Eh & Hc0 & Hc & Hr0 & Hr).
  destruct (cell_corner env ui i HW HH Ht Hs Hfit Hi)
    as (ci & ri & Hci & Hri & Ei & Exi & Eyi).
  destruct (cell_corner env ui j HW HH Ht Hs Hfit Hj)
    as (cj & rj & Hcj & Hrj & Ej & Exj & Eyj).
  fold g in Etop, Ebot, Eh, Hc0, Hc, Hr0, Hr, Exi, Eyi, Exj, Eyj.
  rewrite Exi, Eyi, Exj, Eyj.
  assert (Hci' : (ci = 0 \/ ci = 1)%Z) by lia.
  assert (Hcj' : (cj = 0 \/ cj = 1)%Z) by lia.
  assert (Hri' : (ri = 0 \/ ri = 1 \/ ri = 2 \/ ri = 3 \/ ri = 4)%Z) by lia.
  assert (Hrj' : (rj = 0 \/ rj = 1 \/ rj = 2 \/ rj = 3 \/ rj = 4)%Z) by lia.
  destruct Hci' as [->| ->]; destruct Hri' as [->|[->|[->|[->| ->]]]];
    (split; [lia|split; [lia|]]); intros Hne;
    destruct Hcj' as [->| ->]; destruct Hrj' as [->|[->|[->|[->| ->]]]]; lia.
Qed.

Lemma cells_tile_content_witness :
  (cellY (setup_grid demo_env demo_ui) 9 + rowH (setup_grid demo_env demo_ui)
   <= contentBottom (setup_grid demo_env demo_ui))%Z.
Proof.
  apply (cells_tile_content demo_env demo_ui 9 0); grid_side.
Defined.

(** X25.  The dividers [drawGridLines] draws run along the cell edges:
    there are four horizontal lines, the one of row [r] spanning the
    screen at the top of the cells of row [r], and one vertical line at
    the left edge of the right-hand cells, over the height of the content
    area. *)
Theorem dividers_follow_cells env ui :
  (0 <= screenW env < 32768)%Z -> (0 <= screenH env < 32768)%Z ->
  (0 <= TAB5_TITLE_H ui)%Z -> (0 <= TAB5_STATUS_H ui)%Z ->
  (TAB5_TITLE_H ui + BANNER_H <= screenH env - TAB5_STATUS_H ui)%Z ->
  let g := setup_grid env ui in
  drawGridLines env g =
    [HLine 0 (cellY g 2) (screenW env); HLine 0 (cellY g 4) (screenW env);
     HLine 0 (cellY g 6) (screenW env); HLine 0 (cellY g 8) (screenW env);
     VLine (cellX g 1) (cellY g 0) (contentBottom g - contentTop g)].
Proof.
  intros HW HH Ht Hs Hfit g.
  destruct (setup_grid_spec env ui HW HH Ht Hs Hfit)
    as (Etop & Ebot & Eh & Hc0 & Hc & Hr0 & Hr).
  fold g in Etop, Ebot, Eh, Hc0, Hc, Hr0, Hr.
  unfold drawGridLines, cellX, cellY. grid_eval.
  change (Z.to_nat (GRID_ROWS - 1)) with 4.
  cbn [seq map app Z.of_nat Pos.of_succ_nat Pos.succ Z.add Pos.add].
  rewrite Eh. unfold BANNER_H in *.
  rewrite (to_int16_small (1 * colW g)), (to_int16_small (contentTop g + 0 * rowH g))
    by lia.
  repeat f_equal; lia.
Qed.

Lemma dividers_follow_cells_witness :
  length (drawGridLines demo_env (setup_grid demo_env demo_ui)) = 5.
Proof.
  rewrite (dividers_follow_cells demo_env demo_ui); [reflexivity|grid_side..].
Defined.

(** X26.  In a cell at least 102 wide and 72 high the two labels of a
    component lie inside its cell, the name above the status text with a
    gap of four pixels, and both end at or before the horizontal position
    given to the icon circle. *)
Theorem labels_inside_cell env ui i :
  (0 <= screenW env < 32768)%Z -> (0 <= screenH env < 32768)%Z ->
  (0 <= TAB5_TITLE_H ui)%Z -> (0 <= TAB5_STATUS_H ui)%Z ->
  (TAB5_TITLE_H ui + BANNER_H <= screenH env - TAB5_STATUS_H ui)%Z ->
  (0 <= i < Z.of_nat MAX_COMPONENTS)%Z ->
  let g := setup_grid env ui in
  (102 <= colW g)%Z -> (72 <= rowH g)%Z ->
  let '(nx, ny, nw, nh) := nameLabel_rect g i in
  let '(sx, sy, sw, sh) := statusLabel_rect g i in
  (cellX g i <= nx /\ nx + nw <= cellX g i + colW g - pad - iconR * 2)%Z /\
  (cellY g i <= ny /\ ny + nh + 4 = sy /\ sy + sh <= cellY g i + rowH g)%Z /\
  sx = nx /\ sw = nw /\ (0 <= nw)%Z.
Proof.
  intros HW HH Ht Hs Hfit Hi g HcW HrH.
  destruct (setup_grid_spec env ui HW HH Ht Hs Hfit)
    as (Etop & Ebot & Eh & Hc0 & Hc & Hr0 & Hr).
  destruct (cell_corner env ui i HW HH Ht Hs Hfit Hi)
    as (ci & ri & Hci & Hri & Ei & Exi & Eyi).
  fold g in Etop, Ebot, Eh, Hc0, Hc, Hr0, Hr, Exi, Eyi.
  unfold nameLabel_rect, statusLabel_rect, pad, iconR, BANNER_H in *.
  rewrite Exi, Eyi.
  rewrite (Z.quot_div_nonneg (rowH g) 2) by lia.
  pose proof (Z.div_mod (rowH g) 2 ltac:(lia)).
  pose proof (Z.mod_pos_bound (rowH g) 2 eq_refl).
  assert (Hci' : (ci = 0 \/ ci = 1)%Z) by lia.
  assert (Hri' : (ri = 0 \/ ri = 1 \/ ri = 2 \/ ri = 3 \/ ri = 4)%Z) by lia.
  destruct Hci' as [->| ->]; destruct Hri' as [->|[->|[->|[->| ->]]]];
    rewrite !to_int16_small by lia; repeat split; lia.
Qed.

Lemma labels_inside_cell_witness :
  (cellX (setup_grid demo_env demo_ui) 3
   <= fst (fst (fst (nameLabel_rect (setup_grid demo_env demo_ui) 3))))%Z.
Proof.
  pose proof (labels_inside_cell demo_env demo_ui 3
                ltac:(grid_side) ltac:(grid_side) ltac:(grid_side)
                ltac:(grid_side) ltac:(grid_side) ltac:(grid_side)
                ltac:(vm_compute; discriminate) ltac:(vm_compute; discriminate))
    as H.
  destruct (nameLabel_rect (setup_grid demo_env demo_ui) 3) as [[[nx ny] nw] nh].
  destruct (statusLabel_rect (setup_grid demo_env demo_ui) 3) as [[[sx sy] sw] sh].
  cbn [fst]. apply H.
Defined.
